(** * The ServiceNow assistant: API client, credential store and chat persistence

    A shallow embedding of
    - [src/services/servicenow.ts]  (class [ServiceNowAPI], the client factory),
    - [src/lib/mockAuth.ts]         (the ServiceNow credential store functions),
    - [src/services/chat.ts]        (chat persistence),
    - [src/config/supabase.ts]      (the BaaS client's fetch wrapper),
    - the settings component's [handleUpdateCredential],
    followed by the theorems that settle the properties stated about them.

    Conventions.
    - Text is a Rocq [string]: code units 0..255, the domain on which the
      browser's [btoa] is defined.
    - [Date.now()] and [Date] values are instants in milliseconds ([Z]).
    - An [async] function is a computation in the monad [M]: it reads and
      writes a state, and ends by returning, by throwing, or never ([Hang]:
      an awaited promise that is never settled).
    - The platform ([fetch], [Response], the BaaS query builder) is not code
      of the repository; it is modelled by the small semantics given in
      [Net] and [Supabase], next to the place where it is used. *)

From Stdlib Require Import ZArith List String Ascii Lia Bool DecimalString.
Import ListNotations.
Open Scope string_scope.
Open Scope Z_scope.

Set Implicit Arguments.
Set Warnings "-register-all".

(** ** JavaScript values, text and exceptions *)

Module Js.

(** [s.startsWith(p)], [s.endsWith(p)], [s.includes(p)]. *)
Definition startsWith (s p : string) : bool := String.prefix p s.

Fixpoint endsWith (s suf : string) : bool :=
  if String.eqb s suf then true
  else match s with
       | EmptyString => false
       | String _ s' => endsWith s' suf
       end.

Fixpoint includes (s sub : string) : bool :=
  if String.prefix sub s then true
  else match s with
       | EmptyString => false
       | String _ s' => includes s' sub
       end.

(** Truthiness of a string: only the empty string is falsy. *)
Definition truthy (s : string) : bool := negb (String.eqb s "").

(** [a || b] on strings. *)
Definition or_else (a b : string) : string := if truthy a then a else b.

(** [n.toString()] / [`${n}`] for an integer. *)
Definition show_int (n : Z) : string := NilZero.string_of_int (Z.to_int n).

(** [arr.join(",")]. *)
Definition join_comma (l : list string) : string := String.concat "," l.

(** JSON values, as [JSON.parse] returns them and [JSON.stringify] takes
    them.  An object keeps its members in order; numbers are integers. *)
Inductive json : Type :=
| JNull
| JBool (b : bool)
| JNum (n : Z)
| JStr (s : string)
| JArr (items : list json)
| JObj (members : list (string * json)).

(** A JavaScript value that may also be [undefined]. *)
Definition value := option json.
Definition undefined : value := None.

Fixpoint assoc (k : string) (l : list (string * json)) : value :=
  match l with
  | [] => None
  | (k', v) :: r => if String.eqb k k' then Some v else assoc k r
  end.

(** Truthiness of a JSON value. *)
Definition json_truthy (j : json) : bool :=
  match j with
  | JNull => false
  | JBool b => b
  | JNum n => negb (n =? 0)
  | JStr s => truthy s
  | JArr _ | JObj _ => true
  end.

(** String conversion of a JSON value, as in a template literal. *)
Fixpoint to_text (j : json) : string :=
  match j with
  | JNull => "null"
  | JBool true => "true"
  | JBool false => "false"
  | JNum n => show_int n
  | JStr s => s
  | JArr items =>
      String.concat ","
        (map (fun x => match x with JNull => "" | _ => to_text x end) items)
  | JObj _ => "[object Object]"
  end.

(** What a [throw] can carry in this program. *)
Inductive exn : Type :=
| Error (message : string)                 (* new Error(message) *)
| TypeError (message : string)             (* raised by the platform *)
| SyntaxError (message : string)           (* JSON.parse *)
| RangeError (message : string)            (* toISOString of an invalid date *)
| AbortError                               (* DOMException of an aborted fetch *)
| Thrown (status : Z) (message : string) (detail : option string)
                                           (* a plain object {status, message, detail?} *)
| StoreError (code message : string).      (* the error member of a BaaS answer *)

(** [error.status] and [error.message]. *)
Definition exn_status (e : exn) : option Z :=
  match e with
  | Thrown st _ _ => Some st
  | _ => None
  end.

Definition exn_message (e : exn) : string :=
  match e with
  | Error m | TypeError m | SyntaxError m | RangeError m => m
  | AbortError => "The operation was aborted."
  | Thrown _ m _ => m
  | StoreError _ m => m
  end.

(** *** [btoa]: base64 of a Latin-1 string *)

Definition b64_alphabet : string :=
  "ABCDEFGHIJKLMNOPQRSTUVWXYZabcdefghijklmnopqrstuvwxyz0123456789+/".

Definition b64_char (n : N) : ascii :=
  match String.get (N.to_nat n) b64_alphabet with
  | Some c => c
  | None => "="%char
  end.

Fixpoint b64_bytes (l : list N) : string :=
  match l with
  | [] => ""
  | [a] =>
      String (b64_char (N.shiftr a 2))
        (String (b64_char (N.shiftl (N.land a 3) 4)) "==")
  | [a; b] =>
      String (b64_char (N.shiftr a 2))
        (String (b64_char (N.lor (N.shiftl (N.land a 3) 4) (N.shiftr b 4)))
           (String (b64_char (N.shiftl (N.land b 15) 2)) "="))
  | a :: b :: c :: r =>
      String (b64_char (N.shiftr a 2))
        (String (b64_char (N.lor (N.shiftl (N.land a 3) 4) (N.shiftr b 4)))
           (String (b64_char (N.lor (N.shiftl (N.land b 15) 2) (N.shiftr c 6)))
              (String (b64_char (N.land c 63)) (b64_bytes r))))
  end.

Definition btoa (s : string) : string :=
  b64_bytes (map N_of_ascii (list_ascii_of_string s)).

End Js.

(** ** Asynchronous computations

    [M S A]: a computation over a state [S] that returns an [A], throws, or
    never completes.  [try_catch] is [try { ... } catch (e) { ... }]; a
    computation that hangs is not caught. *)

Module Async.

Inductive outcome (A : Type) : Type :=
| Ret (a : A)
| Throw (e : Js.exn)
| Hang.

Arguments Ret {A} a.
Arguments Throw {A} e.
Arguments Hang {A}.

Definition M (S A : Type) : Type := S -> outcome A * S.

Definition ret {S A} (a : A) : M S A := fun s => (Ret a, s).

Definition throw {S A} (e : Js.exn) : M S A := fun s => (Throw e, s).

Definition bind {S A B} (m : M S A) (k : A -> M S B) : M S B :=
  fun s =>
    match m s with
    | (Ret a, s') => k a s'
    | (Throw e, s') => (Throw e, s')
    | (Hang, s') => (Hang, s')
    end.

Definition try_catch {S A} (m : M S A) (handler : Js.exn -> M S A) : M S A :=
  fun s =>
    match m s with
    | (Throw e, s') => handler e s'
    | r => r
    end.

Definition gets {S A} (f : S -> A) : M S A := fun s => (Ret (f s), s).

Definition modify {S} (f : S -> S) : M S unit := fun s => (Ret tt, f s).

(** A computation that touches no state: an outcome lifted into [M]. *)
Definition lift {S A} (o : outcome A) : M S A := fun s => (o, s).

End Async.

Import Async.

Declare Scope async_scope.
Delimit Scope async_scope with async.
Notation "x <- m ;; k" := (bind m (fun x => k))
  (at level 61, m at next level, right associativity) : async_scope.
Notation "m ;; k" := (bind m (fun _ => k))
  (at level 61, right associativity) : async_scope.
Open Scope async_scope.

(** ** The network: [fetch] and [Response]

    The world outside the page is a script of what the network will do with
    the successive [fetch] calls, a clock, and the log of the calls made. *)

Module Net.

(** A response body: its text and what [JSON.parse] makes of that text
    ([None]: [JSON.parse] raises [SyntaxError]). *)
Record Body : Type := mkBody {
  text_of : string;
  parsed : option Js.json
}.

(** A [Response].  [body = None] is the null body.  [bodyUsed] is set by the
    first method that reads a non-null body. *)
Record Response : Type := mkResponse {
  status : Z;
  statusText : string;
  body : option Body;
  bodyUsed : bool
}.

Definition ok (r : Response) : bool := (200 <=? status r) && (status r <=? 299).

Definition consume (r : Response) : Response :=
  mkResponse (status r) (statusText r) (body r) true.

(** [response.json()]: rejects with [TypeError] when the body was already
    read; otherwise reads the body and parses it. *)
Definition json (r : Response) : outcome Js.json * Response :=
  match body r with
  | None => (Throw (Js.SyntaxError "Unexpected end of JSON input"), r)
  | Some b =>
      if bodyUsed r then (Throw (Js.TypeError "body stream already read"), r)
      else match parsed b with
           | Some j => (Ret j, consume r)
           | None => (Throw (Js.SyntaxError "Unexpected token"), consume r)
           end
  end.

(** [response.text()]. *)
Definition text (r : Response) : outcome string * Response :=
  match body r with
  | None => (Ret "", r)
  | Some b =>
      if bodyUsed r then (Throw (Js.TypeError "body stream already read"), r)
      else (Ret (text_of b), consume r)
  end.

(** The second argument of [fetch].  [signal]: the delay in milliseconds
    after which the controller of the attached abort signal aborts; [None]
    when no signal is attached. *)
Record RequestInit : Type := mkInit {
  method : option string;
  headers : list (string * string);
  req_body : option Js.json;        (* the value handed to JSON.stringify *)
  signal : option Z
}.

Definition no_init : RequestInit := mkInit None [] None None.

(** [{...a, ...b}] on header objects: a key of [b] replaces the same key of
    [a] in place, a new key is added at the end. *)
Fixpoint set_header (k v : string) (h : list (string * string))
  : list (string * string) :=
  match h with
  | [] => [(k, v)]
  | (k', v') :: r =>
      if String.eqb k k' then (k, v) :: r else (k', v') :: set_header k v r
  end.

Definition spread_headers (a b : list (string * string))
  : list (string * string) :=
  fold_left (fun acc kv => set_header (fst kv) (snd kv) acc) b a.

Record FetchCall : Type := mkCall {
  call_url : string;
  call_init : RequestInit
}.

(** What the network does with one call: answer after [delay] ms, fail
    after [delay] ms, or stay silent for ever. *)
Inductive net_event : Type :=
| Responds (delay : Z) (r : Response)
| Fails (delay : Z)
| Silent.

Record World : Type := mkWorld {
  now : Z;
  net : list net_event;
  log : list FetchCall
}.

Definition elapse (d : Z) (w : World) (rest : list net_event)
                  (c : FetchCall) : World :=
  mkWorld (now w + Z.max 0 d) rest (log w ++ [c]).

(** [fetch(url, init)].  With a signal that aborts after [t] ms the promise
    is rejected with [AbortError] at that time unless it was settled
    before; without one it is settled only by the network.  A fetch beyond
    the end of the script fails at once. *)
Definition fetch (url : string) (init : RequestInit) : M World Response :=
  fun w =>
    let c := mkCall url init in
    match net w with
    | [] => (Throw (Js.TypeError "Failed to fetch"), elapse 0 w [] c)
    | ev :: rest =>
        match ev, signal init with
        | Responds d r, None => (Ret r, elapse d w rest c)
        | Fails d, None =>
            (Throw (Js.TypeError "Failed to fetch"), elapse d w rest c)
        | Silent, None => (Hang, elapse 0 w rest c)
        | Responds d r, Some t =>
            if Z.max 0 d <? t then (Ret r, elapse d w rest c)
            else (Throw Js.AbortError, elapse t w rest c)
        | Fails d, Some t =>
            if Z.max 0 d <? t
            then (Throw (Js.TypeError "Failed to fetch"), elapse d w rest c)
            else (Throw Js.AbortError, elapse t w rest c)
        | Silent, Some t => (Throw Js.AbortError, elapse t w rest c)
        end
    end.

End Net.

(** ** [src/services/servicenow.ts]: the ServiceNow API client *)

Module ServiceNow.

Import Net.

(** [interface ServiceNowCredential] (a row of [servicenow_credentials]). *)
Record ServiceNowCredential : Type := mkCredential {
  id : string;
  user_id : string;
  name : string;
  instance_url : string;
  cred_username : string;
  cred_password : string;
  created_at : Z                    (* timestamptz, as an instant *)
}.

(** The private fields of [class ServiceNowAPI]. *)
Record ServiceNowAPI : Type := mkAPI {
  baseUrl : string;
  username : string;
  password : string;
  accessToken : option string;      (* string | null *)
  tokenExpiry : Z;
  credentialId : string
}.

(** [constructor(credential)]. *)
Definition new (credential : ServiceNowCredential) : ServiceNowAPI :=
  mkAPI (if Js.endsWith (instance_url credential) "/"
         then instance_url credential
         else instance_url credential ++ "/")
        (cred_username credential)
        (cred_password credential)
        None
        0
        (id credential).

(** The state an operation of the client runs in: the instance and the
    world. *)
Record Sys : Type := mkSys {
  this : ServiceNowAPI;
  world : World
}.

Definition set_token (tok : option string) (expiry : Z)
                     (t : ServiceNowAPI) : ServiceNowAPI :=
  mkAPI (baseUrl t) (username t) (password t) tok expiry (credentialId t).

Definition assign_token (tok : option string) (expiry : Z) : M Sys unit :=
  modify (fun s => mkSys (set_token tok expiry (this s)) (world s)).

Definition date_now : M Sys Z := gets (fun s => now (world s)).

(** The global [fetch], run on the world part of the state. *)
Definition fetch (url : string) (init : RequestInit) : M Sys Response :=
  fun s =>
    let (o, w) := Net.fetch url init (world s) in (o, mkSys (this s) w).

(** [this.accessToken && Date.now() < this.tokenExpiry]. *)
Definition token_valid (t : ServiceNowAPI) (time : Z) : bool :=
  match accessToken t with
  | Some tok => Js.truthy tok && (time <? tokenExpiry t)
  | None => false
  end.

(** [`${this.accessToken}`]. *)
Definition token_text (t : ServiceNowAPI) : string :=
  match accessToken t with
  | Some tok => tok
  | None => "null"
  end.

(** [private async authenticate()]. *)
Definition authenticate : M Sys unit :=
  try_catch
    (valid <- gets (fun s => token_valid (this s) (now (world s)));;
     if valid then ret tt
     else
       u <- gets (fun s => username (this s));;
       p <- gets (fun s => password (this s));;
       if negb (Js.truthy u) || negb (Js.truthy p)
       then throw (Js.Error
         "ServiceNow username or password is empty. Please check your credentials.")
       else
         let encodedCredentials := Js.btoa (u ++ ":" ++ p) in
         time <- date_now;;
         assign_token (Some encodedCredentials) (time + 3600000);;
         base <- gets (fun s => baseUrl (this s));;
         let testUrl := base ++ "api/now/v2/table/sys_user?sysparm_limit=1" in
         tok <- gets (fun s => token_text (this s));;
         testResponse <-
           fetch testUrl
             (mkInit (Some "GET")
                [("Accept", "application/json");
                 ("Authorization", "Basic " ++ tok)]
                None None);;
         if negb (ok testResponse)
         then
           errorText <- lift (fst (text testResponse));;
           throw (Js.Error ("Basic auth test failed: "
                            ++ Js.show_int (status testResponse)
                            ++ " " ++ errorText))
         else ret tt)
    (fun error =>
       throw (Js.Error ("Failed to authenticate with ServiceNow: "
                        ++ Js.exn_message error))).

(** [x.k] on a parsed JSON value: [TypeError] on [null], the member of an
    object, [undefined] otherwise. *)
Definition member (j : Js.json) (k : string) : outcome Js.value :=
  match j with
  | Js.JNull =>
      Throw (Js.TypeError ("Cannot read properties of null (reading '"
                           ++ k ++ "')"))
  | Js.JObj m => Ret (Js.assoc k m)
  | _ => Ret Js.undefined
  end.

(** [v?.k]. *)
Definition opt_member (v : Js.value) (k : string) : Js.value :=
  match v with
  | Some (Js.JObj m) => Js.assoc k m
  | _ => Js.undefined
  end.

(** [v || fallback]. *)
Definition or_value (v : Js.value) (fallback : Js.json) : Js.json :=
  match v with
  | Some j => if Js.json_truthy j then j else fallback
  | None => fallback
  end.

(** The local variables of the [if (!response.ok)] block of [request]. *)
Record Locals : Type := mkLocals {
  response : Response;
  errorMessage : string
}.

Definition on_response {A} (f : Response -> outcome A * Response)
  : M Locals A :=
  fun l => let (o, r) := f (response l) in (o, mkLocals r (errorMessage l)).

Definition assign_errorMessage (m : string) : M Locals unit :=
  modify (fun l => mkLocals (response l) m).

(** The body of [if (!response.ok) { ... }] (lines 161-179): a [try] that
    ends in [throw], inside its own [catch].  The [message] and [detail]
    members of the error document enter the thrown object as their text. *)
Definition reject_block : M Locals Js.json :=
  st <- gets (fun l => status (response l));;
  assign_errorMessage ("Request failed with status " ++ Js.show_int st);;
  try_catch
    (errorData <- on_response json;;
     err <- lift (member errorData "error");;
     let message :=
       or_value (opt_member err "message") (Js.JStr "Unknown error") in
     let detail := or_value (opt_member err "detail") (Js.JStr "") in
     assign_errorMessage (Js.to_text message);;
     (if Js.json_truthy detail
      then assign_errorMessage
             (Js.to_text message ++ ": " ++ Js.to_text detail)
      else ret tt);;
     m <- gets errorMessage;;
     throw (Js.Thrown st m (Some (Js.to_text detail))))
    (fun jsonError =>
       textError <- on_response text;;
       stText <- gets (fun l => statusText (response l));;
       m <- gets errorMessage;;
       throw (Js.Thrown st (Js.or_else textError (Js.or_else stText m)) None)).

(** What [request] throws for a response that is not ok. *)
Definition reject (r : Response) : outcome Js.json :=
  fst (reject_block (mkLocals r "")).

(** Lines 140-150: the URL and the headers of the request. *)
Definition request_url (t : ServiceNowAPI) (endpoint : string) : string :=
  if Js.startsWith endpoint "http"
  then endpoint
  else baseUrl t ++ "api/now/v2/" ++ endpoint.

Definition request_headers (t : ServiceNowAPI) (options : RequestInit)
  : list (string * string) :=
  spread_headers
    [("Accept", "application/json");
     ("Content-Type", "application/json");
     ("Authorization", "Basic " ++ token_text t)]
    (headers options).

(** [error.status === n]. *)
Definition status_is (error : Js.exn) (n : Z) : bool :=
  match Js.exn_status error with
  | Some st => st =? n
  | None => false
  end.

(** Lines 155-182: the [try] block of [request]. *)
Definition dispatch (url : string) (options : RequestInit)
                    (hdrs : list (string * string)) : M Sys Js.json :=
  resp <- fetch url (mkInit (method options) hdrs (req_body options)
                            (signal options));;
  if negb (ok resp)
  then lift (reject resp)
  else lift (fst (json resp)).

(** [private async request<T>(endpoint, options = {})].  The recursive call
    of line 189 is counted down by [fuel].  A round that ends in the
    recursive call has received a response, so the rounds of a call are at
    most as many as the entries of the network script, and [request] below
    starts with one more than that. *)
Fixpoint request_fuel (fuel : nat) (endpoint : string)
                      (options : RequestInit) : M Sys Js.json :=
  match fuel with
  | O => lift Hang
  | S fuel' =>
      authenticate;;
      url <- gets (fun s => request_url (this s) endpoint);;
      hdrs <- gets (fun s => request_headers (this s) options);;
      try_catch
        (dispatch url options hdrs)
        (fun error =>
           if status_is error 401
           then assign_token None 0;;
                request_fuel fuel' endpoint options
           else throw error)
  end.

Definition request (endpoint : string) (options : RequestInit)
  : M Sys Js.json :=
  fun s => request_fuel (S (List.length (net (world s)))) endpoint options s.

(** *** [URLSearchParams]

    [toString()] is the application/x-www-form-urlencoded serializer: the
    text is encoded in UTF-8, a space becomes [+], the bytes of
    [A-Z a-z 0-9 * - . _] stay, every other byte becomes [%XX]. *)

Definition utf8 (c : N) : list N :=
  if (c <? 128)%N then [c]
  else [(192 + N.shiftr c 6)%N; (128 + N.land c 63)%N].

Definition hex_digit (n : N) : ascii :=
  match String.get (N.to_nat n) "0123456789ABCDEF" with
  | Some c => c
  | None => "0"%char
  end.

Definition form_unreserved (b : N) : bool :=
  ((48 <=? b) && (b <=? 57) || (65 <=? b) && (b <=? 90)
   || (97 <=? b) && (b <=? 122)
   || (b =? 42) || (b =? 45) || (b =? 46) || (b =? 95))%N.

Definition form_byte (b : N) : string :=
  if (b =? 32)%N then "+"
  else if form_unreserved b then String (ascii_of_N b) ""
  else String "%"%char
         (String (hex_digit (N.shiftr b 4))
            (String (hex_digit (N.land b 15)) "")).

Definition form_encode (s : string) : string :=
  String.concat ""
    (map form_byte
       (flat_map (fun c => utf8 (N_of_ascii c)) (list_ascii_of_string s))).

Definition URLSearchParams := list (string * string).

Definition params_append (k v : string) (q : URLSearchParams)
  : URLSearchParams := (q ++ [(k, v)])%list.

Definition params_toString (q : URLSearchParams) : string :=
  String.concat "&"
    (map (fun kv => form_encode (fst kv) ++ "=" ++ form_encode (snd kv)) q).

(** *** The public operations *)

Inductive direction : Type := asc | desc.

Definition direction_text (d : direction) : string :=
  match d with asc => "asc" | desc => "desc" end.

(** [interface ServiceNowQueryOptions]; [None] is an absent member. *)
Record ServiceNowQueryOptions : Type := mkQuery {
  table : string;
  query : option string;
  limit : option Z;
  offset : option Z;
  fields : option (list string);
  orderBy : option string;
  orderDirection : option direction
}.

Definition default {A} (o : option A) (d : A) : A :=
  match o with Some a => a | None => d end.

Definition opt_truthy (o : option string) : bool :=
  match o with Some s => Js.truthy s | None => false end.

(** [error.message || "Unknown error"], behind the prefix of the operation. *)
Definition wrap (prefix : string) (error : Js.exn) : Js.exn :=
  Js.Error (prefix ++ Js.or_else (Js.exn_message error) "Unknown error").

(** [response.result]. *)
Definition result_of (resp : Js.json) : M Sys Js.value :=
  lift (member resp "result").

(** Lines 211-233 of [queryRecords]: the endpoint with its query string. *)
Definition query_endpoint (options : ServiceNowQueryOptions) : string :=
  let lim := default (limit options) 10 in
  let off := default (offset options) 0 in
  let flds := default (fields options) [] in
  let dir := default (orderDirection options) desc in
  let endpoint := "table/" ++ table options in
  let q0 : URLSearchParams := [] in
  let q1 := if opt_truthy (query options)
            then params_append "sysparm_query" (default (query options) "") q0
            else q0 in
  let q2 := params_append "sysparm_limit" (Js.show_int lim) q1 in
  let q3 := params_append "sysparm_offset" (Js.show_int off) q2 in
  let q4 := if (0 <? List.length flds)%nat
            then params_append "sysparm_fields" (Js.join_comma flds) q3
            else q3 in
  let q5 := if opt_truthy (orderBy options)
            then params_append "sysparm_order" (direction_text dir)
                   (params_append "sysparm_order_by"
                      (default (orderBy options) "") q4)
            else q4 in
  let queryString := params_toString q5 in
  if Js.truthy queryString then endpoint ++ "?" ++ queryString else endpoint.

Definition queryRecords (options : ServiceNowQueryOptions)
  : M Sys Js.value :=
  try_catch
    (resp <- request (query_endpoint options) no_init;; result_of resp)
    (fun error =>
       throw (wrap ("Failed to query " ++ table options ++ " records: ") error)).

Definition record_endpoint (tbl sysId : string) (flds : list string)
  : string :=
  let endpoint := "table/" ++ tbl ++ "/" ++ sysId in
  if (0 <? List.length flds)%nat
  then endpoint ++ "?"
       ++ params_toString
            (params_append "sysparm_fields" (Js.join_comma flds) [])
  else endpoint.

Definition getRecord (tbl sysId : string) (flds : list string)
  : M Sys Js.value :=
  try_catch
    (resp <- request (record_endpoint tbl sysId flds) no_init;;
     result_of resp)
    (fun error => throw (wrap ("Failed to get " ++ tbl ++ " record: ") error)).

Definition createRecord (tbl : string) (data : Js.json) : M Sys Js.value :=
  try_catch
    (resp <- request ("table/" ++ tbl)
               (mkInit (Some "POST") [] (Some data) None);;
     result_of resp)
    (fun error =>
       throw (wrap ("Failed to create " ++ tbl ++ " record: ") error)).

Definition updateRecord (tbl sysId : string) (data : Js.json)
  : M Sys Js.value :=
  try_catch
    (resp <- request ("table/" ++ tbl ++ "/" ++ sysId)
               (mkInit (Some "PATCH") [] (Some data) None);;
     result_of resp)
    (fun error =>
       throw (wrap ("Failed to update " ++ tbl ++ " record: ") error)).

Definition deleteRecord (tbl sysId : string) : M Sys unit :=
  try_catch
    (request ("table/" ++ tbl ++ "/" ++ sysId)
       (mkInit (Some "DELETE") [] None None);;
     ret tt)
    (fun error =>
       throw (wrap ("Failed to delete " ++ tbl ++ " record: ") error)).

Definition executeScript (script : string) : M Sys Js.value :=
  let endpoint := "v1/script/execute" in
  try_catch
    (resp <- request endpoint
               (mkInit (Some "POST") []
                  (Some (Js.JObj [("script", Js.JStr script)])) None);;
     result_of resp)
    (fun error => throw (wrap "Failed to execute script: " error)).

Definition testConnection : M Sys bool :=
  try_catch
    (authenticate;;
     request "table/sys_user?sysparm_limit=1" no_init;;
     ret true)
    (fun error => ret false).

(** A call of one of the public operations, with its result as a value
    ([deleteRecord] gives [undefined], [testConnection] a boolean). *)
Inductive Operation : Type :=
| QueryRecords (options : ServiceNowQueryOptions)
| GetRecord (tbl sysId : string) (flds : list string)
| CreateRecord (tbl : string) (data : Js.json)
| UpdateRecord (tbl sysId : string) (data : Js.json)
| DeleteRecord (tbl sysId : string)
| ExecuteScript (script : string)
| TestConnection.

Definition perform (op : Operation) : M Sys Js.value :=
  match op with
  | QueryRecords options => queryRecords options
  | GetRecord tbl sysId flds => getRecord tbl sysId flds
  | CreateRecord tbl data => createRecord tbl data
  | UpdateRecord tbl sysId data => updateRecord tbl sysId data
  | DeleteRecord tbl sysId => deleteRecord tbl sysId;; ret Js.undefined
  | ExecuteScript script => executeScript script
  | TestConnection => b <- testConnection;; ret (Some (Js.JBool b))
  end.

End ServiceNow.

(** ** The BaaS store

    The tables of [supabase/migrations] and [src/sql] and the part of the
    query builder the program uses.  A call answers [{data, error}] and does
    not throw.  [faults] schedules, for the coming calls, the errors that
    the model does not compute itself (transport failures, row-level
    security, rejected values): a call whose entry is [Some (code, message)]
    answers with that error and changes nothing.  The tables are the tables
    as the session of the owner of the rows works on them: that the store
    skips, without an error, the rows that the policies of the tables
    ([auth.uid() = user_id]) hide from another session is not part of the
    model, and the statements that depend on it assume the session of the
    owner.  [ticks] lets time pass between two readings of the clock. *)

Module Supabase.

Import ServiceNow.

Record ConversationRow : Type := mkConversationRow {
  conv_id : string;
  conv_user_id : string;
  conv_title : string;
  conv_created_at : Z;
  conv_updated_at : Z
}.

Record CodeSnippet : Type := mkSnippet {
  snippet_id : string;
  code : string;
  language : string
}.

(** [metadata] is [null] or [{codeSnippets: [...]}]. *)
Record MessageRow : Type := mkMessageRow {
  msg_id : string;
  msg_conversation_id : string;
  msg_content : string;
  msg_sender : string;
  msg_created_at : Z;
  msg_metadata : option (list CodeSnippet)
}.

Record Store : Type := mkStore {
  servicenow_credentials : list ServiceNowCredential;
  conversations : list ConversationRow;
  messages : list MessageRow;
  uuid_gen : nat -> string;         (* uuid_generate_v4, call by call *)
  uuid_next : nat;
  faults : list (option (string * string));
  clock : Z;                        (* now() and Date.now() *)
  auth_uid : option string;         (* auth.uid() *)
  ticks : list Z                    (* the time between readings of the clock *)
}.

Definition with_credentials (l : list ServiceNowCredential) (st : Store) :=
  mkStore l (conversations st) (messages st) (uuid_gen st) (uuid_next st)
          (faults st) (clock st) (auth_uid st) (ticks st).

Definition with_conversations (l : list ConversationRow) (st : Store) :=
  mkStore (servicenow_credentials st) l (messages st) (uuid_gen st)
          (uuid_next st) (faults st) (clock st) (auth_uid st) (ticks st).

Definition with_messages (l : list MessageRow) (st : Store) :=
  mkStore (servicenow_credentials st) (conversations st) l (uuid_gen st)
          (uuid_next st) (faults st) (clock st) (auth_uid st) (ticks st).

Definition with_uuid_next (n : nat) (st : Store) :=
  mkStore (servicenow_credentials st) (conversations st) (messages st)
          (uuid_gen st) n (faults st) (clock st) (auth_uid st) (ticks st).

Definition with_faults (f : list (option (string * string))) (st : Store) :=
  mkStore (servicenow_credentials st) (conversations st) (messages st)
          (uuid_gen st) (uuid_next st) f (clock st) (auth_uid st) (ticks st).

(** Time passes between two readings of the clock of the page: [ticks]
    gives, reading by reading, the milliseconds that pass after it (none
    once the list is used up). *)
Definition ticked (st : Store) : Store :=
  mkStore (servicenow_credentials st) (conversations st) (messages st)
          (uuid_gen st) (uuid_next st) (faults st)
          (clock st + Z.max 0 (hd 0 (ticks st))) (auth_uid st)
          (tl (ticks st)).

(** [new Date()], taken as its instant. *)
Definition new_Date : M Store Z := fun st => (Ret (clock st), ticked st).

(** The [{data, error}] of an awaited query. *)
Inductive answer (A : Type) : Type :=
| Data (data : A)
| Failed (code message : string).

Arguments Data {A} data.
Arguments Failed {A} code message.

(** One call of the query builder. *)
Definition call {A} (run : Store -> answer A * Store) : M Store (answer A) :=
  fun st =>
    match faults st with
    | Some (c, m) :: rest => (Ret (Failed c m), with_faults rest st)
    | None :: rest =>
        let (a, st') := run (with_faults rest st) in (Ret a, st')
    | [] => let (a, st') := run st in (Ret a, st')
    end.

(** [.single()]: exactly one row, or [PGRST116]. *)
Definition single {A} (rows : list A) : answer A :=
  match rows with
  | [r] => Data r
  | _ => Failed "PGRST116"
           "JSON object requested, multiple (or no) rows returned"
  end.

Definition duplicate_key {A} : answer A :=
  Failed "23505" "duplicate key value violates unique constraint".

(** *** [servicenow_credentials] *)

Definition cred_is (cid uid : string) (r : ServiceNowCredential) : bool :=
  String.eqb (id r) cid && String.eqb (user_id r) uid.

Definition same_owner_name (a b : ServiceNowCredential) : bool :=
  String.eqb (user_id a) (user_id b) && String.eqb (name a) (name b).

(** [INSERT ... RETURNING *]: primary key [id], [UNIQUE(user_id, name)]. *)
Definition insert_credential (uid nm url un pw : string)
  : Store -> answer ServiceNowCredential * Store :=
  fun st =>
    let row := mkCredential (uuid_gen st (uuid_next st)) uid nm url un pw
                            (clock st) in
    let st1 := with_uuid_next (S (uuid_next st)) st in
    if existsb (fun r => String.eqb (id r) (id row)
                         || same_owner_name r row)
               (servicenow_credentials st)
    then (duplicate_key, st1)
    else (Data row,
          with_credentials (servicenow_credentials st ++ [row]) st1).

(** [.from("servicenow_credentials").select("count").limit(1)]. *)
Definition table_check : M Store (answer unit) :=
  call (fun st => (Data tt, st)).

(** [.rpc("create_servicenow_credentials_table")]: the table exists. *)
Definition rpc_create_table : M Store (answer unit) :=
  call (fun st => (Data tt, st)).

(** [.rpc("insert_servicenow_credential", {...})]: returns the new id. *)
Definition rpc_insert_credential (uid nm url un pw : string)
  : M Store (answer string) :=
  call (fun st =>
          match insert_credential uid nm url un pw st with
          | (Data row, st') => (Data (id row), st')
          | (Failed c m, st') => (Failed c m, st')
          end).

(** [.insert({...}).select().single()]. *)
Definition insert_credential_single (uid nm url un pw : string)
  : M Store (answer ServiceNowCredential) :=
  call (insert_credential uid nm url un pw).

(** [.select("*").eq("id", cid).single()]. *)
Definition select_credential_by_id (cid : string)
  : M Store (answer ServiceNowCredential) :=
  call (fun st =>
          (single (filter (fun r => String.eqb (id r) cid)
                          (servicenow_credentials st)), st)).

(** [.select("*").eq("id", cid).eq("user_id", uid).single()]. *)
Definition select_credential (cid uid : string)
  : M Store (answer ServiceNowCredential) :=
  call (fun st =>
          (single (filter (cred_is cid uid) (servicenow_credentials st)), st)).

(** [.select("*").eq("user_id", uid)]. *)
Definition select_credentials_of (uid : string)
  : M Store (answer (list ServiceNowCredential)) :=
  call (fun st =>
          (Data (filter (fun r => String.eqb (user_id r) uid)
                        (servicenow_credentials st)), st)).

(** [.delete().eq("id", cid).eq("user_id", uid)]. *)
Definition delete_credential (cid uid : string) : M Store (answer unit) :=
  call (fun st =>
          (Data tt,
           with_credentials
             (filter (fun r => negb (cred_is cid uid r))
                     (servicenow_credentials st)) st)).

(** [Partial<Omit<ServiceNowCredential, "id" | "user_id" | "created_at">>]:
    [None] is a member that is absent or [undefined]; such a member is not
    sent to the store. *)
Record CredentialUpdates : Type := mkUpdates {
  upd_name : option string;
  upd_instance_url : option string;
  upd_username : option string;
  upd_password : option string
}.

(** [UPDATE ... SET] of the columns that are present. *)
Definition apply_updates (u : CredentialUpdates) (r : ServiceNowCredential)
  : ServiceNowCredential :=
  mkCredential (id r) (user_id r)
    (default (upd_name u) (name r))
    (default (upd_instance_url u) (instance_url r))
    (default (upd_username u) (cred_username r))
    (default (upd_password u) (cred_password r))
    (created_at r).

(** [.update(updates).eq("id", cid).eq("user_id", uid).select().single()]:
    the statement is rolled back unless it returns exactly one row. *)
Definition update_credential (cid uid : string) (u : CredentialUpdates)
  : M Store (answer ServiceNowCredential) :=
  call (fun st =>
          let rows := servicenow_credentials st in
          match single (filter (cred_is cid uid) rows) with
          | Data r =>
              let r' := apply_updates u r in
              if existsb (fun o => negb (cred_is cid uid o)
                                   && same_owner_name o r') rows
              then (duplicate_key, st)
              else (Data r',
                    with_credentials
                      (map (fun o => if cred_is cid uid o
                                     then apply_updates u o else o) rows) st)
          | Failed c m => (Failed c m, st)
          end).

(** [supabase.auth.getUser()]: the [data.user] of the answer. *)
Definition getUser : M Store (option string) :=
  a <- call (fun st => (Data (auth_uid st), st));;
  match a with
  | Data u => ret u
  | Failed _ _ => ret None
  end.

(** *** [conversations] and [messages] *)

(** [ORDER BY key ASC]: a stable insertion sort. *)
Fixpoint insert_by {A} (key : A -> Z) (x : A) (l : list A) : list A :=
  match l with
  | [] => [x]
  | y :: r => if key x <=? key y then x :: y :: r
              else y :: insert_by key x r
  end.

Definition order_asc {A} (key : A -> Z) (l : list A) : list A :=
  fold_right (insert_by key) [] l.

(** [ORDER BY key DESC]. *)
Definition order_desc {A} (key : A -> Z) (l : list A) : list A :=
  order_asc (fun x => - key x) l.

(** [.from("conversations").insert({user_id, title, created_at, updated_at})
     .select("id").single()]. *)
Definition insert_conversation (uid title : string) (created updated : Z)
  : M Store (answer string) :=
  call (fun st =>
          let row := mkConversationRow (uuid_gen st (uuid_next st)) uid title
                                       created updated in
          let st1 := with_uuid_next (S (uuid_next st)) st in
          if existsb (fun r => String.eqb (conv_id r) (conv_id row))
                     (conversations st)
          then (duplicate_key, st1)
          else (Data (conv_id row),
                with_conversations (conversations st ++ [row]) st1)).

(** A message as the program hands it to [insert]: no [id] member. *)
Record MessageInsert : Type := mkMessageInsert {
  ins_conversation_id : string;
  ins_content : string;
  ins_sender : string;
  ins_created_at : Z;
  ins_metadata : option (list CodeSnippet)
}.

(** The rows of a bulk insert, each with the next generated id. *)
Fixpoint number_rows (gen : nat -> string) (n : nat)
                     (l : list MessageInsert) : list MessageRow :=
  match l with
  | [] => []
  | m :: r =>
      mkMessageRow (gen n) (ins_conversation_id m) (ins_content m)
                   (ins_sender m) (ins_created_at m) (ins_metadata m)
      :: number_rows gen (S n) r
  end.

Fixpoint distinct (l : list string) : bool :=
  match l with
  | [] => true
  | x :: r => negb (existsb (String.eqb x) r) && distinct r
  end.

(** [.from("messages").insert(rows)]: one statement; primary key [id],
    foreign key [conversation_id]. *)
Definition insert_messages (l : list MessageInsert) : M Store (answer unit) :=
  call (fun st =>
          let rows := number_rows (uuid_gen st) (uuid_next st) l in
          let st1 := with_uuid_next (uuid_next st + List.length l)%nat st in
          if negb (distinct (map msg_id (messages st ++ rows)))
          then (duplicate_key, st1)
          else if forallb
                    (fun m => existsb
                                (fun c => String.eqb (conv_id c)
                                                     (msg_conversation_id m))
                                (conversations st)) rows
          then (Data tt, with_messages (messages st ++ rows) st1)
          else (Failed "23503"
                  "insert or update on table violates foreign key constraint",
                st1)).

(** [.select("*").eq("user_id", uid).order("updated_at", {ascending: false})]. *)
Definition select_conversations_of (uid : string)
  : M Store (answer (list ConversationRow)) :=
  call (fun st =>
          (Data (order_desc conv_updated_at
                   (filter (fun c => String.eqb (conv_user_id c) uid)
                           (conversations st))), st)).

(** [.select("*").eq("id", cid).single()]. *)
Definition select_conversation (cid : string)
  : M Store (answer ConversationRow) :=
  call (fun st =>
          (single (filter (fun c => String.eqb (conv_id c) cid)
                          (conversations st)), st)).

(** [.select("*").eq("conversation_id", cid)
     .order("created_at", {ascending: true})]. *)
Definition select_messages_of (cid : string)
  : M Store (answer (list MessageRow)) :=
  call (fun st =>
          (Data (order_asc msg_created_at
                   (filter (fun m => String.eqb (msg_conversation_id m) cid)
                           (messages st))), st)).

(** [.update({title, updated_at}).eq("id", cid)]. *)
Definition update_conversation (cid title : string) (updated : Z)
  : M Store (answer unit) :=
  call (fun st =>
          (Data tt,
           with_conversations
             (map (fun c => if String.eqb (conv_id c) cid
                            then mkConversationRow (conv_id c) (conv_user_id c)
                                   title (conv_created_at c) updated
                            else c)
                  (conversations st)) st)).

(** [.from("messages").delete().eq("conversation_id", cid)]. *)
Definition delete_messages_of (cid : string) : M Store (answer unit) :=
  call (fun st =>
          (Data tt,
           with_messages
             (filter (fun m => negb (String.eqb (msg_conversation_id m) cid))
                     (messages st)) st)).

(** [.from("conversations").delete().eq("id", cid)], with
    [ON DELETE CASCADE] on [messages]. *)
Definition delete_conversation_row (cid : string) : M Store (answer unit) :=
  call (fun st =>
          (Data tt,
           with_conversations
             (filter (fun c => negb (String.eqb (conv_id c) cid))
                     (conversations st))
             (with_messages
                (filter (fun m => negb (String.eqb (msg_conversation_id m) cid))
                        (messages st)) st))).

End Supabase.

(** ** [src/lib/mockAuth.ts], lines 193-467: the credential store, and the
    client factory of [src/services/servicenow.ts] *)

Module Credentials.

Import ServiceNow Supabase.

Definition store_error {A} (c m : string) : M Store A :=
  throw (Js.StoreError c m).

(** [async function createServiceNowCredentialsTable()]: on an error of
    the RPC it only logs. *)
Definition createServiceNowCredentialsTable : M Store bool :=
  try_catch
    (_ <- rpc_create_table;; ret true)
    (fun error => throw error).

(** [saveServiceNowCredential(userId, name, instanceUrl, username, password)]. *)
Definition saveServiceNowCredential
    (userId nm instanceUrl un pw : string) : M Store ServiceNowCredential :=
  try_catch
    (tableCheck <- table_check;;
     match tableCheck with
     | Failed c m =>
         if String.eqb c "PGRST116"
         then _ <- createServiceNowCredentialsTable;; ret tt
         else store_error c m
     | Data _ => ret tt
     end;;
     viaRpc <-
       try_catch
         (rpc <- rpc_insert_credential userId nm instanceUrl un pw;;
          match rpc with
          | Failed _ _ => ret None
          | Data rpcData =>
              fetched <- select_credential_by_id rpcData;;
              match fetched with
              | Failed _ _ => ret None
              | Data fetchedData => ret (Some fetchedData)
              end
          end)
         (fun rpcException => ret None);;
     match viaRpc with
     | Some fetchedData => ret fetchedData
     | None =>
         inserted <- insert_credential_single userId nm instanceUrl un pw;;
         match inserted with
         | Failed c m =>
             (if Js.truthy m && Js.includes m "row-level security policy"
              then
                authData <- getUser;;
                match authData with
                | Some uid =>
                    if negb (String.eqb uid userId)
                    then throw (Js.Error
  "User ID mismatch: The provided user ID does not match the authenticated user ID")
                    else ret tt
                | None => ret tt
                end
              else ret tt);;
             store_error c m
         | Data data => ret data
         end
     end)
    (fun error => throw error).

(** [getServiceNowCredentials(userId)]. *)
Definition getServiceNowCredentials (userId : string)
  : M Store (list ServiceNowCredential) :=
  a <- select_credentials_of userId;;
  match a with
  | Failed c m => store_error c m
  | Data data => ret data
  end.

(** [deleteServiceNowCredential(id, userId)]. *)
Definition deleteServiceNowCredential (cid userId : string) : M Store unit :=
  a <- delete_credential cid userId;;
  match a with
  | Failed c m => store_error c m
  | Data _ => ret tt
  end.

(** [updateServiceNowCredential(id, userId, updates)]. *)
Definition updateServiceNowCredential
    (cid userId : string) (updates : CredentialUpdates)
  : M Store ServiceNowCredential :=
  a <- update_credential cid userId updates;;
  match a with
  | Failed c m => store_error c m
  | Data data => ret data
  end.

(** The form data the settings component passes to its handlers. *)
Record CredentialForm : Type := mkForm {
  form_name : string;
  form_instanceUrl : string;
  form_username : string;
  form_password : string
}.

(** [handleUpdateCredential(id, credential)] of the settings component;
    [user] is the signed-in user of the auth context.  The alert and the
    page reload leave the store as it is. *)
Definition handleUpdateCredential
    (user : option string) (cid : string) (credential : CredentialForm)
  : M Store unit :=
  match user with
  | None => ret tt
  | Some userId =>
      try_catch
        (let updates :=
           mkUpdates (Some (form_name credential))
                     (Some (form_instanceUrl credential))
                     (Some (form_username credential))
                     (if Js.truthy (form_password credential)
                      then Some (form_password credential) else None) in
         _ <- updateServiceNowCredential cid userId updates;;
         ret tt)
        (fun error => ret tt)
  end.

(** [getServiceNowClient(credentialId, userId)]. *)
Definition getServiceNowClient (cid userId : string)
  : M Store (option ServiceNowAPI) :=
  try_catch
    (a <- select_credential cid userId;;
     match a with
     | Failed _ _ => ret None
     | Data data => ret (Some (new data))
     end)
    (fun error => ret None).

(** [clients[key] = api] on a [Record<string, ServiceNowAPI>]. *)
Fixpoint set_client (k : string) (v : ServiceNowAPI)
                    (o : list (string * ServiceNowAPI))
  : list (string * ServiceNowAPI) :=
  match o with
  | [] => [(k, v)]
  | (k', v') :: r =>
      if String.eqb k k' then (k, v) :: r else (k', v') :: set_client k v r
  end.

(** [getAllServiceNowClients(userId)]. *)
Definition getAllServiceNowClients (userId : string)
  : M Store (list (string * ServiceNowAPI)) :=
  try_catch
    (a <- select_credentials_of userId;;
     match a with
     | Failed _ _ => ret []
     | Data data =>
         ret (fold_left (fun clients credential =>
                           set_client (id credential) (new credential) clients)
                        data [])
     end)
    (fun error => ret []).

End Credentials.

(** ** [src/services/chat.ts]: chat persistence *)

Module Chat.

Import Supabase.

(** A [Date]: an instant, or the invalid date. *)
Inductive Date : Type :=
| Instant (ms : Z)
| InvalidDate.

(** [d.toISOString()], the text taken as the instant it denotes. *)
Definition toISOString (d : Date) : outcome Z :=
  match d with
  | Instant ms => Ret ms
  | InvalidDate => Throw (Js.RangeError "Invalid time value")
  end.

(** [interface ChatMessage]; [sender] is ["user"] or ["ai"]. *)
Record ChatMessage : Type := mkMessage {
  id : string;
  content : string;
  sender : string;
  timestamp : Date;
  codeSnippets : option (list CodeSnippet)
}.

(** [interface ChatConversation]. *)
Record ChatConversation : Type := mkConversation {
  conversation_id : string;
  title : string;
  createdAt : Date;
  updatedAt : Date;
  messages_of : option (list ChatMessage)
}.

(** [messages.map((message) => ({...}))] of [saveConversation]; the
    callback throws on an invalid timestamp. *)
Fixpoint messagesToInsert (conversationId : string) (l : list ChatMessage)
  : outcome (list MessageInsert) :=
  match l with
  | [] => Ret []
  | message :: r =>
      match toISOString (timestamp message) with
      | Ret created =>
          match messagesToInsert conversationId r with
          | Ret rows =>
              Ret (mkMessageInsert conversationId (content message)
                     (sender message) created (codeSnippets message) :: rows)
          | Throw e => Throw e
          | Hang => Hang
          end
      | Throw e => Throw e
      | Hang => Hang
      end
  end.

(** [saveConversation(userId, title, messages)]: [None] is [null]. *)
Definition saveConversation (userId ttl : string) (msgs : list ChatMessage)
  : M Store (option string) :=
  try_catch
    (created <- new_Date;;
     updated <- new_Date;;
     conversation <- insert_conversation userId ttl created updated;;
     match conversation with
     | Failed _ _ => ret None
     | Data conversationId =>
         rows <- lift (messagesToInsert conversationId msgs);;
         inserted <- insert_messages rows;;
         match inserted with
         | Failed _ _ => ret None
         | Data _ => ret (Some conversationId)
         end
     end)
    (fun error => ret None).

(** [getConversations(userId)]. *)
Definition getConversations (userId : string)
  : M Store (list ChatConversation) :=
  try_catch
    (a <- select_conversations_of userId;;
     match a with
     | Failed _ _ => ret []
     | Data data =>
         ret (map (fun conv =>
                     mkConversation (conv_id conv) (conv_title conv)
                       (Instant (conv_created_at conv))
                       (Instant (conv_updated_at conv)) None)
                  data)
     end)
    (fun error => ret []).

(** The formatting of one stored message in [getConversationWithMessages]. *)
Definition format_message (msg : MessageRow) : ChatMessage :=
  mkMessage (msg_id msg) (msg_content msg) (msg_sender msg)
            (Instant (msg_created_at msg)) (msg_metadata msg).

(** [getConversationWithMessages(conversationId)]. *)
Definition getConversationWithMessages (conversationId : string)
  : M Store (option ChatConversation) :=
  try_catch
    (conversation <- select_conversation conversationId;;
     match conversation with
     | Failed _ _ => ret None
     | Data conversationData =>
         msgs <- select_messages_of conversationId;;
         match msgs with
         | Failed _ _ => ret None
         | Data messagesData =>
             ret (Some (mkConversation
                          (conv_id conversationData)
                          (conv_title conversationData)
                          (Instant (conv_created_at conversationData))
                          (Instant (conv_updated_at conversationData))
                          (Some (map format_message messagesData))))
         end
     end)
    (fun error => ret None).

(** [updateConversationTitle(conversationId, title)]. *)
Definition updateConversationTitle (conversationId ttl : string)
  : M Store bool :=
  try_catch
    (time <- new_Date;;
     a <- update_conversation conversationId ttl time;;
     match a with
     | Failed _ _ => ret false
     | Data _ => ret true
     end)
    (fun error => ret false).

(** [deleteConversation(conversationId)]. *)
Definition deleteConversation (conversationId : string) : M Store bool :=
  try_catch
    (a <- delete_messages_of conversationId;;
     match a with
     | Failed _ _ => ret false
     | Data _ =>
         b <- delete_conversation_row conversationId;;
         match b with
         | Failed _ _ => ret false
         | Data _ => ret true
         end
     end)
    (fun error => ret false).

End Chat.

(** ** [src/config/supabase.ts]: the [global.fetch] of the BaaS client *)

Module SupabaseConfig.

Import Net.

(** [(url, options) => { ... }] of lines 38-56: a controller whose abort is
    scheduled 15000 ms ahead, its signal spread over the caller's options;
    both handlers clear the timer, the second re-throws. *)
Definition timeout_ms : Z := 15000.

Definition global_fetch (url : string) (options : RequestInit)
  : M World Response :=
  try_catch
    (resp <- Net.fetch url
               (mkInit (method options) (headers options) (req_body options)
                       (Some timeout_ms));;
     ret resp)
    (fun error => throw error).

End SupabaseConfig.

(** * Properties *)

Unset Implicit Arguments.

(** ** What the properties speak about *)

Module Props.

Import Net ServiceNow.

(** The fields of a client that are set by the constructor only. *)
Definition same_identity (t t' : ServiceNowAPI) : Prop :=
  baseUrl t' = baseUrl t /\ username t' = username t
  /\ password t' = password t /\ credentialId t' = credentialId t.

(** A fetch call of the client: under [base ++ "api/now/v2/"], and without
    an abort signal. *)
Definition client_call (base : string) (c : FetchCall) : Prop :=
  (exists endpoint, call_url c = base ++ "api/now/v2/" ++ endpoint)
  /\ signal (call_init c) = None.

(** [s'] comes after [s]: same identity fields, and the log of [s] extended
    by calls that satisfy [good]. *)
Definition extends (good : FetchCall -> Prop) (s s' : Sys) : Prop :=
  same_identity (this s) (this s')
  /\ exists calls, log (world s') = (log (world s) ++ calls)%list
                   /\ Forall good calls.

(** A computation of the client keeps to [good] calls under the base URL it
    started with. *)
Definition keeps {A} (m : M Sys A) : Prop :=
  forall s, extends (client_call (baseUrl (this s))) s (snd (m s)).

(** The verification request of [authenticate]. *)
Definition is_verification (c : FetchCall) : bool :=
  Js.endsWith (call_url c) "api/now/v2/table/sys_user?sysparm_limit=1"
  && match method (call_init c) with
     | Some m => String.eqb m "GET"
     | None => false
     end.

(** The calls of a log made with a given method. *)
Definition with_method (m : string) (l : list FetchCall) : list FetchCall :=
  filter (fun c => match method (call_init c) with
                   | Some m' => String.eqb m m'
                   | None => false
                   end) l.

(** The state of a client after lines 187-188. *)
Definition cleared (s : Sys) : Sys :=
  mkSys (set_token None 0 (this s)) (world s).

(** The state in which [authenticate] leaves the instance. *)
Definition authenticated_instance (s : Sys) : ServiceNowAPI :=
  if token_valid (this s) (now (world s)) then this s
  else if negb (Js.truthy (username (this s)))
          || negb (Js.truthy (password (this s)))
  then this s
  else set_token (Some (Js.btoa (username (this s) ++ ":" ++ password (this s))))
                 (now (world s) + 3600000) (this s).

Definition verification_call (t : ServiceNowAPI) : FetchCall :=
  mkCall (baseUrl t ++ "api/now/v2/table/sys_user?sysparm_limit=1")
         (mkInit (Some "GET")
            [("Accept", "application/json");
             ("Authorization", "Basic " ++ token_text t)]
            None None).

(** The endpoint and the options with which an operation calls [request]. *)
Definition request_of (op : Operation) : string * RequestInit :=
  match op with
  | QueryRecords options => (query_endpoint options, no_init)
  | GetRecord tbl sysId flds => (record_endpoint tbl sysId flds, no_init)
  | CreateRecord tbl data =>
      ("table/" ++ tbl, mkInit (Some "POST") [] (Some data) None)
  | UpdateRecord tbl sysId data =>
      ("table/" ++ tbl ++ "/" ++ sysId,
       mkInit (Some "PATCH") [] (Some data) None)
  | DeleteRecord tbl sysId =>
      ("table/" ++ tbl ++ "/" ++ sysId, mkInit (Some "DELETE") [] None None)
  | ExecuteScript script =>
      ("v1/script/execute",
       mkInit (Some "POST") []
              (Some (Js.JObj [("script", Js.JStr script)])) None)
  | TestConnection => ("table/sys_user?sysparm_limit=1", no_init)
  end.

(** Whether the network settles the next call in less than [t] ms. *)
Definition settles_before (t : Z) (script : list net_event) : bool :=
  match script with
  | [] => true
  | Responds d _ :: _ => Z.max 0 d <? t
  | Fails d :: _ => Z.max 0 d <? t
  | Silent :: _ => false
  end.

(** Whether [authenticate] goes to the network. *)
Definition verifies (s : Sys) : bool :=
  negb (token_valid (this s) (now (world s)))
  && Js.truthy (username (this s)) && Js.truthy (password (this s)).

End Props.

(** ** What the properties of the store speak about *)

Module StoreProps.

Import ServiceNow Supabase Chat.

(** [r'] is [r] after an update with [u]: the columns that [u] does not
    carry are those of [r], and a column that differs is one that [u]
    carries, with the value [u] gives it. *)
Definition updated_by (u : CredentialUpdates) (r r' : ServiceNowCredential)
  : Prop :=
  ServiceNow.id r' = ServiceNow.id r
  /\ user_id r' = user_id r
  /\ created_at r' = created_at r
  /\ (name r' = name r \/ upd_name u = Some (name r'))
  /\ (instance_url r' = instance_url r
      \/ upd_instance_url u = Some (instance_url r'))
  /\ (cred_username r' = cred_username r
      \/ upd_username u = Some (cred_username r'))
  /\ (cred_password r' = cred_password r
      \/ upd_password u = Some (cred_password r'))
  /\ (upd_name u = None -> name r' = name r)
  /\ (upd_instance_url u = None -> instance_url r' = instance_url r)
  /\ (upd_username u = None -> cred_username r' = cred_username r)
  /\ (upd_password u = None -> cred_password r' = cred_password r).

(** Every message of the store belongs to a conversation of the store
    (the foreign key of [messages]). *)
Definition fk_ok (st : Store) : Prop :=
  forall m, In m (messages st) ->
    exists c, In c (conversations st) /\ conv_id c = msg_conversation_id m.

(** The instants of a list of dates are strictly increasing. *)
Fixpoint increasing_from (t : Z) (l : list Date) : Prop :=
  match l with
  | [] => True
  | Instant u :: r => t < u /\ increasing_from u r
  | InvalidDate :: _ => False
  end.

Definition increasing (l : list Date) : Prop :=
  match l with
  | [] => True
  | Instant u :: r => increasing_from u r
  | InvalidDate :: _ => False
  end.

(** The next [n] calls of the store are not answered with a scheduled
    error. *)
Definition unfaulted (n : nat) (st : Store) : Prop :=
  Forall (fun f => f = None) (firstn n (faults st)).

(** A computation of the store that does not hang. *)
Definition settles {A} (m : M Store A) : Prop :=
  forall st, fst (m st) <> Hang.

(** The end of a write of a credential: a stored row is returned, or an
    error is thrown. *)
Definition stored_or_thrown (r : outcome ServiceNowCredential * Store)
  : Prop :=
  match fst r with
  | Ret row => In row (servicenow_credentials (snd r))
  | Throw _ => True
  | Hang => False
  end.

(** The row [r] is the message [m] as [saveConversation] stores it under
    the conversation [cid]. *)
Definition stores (cid : string) (m : ChatMessage) (r : MessageRow) : Prop :=
  msg_conversation_id r = cid
  /\ msg_content r = content m
  /\ msg_sender r = sender m
  /\ timestamp m = Instant (msg_created_at r)
  /\ msg_metadata r = codeSnippets m.

(** [m'] is [m] but for its [id]. *)
Definition same_but_id (m m' : ChatMessage) : Prop :=
  content m' = content m /\ sender m' = sender m
  /\ timestamp m' = timestamp m /\ codeSnippets m' = codeSnippets m.

End StoreProps.

(** ** Sample data of the store *)

Module StoreSamples.

Import ServiceNow Supabase Chat.

Definition uuid (n : nat) : string := "uuid-" ++ Js.show_int (Z.of_nat n).

Definition stored_credential : ServiceNowCredential :=
  mkCredential "6f1c" "user-1" "dev"
               "https://dev12345.service-now.com" "admin" "secret" 100.

Definition store (f : list (option (string * string))) : Store :=
  mkStore [stored_credential] [] [] uuid 0 f 5000 (Some "user-1") [].

Definition unreachable : option (string * string) :=
  Some ("08006", "connection failure").

Definition snippet : CodeSnippet :=
  mkSnippet "s1" "gs.info(1)" "javascript".

Definition m1 : ChatMessage :=
  mkMessage "m1" "How do I log?" "user" (Instant 1000) None.

Definition m2 : ChatMessage :=
  mkMessage "m2" "Use gs.info" "ai" (Instant 2000) (Some [snippet]).

(** [m2] with a timestamp before that of [m1]. *)
Definition m2_early : ChatMessage :=
  mkMessage "m2" "Use gs.info" "ai" (Instant 500) (Some [snippet]).

End StoreSamples.

(** ** Sample data *)

Module Samples.

Import Net ServiceNow.

Definition quote : string := String (ascii_of_nat 34) EmptyString.

(** The JSON text of a value whose strings need no escaping. *)
Fixpoint render (j : Js.json) : string :=
  match j with
  | Js.JNull => "null"
  | Js.JBool true => "true"
  | Js.JBool false => "false"
  | Js.JNum n => Js.show_int n
  | Js.JStr s => quote ++ s ++ quote
  | Js.JArr items => "[" ++ String.concat "," (map render items) ++ "]"
  | Js.JObj members =>
      "{" ++ String.concat ","
               (map (fun kv => quote ++ fst kv ++ quote ++ ":"
                               ++ render (snd kv)) members)
          ++ "}"
  end.

(** A response of the network with a JSON body. *)
Definition json_response (st : Z) (stText : string) (j : Js.json)
  : Response :=
  mkResponse st stText (Some (mkBody (render j) (Some j))) false.

(** A response with the null body. *)
Definition bare_response (st : Z) (stText : string) : Response :=
  mkResponse st stText None false.

Definition credential : ServiceNowCredential :=
  mkCredential "6f1c" "user-1" "dev"
               "https://dev12345.service-now.com" "admin" "secret" 0.

Definition users_page : Response :=
  json_response 200 "OK"
    (Js.JObj [("result", Js.JArr [Js.JObj [("user_name", Js.JStr "admin")]])]).

Definition unauthorized : Response :=
  json_response 401 "Unauthorized"
    (Js.JObj [("error",
               Js.JObj [("message", Js.JStr "User Not Authenticated");
                        ("detail",
                         Js.JStr "Required to provide Auth information")]);
              ("status", Js.JStr "failure")]).

Definition not_found : Response :=
  json_response 404 "Not Found"
    (Js.JObj [("error",
               Js.JObj [("message", Js.JStr "No Record found");
                        ("detail",
                         Js.JStr "Record does not exist or ACL restricts it")]);
              ("status", Js.JStr "failure")]).

Definition script_done : Response :=
  json_response 200 "OK" (Js.JObj [("result", Js.JStr "done")]).

Definition incidents : ServiceNowQueryOptions :=
  mkQuery "incident" None None None None None None.

(** A network on which re-authentication passes and the request is
    answered with 401 (null body) [n] times before [final]. *)
Fixpoint rounds (n : nat) (final : list net_event) : list net_event :=
  match n with
  | O => final
  | S k => Responds 40 users_page
           :: Responds 30 (bare_response 401 "Unauthorized")
           :: rounds k final
  end.

(** A new client at time 1000, in front of a given network script. *)
Definition fresh (script : list net_event) : Sys :=
  mkSys (new credential) (mkWorld 1000 script []).

End Samples.

From Stdlib Require Import Permutation Sorted.

(** ** What the further properties of the client speak about *)

Module ClientProps.

Import Net ServiceNow Props.

(** The prefix an operation puts before the message of an error. *)
Definition op_prefix (op : Operation) : string :=
  match op with
  | QueryRecords options => "Failed to query " ++ table options ++ " records: "
  | GetRecord tbl _ _ => "Failed to get " ++ tbl ++ " record: "
  | CreateRecord tbl _ => "Failed to create " ++ tbl ++ " record: "
  | UpdateRecord tbl _ _ => "Failed to update " ++ tbl ++ " record: "
  | DeleteRecord tbl _ => "Failed to delete " ++ tbl ++ " record: "
  | ExecuteScript _ => "Failed to execute script: "
  | TestConnection => ""
  end.

(** [!this.username || !this.password]. *)
Definition empty_credentials (t : ServiceNowAPI) : bool :=
  negb (Js.truthy (username t)) || negb (Js.truthy (password t)).

(** The message of [authenticate] for empty credentials, as wrapped by its
    [catch]. *)
Definition empty_credentials_message : string :=
  "Failed to authenticate with ServiceNow: ServiceNow username or password is empty. Please check your credentials.".

(** [headers[k]] of a header object. *)
Fixpoint header (k : string) (h : list (string * string)) : option string :=
  match h with
  | [] => None
  | (k', v) :: r => if String.eqb k k' then Some v else header k r
  end.

(** The characters of [s] are ASCII characters.  The platform's [btoa]
    takes such a string; it throws on a character above U+00FF. *)
Definition ascii_only (s : string) : bool :=
  forallb (fun ch => (N_of_ascii ch <? 128)%N) (list_ascii_of_string s).

(** The token the client derives from its credential. *)
Definition basic_token (t : ServiceNowAPI) : string :=
  Js.btoa (username t ++ ":" ++ password t).

(** The cached token, when there is one, is the token of the credential. *)
Definition token_inv (t : ServiceNowAPI) : Prop :=
  accessToken t = None \/ accessToken t = Some (basic_token t).

(** A call that carries the Basic authorization [tok]. *)
Definition authorized_by (tok : string) (c : FetchCall) : Prop :=
  header "Authorization" (headers (call_init c)) = Some ("Basic " ++ tok).

(** From a state whose token is that of the credential, [s'] is reached
    with the same property, by calls authorized with that token only. *)
Definition sends_token (s s' : Sys) : Prop :=
  token_inv (this s) ->
  token_inv (this s')
  /\ extends (authorized_by (basic_token (this s))) s s'.

Definition respects {A} (R : Sys -> Sys -> Prop) (m : M Sys A) : Prop :=
  forall s, R s (snd (m s)).

(** The call [request] makes for an endpoint. *)
Definition request_call (t : ServiceNowAPI) (endpoint : string)
                        (options : RequestInit) : FetchCall :=
  mkCall (request_url t endpoint)
         (mkInit (method options) (request_headers t options)
                 (req_body options) (signal options)).

End ClientProps.

(** ** The other handlers of the settings component *)

Module Settings.

Import ServiceNow Supabase Credentials.

(** [handleSaveCredential(credential)]; the alert and the page reload
    leave the store as it is. *)
Definition handleSaveCredential (user : option string)
                                (credential : CredentialForm)
  : M Store unit :=
  match user with
  | None => ret tt
  | Some userId =>
      try_catch
        (_ <- saveServiceNowCredential userId (form_name credential)
                (form_instanceUrl credential) (form_username credential)
                (form_password credential);;
         ret tt)
        (fun error => ret tt)
  end.

(** [handleDeleteCredential(id)]. *)
Definition handleDeleteCredential (user : option string) (cid : string)
  : M Store unit :=
  match user with
  | None => ret tt
  | Some userId =>
      try_catch
        (deleteServiceNowCredential cid userId;; ret tt)
        (fun error => ret tt)
  end.

End Settings.

(** ** What the further properties of the store speak about *)

Module StoreExtraProps.

Import ServiceNow Supabase Chat.

(** In a list of conversations, [a] stands before [b] only if it was
    updated no earlier. *)
Definition newer_first (a b : ChatConversation) : Prop :=
  match updatedAt a, updatedAt b with
  | Instant x, Instant y => y <= x
  | _, _ => False
  end.

(** A conversation as [getConversations] lists it. *)
Definition listed (conv : ConversationRow) : ChatConversation :=
  mkConversation (conv_id conv) (conv_title conv)
                 (Instant (conv_created_at conv))
                 (Instant (conv_updated_at conv)) None.

(** The rows that [deleteConversation] leaves in the two tables. *)
Definition without_conversation (cid : string) (l : list ConversationRow)
  : list ConversationRow :=
  filter (fun c => negb (String.eqb (conv_id c) cid)) l.

Definition without_messages_of (cid : string) (l : list MessageRow)
  : list MessageRow :=
  filter (fun m => negb (String.eqb (msg_conversation_id m) cid)) l.

(** The conversation row that [saveConversation] writes. *)
Definition saved_row (cid owner ttl : string) (st : Store)
  : ConversationRow :=
  mkConversationRow cid owner ttl (clock st) (clock (ticked st)).

(** A row with a new title, as [updateConversationTitle] writes it. *)
Definition retitled (cid ttl : string) (time : Z) (c : ConversationRow)
  : ConversationRow :=
  if String.eqb (conv_id c) cid
  then mkConversationRow (conv_id c) (conv_user_id c) ttl
                         (conv_created_at c) time
  else c.

(** The row carries the values given to [saveServiceNowCredential]. *)
Definition carries (uid nm url un pw : string) (row : ServiceNowCredential)
  : Prop :=
  user_id row = uid /\ name row = nm /\ instance_url row = url
  /\ cred_username row = un /\ cred_password row = pw.

(** The session is that of the owner of the conversation [cid], which is
    stored: the policies of [conversations] and [messages] let this
    session read, update and delete the conversation and its messages. *)
Definition session_owns (cid : string) (st : Store) : Prop :=
  (exists c, In c (conversations st) /\ conv_id c = cid)
  /\ forall c, In c (conversations st) -> conv_id c = cid ->
       auth_uid st = Some (conv_user_id c).

(** The policy of [conversations]: the row is that of the session. *)
Definition visible_conversation (st : Store) (c : ConversationRow) : Prop :=
  auth_uid st = Some (conv_user_id c).

(** The policy of [messages]: the message belongs to a conversation of
    the session. *)
Definition visible_message (st : Store) (m : MessageRow) : Prop :=
  exists c, In c (conversations st)
            /\ conv_id c = msg_conversation_id m
            /\ auth_uid st = Some (conv_user_id c).

End StoreExtraProps.

(** ** How the operations of the store end *)

Module ErrorProps.

Import ServiceNow Supabase.

(** An error that the store answered with, thrown as it is. *)
Definition is_store_error (e : Js.exn) : Prop :=
  exists c m, e = Js.StoreError c m.

(** The error [saveServiceNowCredential] throws itself. *)
Definition user_id_mismatch : Js.exn :=
  Js.Error
    "User ID mismatch: The provided user ID does not match the authenticated user ID".

(** A row of [servicenow_credentials]. *)
Definition stored (row : ServiceNowCredential) (st : Store) : Prop :=
  In row (servicenow_credentials st).

Definition anything {A} (a : A) (st : Store) : Prop := True.

(** The end of an operation: it returns a value that is [good] in the
    store it leaves, or throws an error that is [bad]; it does not hang. *)
Definition returns_or_throws {A} (good : A -> Store -> Prop)
                             (bad : Js.exn -> Prop)
                             (r : outcome A * Store) : Prop :=
  match fst r with
  | Ret a => good a (snd r)
  | Throw e => bad e
  | Hang => False
  end.

End ErrorProps.

(** ** What the further properties of the credential store speak about *)

Module CredentialProps.

Import ServiceNow Supabase.

(** The end of an insert made by [saveServiceNowCredential] on the table
    of [st]: a returned row is the one that a single insert into the table
    has produced, with the table as that insert left it; after a throw the
    table is as it was, or as such an insert left it. *)
Definition inserted_once (uid nm url un pw : string) (st : Store)
                         (r : outcome ServiceNowCredential * Store) : Prop :=
  match fst r with
  | Ret row =>
      exists st0 stI,
        servicenow_credentials st0 = servicenow_credentials st
        /\ insert_credential uid nm url un pw st0 = (Data row, stI)
        /\ servicenow_credentials (snd r) = servicenow_credentials stI
  | Throw _ =>
      servicenow_credentials (snd r) = servicenow_credentials st
      \/ exists st0 stI row,
           servicenow_credentials st0 = servicenow_credentials st
           /\ insert_credential uid nm url un pw st0 = (Data row, stI)
           /\ servicenow_credentials (snd r) = servicenow_credentials stI
  | Hang => False
  end.

(** The rows other than those of the credential [cid] of [uid]. *)
Definition without_credential (cid uid : string)
                              (l : list ServiceNowCredential)
  : list ServiceNowCredential :=
  filter (fun r => negb (cred_is cid uid r)) l.

(** The policy of [servicenow_credentials]: the row is that of the
    session. *)
Definition visible_credential (st : Store) (r : ServiceNowCredential)
  : Prop :=
  auth_uid st = Some (user_id r).

End CredentialProps.

(** ** [src/lib/mockAuth.ts], lines 1-191: authentication kept in the
    storage of the browser

    The page is the two storages, the cookies a script can see, the
    module's array [MOCK_USERS] and the clock.  A stored string is kept
    with what [JSON.parse] makes of it, as the body of a response is; the
    string that [JSON.stringify] makes of a value parses to that value.
    The storages take every write.  [str_gt s n] is the platform's [s > n]
    for a string [s] and a number [n]. *)

Module MockAuth.

Import Net.

Definition MOCK_AUTH_KEY : string := "mock-auth-user".
Definition MOCK_AUTH_ENABLED : string := "mock-auth-enabled".
Definition MOCK_AUTH_SESSION : string := "mock-auth-session".

Record MockUser : Type := mkMockUser {
  email : string;
  password : string;
  name : string;
  id : string
}.

(** [type AuthUser] of [./auth], with the members [mockSignIn] sets. *)
Record AuthUser : Type := mkAuthUser {
  au_id : string;
  au_email : string;
  au_name : string;
  avatar_url : string
}.

Record Session : Type := mkSession {
  user : AuthUser;
  expires_at : Z;
  created_at : Z
}.

(** *** [Storage] *)

Definition Storage : Type := list (string * Body).

Fixpoint getItem (k : string) (s : Storage) : option Body :=
  match s with
  | [] => None
  | (k', v) :: r => if String.eqb k k' then Some v else getItem k r
  end.

Fixpoint setItem (k : string) (v : Body) (s : Storage) : Storage :=
  match s with
  | [] => [(k, v)]
  | (k', v') :: r =>
      if String.eqb k k' then (k, v) :: r else (k', v') :: setItem k v r
  end.

Definition removeItem (k : string) (s : Storage) : Storage :=
  filter (fun kv => negb (String.eqb k (fst kv))) s.

(** [a || b] on [string | null], and the truthiness of such a value. *)
Definition item_truthy (a : option Body) : bool :=
  match a with
  | Some x => Js.truthy (text_of x)
  | None => false
  end.

Definition or_item (a b : option Body) : option Body :=
  if item_truthy a then a else b.

(** *** [JSON.stringify] and [JSON.parse] *)

Definition hex_lower (n : Z) : ascii :=
  match String.get (Z.to_nat n) "0123456789abcdef" with
  | Some c => c
  | None => "0"%char
  end.

Definition escape (c : ascii) : string :=
  let n := Z.of_N (N_of_ascii c) in
  let bs := ascii_of_nat 92 in
  if n =? 34 then String bs (String c "")
  else if n =? 92 then String bs (String c "")
  else if n =? 8 then String bs "b"
  else if n =? 12 then String bs "f"
  else if n =? 10 then String bs "n"
  else if n =? 13 then String bs "r"
  else if n =? 9 then String bs "t"
  else if n <? 32
       then String bs
              ("u00" ++ String (hex_lower (n / 16))
                          (String (hex_lower (n mod 16)) ""))
  else String c "".

Fixpoint escaped (s : string) : string :=
  match s with
  | EmptyString => ""
  | String c r => escape c ++ escaped r
  end.

Definition quoted (s : string) : string :=
  String (ascii_of_nat 34) (escaped s ++ String (ascii_of_nat 34) "").

Fixpoint stringify_text (j : Js.json) : string :=
  match j with
  | Js.JNull => "null"
  | Js.JBool true => "true"
  | Js.JBool false => "false"
  | Js.JNum n => Js.show_int n
  | Js.JStr s => quoted s
  | Js.JArr items =>
      "[" ++ String.concat "," (map stringify_text items) ++ "]"
  | Js.JObj members =>
      "{" ++ String.concat ","
               (map (fun kv => quoted (fst kv) ++ ":" ++ stringify_text (snd kv))
                    members) ++ "}"
  end.

(** [JSON.stringify(j)]: the string, with its parse. *)
Definition stringify (j : Js.json) : Body := mkBody (stringify_text j) (Some j).

(** [JSON.parse(s)]. *)
Definition parse (s : Body) : outcome Js.json :=
  match parsed s with
  | Some j => Ret j
  | None => Throw (Js.SyntaxError "Unexpected token")
  end.

Definition json_of_user (u : AuthUser) : Js.json :=
  Js.JObj [("id", Js.JStr (au_id u)); ("email", Js.JStr (au_email u));
           ("name", Js.JStr (au_name u));
           ("avatar_url", Js.JStr (avatar_url u))].

Definition json_of_session (u : Js.json) (expires created : Z) : Js.json :=
  Js.JObj [("user", u); ("expires_at", Js.JNum expires);
           ("created_at", Js.JNum created)].

(** [j.k] for a parsed value [j]: a [TypeError] on [null], [undefined] on
    the other values that are no objects. *)
Definition get_member (j : Js.json) (k : string) : outcome Js.value :=
  match j with
  | Js.JNull =>
      Throw (Js.TypeError
               ("Cannot read properties of null (reading '" ++ k ++ "')"))
  | Js.JObj members => Ret (Js.assoc k members)
  | _ => Ret Js.undefined
  end.

Definition value_truthy (v : Js.value) : bool :=
  match v with
  | Some j => Js.json_truthy j
  | None => false
  end.

(** *** Cookies *)

Record Cookie : Type := mkCookie {
  ck_name : string;
  ck_value : string;
  ck_path : string;
  ck_expires : Z                       (* ms since the epoch *)
}.

Record Browser : Type := mkBrowser {
  localStorage : Storage;
  sessionStorage : Storage;
  cookies : list Cookie;
  MOCK_USERS : list MockUser;
  now : Z;                             (* [Date.now()] *)
  str_gt : string -> Z -> bool
}.

(** The array as the module creates it. *)
Definition MOCK_USERS_initial : list MockUser :=
  [mkMockUser "test@example.com" "password" "Test User" "mock-user-1";
   mkMockUser "admin@example.com" "admin" "Admin User" "mock-user-2"].

Definition with_local (f : Storage -> Storage) (b : Browser) : Browser :=
  mkBrowser (f (localStorage b)) (sessionStorage b) (cookies b)
            (MOCK_USERS b) (now b) (str_gt b).

Definition with_session (f : Storage -> Storage) (b : Browser) : Browser :=
  mkBrowser (localStorage b) (f (sessionStorage b)) (cookies b)
            (MOCK_USERS b) (now b) (str_gt b).

Definition with_cookies (f : list Cookie -> list Cookie) (b : Browser)
  : Browser :=
  mkBrowser (localStorage b) (sessionStorage b) (f (cookies b))
            (MOCK_USERS b) (now b) (str_gt b).

Definition with_users (l : list MockUser) (b : Browser) : Browser :=
  mkBrowser (localStorage b) (sessionStorage b) (cookies b) l (now b)
            (str_gt b).

Definition with_now (t : Z) (b : Browser) : Browser :=
  mkBrowser (localStorage b) (sessionStorage b) (cookies b) (MOCK_USERS b) t
            (str_gt b).

(** [document.cookie = "n=v; path=p; ..."], [expires] being the time the
    cookie ends: it takes the place of the cookie of that name and path. *)
Definition assign_cookie (n v p : string) (expires : Browser -> Z)
  : M Browser unit :=
  modify (fun b =>
            with_cookies
              (fun l =>
                 filter (fun c => negb (String.eqb (ck_name c) n
                                        && String.eqb (ck_path c) p)) l
                 ++ [mkCookie n v p (expires b)])%list b).

(** [max-age=s]. *)
Definition max_age (s : Z) (b : Browser) : Z := now b + s * 1000.

(** [expires=Thu, 01 Jan 1970 00:00:00 GMT]. *)
Definition epoch (b : Browser) : Z := 0.

(** [document.cookie], read: the cookies that have not ended. *)
Definition document_cookie (b : Browser) : string :=
  String.concat "; "
    (map (fun c => ck_name c ++ "=" ++ ck_value c)
         (filter (fun c => now b <? ck_expires c) (cookies b))).

(** [document.cookie = "mock_auth_active=; path=/; expires=Thu, 01 Jan 1970
    00:00:00 GMT; SameSite=Strict"]. *)
Definition clear_cookie : M Browser unit :=
  assign_cookie "mock_auth_active" "" "/" epoch.

(** [await new Promise((resolve) => setTimeout(resolve, ms))]. *)
Definition sleep (ms : Z) : M Browser unit :=
  modify (fun b => with_now (now b + ms) b).

Definition Date_now : M Browser Z := gets now.

Definition local_getItem (k : string) : M Browser (option Body) :=
  gets (fun b => getItem k (localStorage b)).

Definition session_getItem (k : string) : M Browser (option Body) :=
  gets (fun b => getItem k (sessionStorage b)).

Definition local_setItem (k : string) (v : Body) : M Browser unit :=
  modify (with_local (setItem k v)).

Definition session_setItem (k : string) (v : Body) : M Browser unit :=
  modify (with_session (setItem k v)).

Definition local_removeItem (k : string) : M Browser unit :=
  modify (with_local (removeItem k)).

Definition session_removeItem (k : string) : M Browser unit :=
  modify (with_session (removeItem k)).

(** [isMockAuthEnabled()]. *)
Definition isMockAuthEnabled : M Browser bool :=
  v <- local_getItem MOCK_AUTH_ENABLED;;
  ret (match v with
       | Some x => String.eqb (text_of x) "true"
       | None => false
       end).

(** [setMockAuthEnabled(enabled)]. *)
Definition setMockAuthEnabled (enabled : bool) : M Browser unit :=
  local_setItem MOCK_AUTH_ENABLED
    (if enabled then mkBody "true" (Some (Js.JBool true))
     else mkBody "false" (Some (Js.JBool false))).

(** [mockSignIn(email, password)]; it resolves to [{ user, session }]. *)
Definition mockSignIn (email_ password_ : string)
  : M Browser (AuthUser * Session) :=
  sleep 500;;
  users <- gets MOCK_USERS;;
  match find (fun user => String.eqb (email user) email_
                          && String.eqb (password user) password_) users with
  | None => throw (Js.Error "Invalid email or password")
  | Some user =>
      let authUser :=
        mkAuthUser (id user) (email user) (name user)
          ("https://api.dicebear.com/7.x/avataaars/svg?seed=" ++ id user) in
      t1 <- Date_now;;
      t2 <- Date_now;;
      let session := mkSession authUser (t1 + 24 * 60 * 60 * 1000) t2 in
      let sessionJson :=
        stringify (json_of_session (json_of_user authUser)
                     (expires_at session) (created_at session)) in
      local_setItem MOCK_AUTH_KEY (stringify (json_of_user authUser));;
      local_setItem MOCK_AUTH_SESSION sessionJson;;
      session_setItem MOCK_AUTH_KEY (stringify (json_of_user authUser));;
      session_setItem MOCK_AUTH_SESSION sessionJson;;
      assign_cookie "mock_auth_active" "true" "/" (max_age (60 * 60 * 24));;
      ret (authUser, session)
  end.

(** [mockSignUp(email, password, name)]. *)
Definition mockSignUp (email_ password_ name_ : string)
  : M Browser (AuthUser * Session) :=
  sleep 500;;
  users <- gets MOCK_USERS;;
  match find (fun user => String.eqb (email user) email_) users with
  | Some existingUser => throw (Js.Error "User with this email already exists")
  | None =>
      t <- Date_now;;
      let newUser :=
        mkMockUser email_ password_ name_ ("mock-user-" ++ Js.show_int t) in
      modify (fun b => with_users (MOCK_USERS b ++ [newUser])%list b);;
      mockSignIn email_ password_
  end.

(** [resetMockAuth()]. *)
Definition resetMockAuth : M Browser unit :=
  local_removeItem MOCK_AUTH_KEY;;
  local_removeItem MOCK_AUTH_SESSION;;
  session_removeItem MOCK_AUTH_KEY;;
  session_removeItem MOCK_AUTH_SESSION;;
  clear_cookie.

(** [mockSignOut()]. *)
Definition mockSignOut : M Browser unit :=
  sleep 300;;
  local_removeItem MOCK_AUTH_KEY;;
  local_removeItem MOCK_AUTH_SESSION;;
  session_removeItem MOCK_AUTH_KEY;;
  session_removeItem MOCK_AUTH_SESSION;;
  clear_cookie.

(** [session.expires_at > Date.now()] for a parsed value: the numbers are
    compared; [true] counts as 1, [null] as 0; a string, and an array or an
    object through its string, is compared as the platform reads it. *)
Definition gt_now (j : Js.json) (t : Z) (b : Browser) : bool :=
  match j with
  | Js.JNum n => t <? n
  | Js.JBool v => t <? (if v then 1 else 0)
  | Js.JNull => t <? 0
  | Js.JStr s => str_gt b s t
  | Js.JArr _ | Js.JObj _ => str_gt b (Js.to_text j) t
  end.

(** The first part of [mockGetCurrentUser], lines 130-151: [Some v] when
    it returns [v], [None] when the function goes on. *)
Definition session_check : M Browser (option Js.value) :=
  a <- local_getItem MOCK_AUTH_SESSION;;
  c <- session_getItem MOCK_AUTH_SESSION;;
  let sessionJson := or_item a c in
  match sessionJson with
  | Some text =>
      if Js.truthy (text_of text)
      then
        try_catch
          (session <- lift (parse text);;
           expires <- lift (get_member session "expires_at");;
           t <- Date_now;;
           valid <- gets (fun b =>
                            value_truthy expires
                            && match expires with
                               | Some e => gt_now e t b
                               | None => false
                               end);;
           if valid
           then u <- lift (get_member session "user");; ret (Some u)
           else resetMockAuth;; ret (Some (Some Js.JNull)))
          (fun error => ret None)
      else ret None
  | None => ret None
  end.

(** [mockGetCurrentUser()]. *)
Definition mockGetCurrentUser : M Browser Js.value :=
  checked <- session_check;;
  match checked with
  | Some v => ret v
  | None =>
      a <- local_getItem MOCK_AUTH_KEY;;
      c <- session_getItem MOCK_AUTH_KEY;;
      let userJson := or_item a c in
      if negb (item_truthy userJson)
      then
        cookie <- gets document_cookie;;
        (if Js.includes cookie "mock_auth_active=true"
         then clear_cookie else ret tt);;
        ret (Some Js.JNull)
      else
        match userJson with
        | Some text =>
            try_catch
              (user_ <- lift (parse text);;
               t1 <- Date_now;;
               t2 <- Date_now;;
               let session :=
                 stringify (json_of_session user_
                              (t1 + 24 * 60 * 60 * 1000) t2) in
               local_setItem MOCK_AUTH_SESSION session;;
               session_setItem MOCK_AUTH_SESSION session;;
               ret (Some user_))
              (fun error => ret (Some Js.JNull))
        | None => ret (Some Js.JNull)
        end
  end.

End MockAuth.

(** ** What the properties of the mock authentication speak about *)

Module MockAuthProps.

Import Net MockAuth.

(** The four items the module keeps, all absent. *)
Definition signed_out (b : Browser) : Prop :=
  getItem MOCK_AUTH_KEY (localStorage b) = None
  /\ getItem MOCK_AUTH_SESSION (localStorage b) = None
  /\ getItem MOCK_AUTH_KEY (sessionStorage b) = None
  /\ getItem MOCK_AUTH_SESSION (sessionStorage b) = None.

(** The items under other keys than the two of a signed-in user are the
    same in [b] and [b']. *)
Definition same_other_items (b b' : Browser) : Prop :=
  forall k, k <> MOCK_AUTH_KEY -> k <> MOCK_AUTH_SESSION ->
    getItem k (localStorage b') = getItem k (localStorage b)
    /\ getItem k (sessionStorage b') = getItem k (sessionStorage b).

(** A user of [MOCK_USERS] with this email. *)
Definition registered (email_ : string) (b : Browser) : Prop :=
  exists u, In u (MOCK_USERS b) /\ email u = email_.

(** A page: empty storages, no cookie, the array as the module creates
    it, and a platform for which no string is greater than a number. *)
Definition page (t : Z) : Browser :=
  mkBrowser [] [] [] MOCK_USERS_initial t (fun _ _ => false).

End MockAuthProps.

(** ** Facts about the embedding *)

Module Facts.

Import Net ServiceNow Props Samples.

Example btoa_admin : Js.btoa "admin:secret" = "YWRtaW46c2VjcmV0".
Proof. reflexivity. Qed.

Example btoa_pad1 : Js.btoa "u:p" = "dTpw".
Proof. reflexivity. Qed.

Example btoa_pad2 : Js.btoa "ab" = "YWI=".
Proof. reflexivity. Qed.

Example btoa_pad3 : Js.btoa "a" = "YQ==".
Proof. reflexivity. Qed.

Example endsWith_slash :
  Js.endsWith "https://dev12345.service-now.com/" "/" = true
  /\ Js.endsWith "https://dev12345.service-now.com" "/" = false.
Proof. split; reflexivity. Qed.

(** [queryRecords] with its defaults: limit 10, offset 0, no filter. *)
Example query_endpoint_defaults :
  query_endpoint incidents = "table/incident?sysparm_limit=10&sysparm_offset=0".
Proof. reflexivity. Qed.

Example query_endpoint_encoded :
  query_endpoint
    (mkQuery "incident" (Some "active=true^priority=1") (Some 5) None
             (Some ["number"; "short_description"]) (Some "sys_created_on")
             None)
  = "table/incident?sysparm_query=active%3Dtrue%5Epriority%3D1&sysparm_limit=5&sysparm_offset=0&sysparm_fields=number%2Cshort_description&sysparm_order_by=sys_created_on&sysparm_order=desc".
Proof. reflexivity. Qed.

Lemma endsWith_app (s suf : string) : Js.endsWith (s ++ suf) suf = true.
Proof.
  induction s as [|c s IH]; cbn [append Js.endsWith].
  - destruct suf; cbn [Js.endsWith]; rewrite String.eqb_refl; reflexivity.
  - rewrite IH. destruct (String.eqb _ _); reflexivity.
Qed.

Lemma b64_bytes_nonempty (l : list N) : l <> [] -> Js.b64_bytes l <> "".
Proof.
  destruct l as [|a [|b [|c r]]]; simpl; intros H; try discriminate.
  contradiction.
Qed.

Lemma truthy_iff (s : string) : Js.truthy s = true <-> s <> "".
Proof.
  unfold Js.truthy. destruct (String.eqb_spec s ""); simpl; split;
    intros; try congruence; try discriminate.
Qed.

Lemma btoa_truthy (u p : string) : Js.truthy (Js.btoa (u ++ ":" ++ p)) = true.
Proof.
  apply truthy_iff. unfold Js.btoa. apply b64_bytes_nonempty.
  induction u as [|c u IH]; simpl; discriminate.
Qed.

(** *** The order on client states *)

Section Extends.

Variable good : FetchCall -> Prop.

Lemma same_identity_refl t : same_identity t t.
Proof. repeat split. Qed.

Lemma same_identity_trans t1 t2 t3 :
  same_identity t1 t2 -> same_identity t2 t3 -> same_identity t1 t3.
Proof.
  unfold same_identity. intros (a & b & c & d) (a' & b' & c' & d').
  repeat split; congruence.
Qed.

Lemma extends_refl s : extends good s s.
Proof.
  split; [apply same_identity_refl|].
  exists []. rewrite app_nil_r. auto.
Qed.

Lemma extends_trans s1 s2 s3 :
  extends good s1 s2 -> extends good s2 s3 -> extends good s1 s3.
Proof.
  intros [I1 (c1 & L1 & F1)] [I2 (c2 & L2 & F2)].
  split; [eapply same_identity_trans; eauto|].
  exists (c1 ++ c2)%list. split.
  - rewrite L2, L1, app_assoc. reflexivity.
  - apply Forall_app; auto.
Qed.

Lemma extends_set_token s tok expiry :
  extends good s (mkSys (set_token tok expiry (this s)) (world s)).
Proof.
  split; [repeat split|]. exists []. simpl. rewrite app_nil_r. auto.
Qed.

Lemma extends_fetch s url init :
  good (mkCall url init) -> extends good s (snd (fetch url init s)).
Proof.
  intros G. unfold fetch, Net.fetch.
  assert (E : forall d rest o,
             extends good s
               (snd (let (o', w) := (o : outcome Response,
                                     elapse d (world s) rest (mkCall url init))
                     in (o', mkSys (this s) w)))).
  { intros. simpl. split; [apply same_identity_refl|].
    exists [mkCall url init]. simpl. auto. }
  destruct (net (world s)) as [|[d r|d|] rest]; [apply E| | |];
    destruct (signal init) as [t|]; try apply E;
    destruct (Z.max 0 d <? t); apply E.
Qed.

End Extends.

(** *** [authenticate] *)

Ltac run_monad :=
  unfold try_catch, bind, gets, ret, throw, lift, modify,
         assign_token, date_now, fetch, Net.fetch; simpl.

Lemma authenticate_cached s :
  token_valid (this s) (now (world s)) = true ->
  authenticate s = (Ret tt, s).
Proof.
  intros H. unfold authenticate. run_monad. rewrite H. reflexivity.
Qed.

Lemma authenticate_effect s :
  let s' := snd (authenticate s) in
  this s' = authenticated_instance s
  /\ log (world s') =
     (log (world s)
      ++ if verifies s then [verification_call (authenticated_instance s)]
         else [])%list
  /\ (List.length (net (world s')) <= List.length (net (world s)))%nat.
Proof.
  unfold authenticate, authenticated_instance, verifies. run_monad.
  destruct (token_valid (this s) (now (world s))); simpl.
  { rewrite app_nil_r. auto. }
  destruct (Js.truthy (username (this s))); simpl;
    [|rewrite app_nil_r; auto].
  destruct (Js.truthy (password (this s))); simpl;
    [|rewrite app_nil_r; auto].
  destruct (net (world s)) as [|[d r|d|] rest]; simpl; auto.
  destruct (ok r); simpl; auto.
  destruct (text r) as [[t|e|] r']; simpl; auto.
Qed.

Lemma authenticated_instance_identity s :
  same_identity (this s) (authenticated_instance s).
Proof.
  unfold authenticated_instance.
  repeat match goal with |- context [if ?b then _ else _] => destruct b end;
    repeat split.
Qed.

Lemma authenticate_keeps : keeps authenticate.
Proof.
  intros s. destruct (authenticate_effect s) as (T & L & _).
  pose proof (authenticated_instance_identity s) as I.
  split; [rewrite T; exact I|].
  eexists. split; [exact L|].
  destruct (verifies s); constructor; [|constructor].
  split; [|reflexivity]. simpl.
  destruct I as (B & _). rewrite B. eexists. reflexivity.
Qed.

(** *** [request] *)

(** What the [if (!response.ok)] block throws: the structured error of
    line 171 is caught at line 172, and [text()] is then asked of a body
    that [json()] has read. *)
Lemma reject_spec r :
  reject r =
  match body r with
  | Some _ => Throw (Js.TypeError "body stream already read")
  | None =>
      Throw (Js.Thrown (status r)
               (Js.or_else (statusText r)
                  ("Request failed with status " ++ Js.show_int (status r)))
               None)
  end.
Proof.
  unfold reject, reject_block, on_response, assign_errorMessage.
  run_monad. unfold json, text.
  destruct (body r) as [b|] eqn:B; simpl; [|rewrite B; reflexivity].
  destruct (bodyUsed r) eqn:U; simpl.
  - rewrite B, U. reflexivity.
  - destruct (parsed b) as [j|]; simpl; [|rewrite B; reflexivity].
    destruct j; simpl; rewrite ?B; try reflexivity;
      destruct (Js.json_truthy _); simpl; rewrite B; reflexivity.
Qed.

Lemma dispatch_effect url options hdrs s :
  let c := mkCall url (mkInit (method options) hdrs (req_body options)
                              (signal options)) in
  let r := dispatch url options hdrs s in
  this (snd r) = this s
  /\ log (world (snd r)) = (log (world s) ++ [c])%list
  /\ (List.length (net (world (snd r))) <= List.length (net (world s)))%nat
  /\ (forall e st, fst r = Throw e -> Js.exn_status e = Some st ->
       (List.length (net (world (snd r))) < List.length (net (world s)))%nat).
Proof.
  unfold dispatch. run_monad.
  destruct (net (world s)) as [|[d r|d|] rest]; simpl;
    [| destruct (signal options) as [t|]; simpl;
       [destruct (Z.max 0 d <? t); simpl|];
       try (destruct (ok r); simpl)
     | destruct (signal options) as [t|]; simpl;
       [destruct (Z.max 0 d <? t); simpl|]
     | destruct (signal options) as [t|]; simpl ];
    repeat split; auto;
    try (intros e st [= <-]; discriminate);
    try (intros e st; discriminate);
    intros; lia.
Qed.

(** One round of [request]. *)
Lemma request_fuel_step fuel endpoint options s :
  request_fuel (S fuel) endpoint options s =
  match authenticate s with
  | (Ret _, s1) =>
      match dispatch (request_url (this s1) endpoint) options
                     (request_headers (this s1) options) s1 with
      | (Ret j, s2) => (Ret j, s2)
      | (Throw error, s2) =>
          if status_is error 401
          then request_fuel fuel endpoint options (cleared s2)
          else (Throw error, s2)
      | (Hang, s2) => (Hang, s2)
      end
  | (Throw error, s1) => (Throw error, s1)
  | (Hang, s1) => (Hang, s1)
  end.
Proof.
  cbn [request_fuel]. unfold bind, gets, try_catch, assign_token, modify, throw.
  destruct (authenticate s) as [[[]|e|] s1]; simpl; try reflexivity.
  destruct (dispatch _ _ _ s1) as [[j|e|] s2]; simpl; try reflexivity.
  destruct (status_is e 401); reflexivity.
Qed.

(** The fuel of [request] is enough: more of it changes nothing. *)
Lemma request_fuel_enough fuel1 : forall fuel2 endpoint options s,
  (List.length (net (world s)) < fuel1)%nat ->
  (List.length (net (world s)) < fuel2)%nat ->
  request_fuel fuel1 endpoint options s = request_fuel fuel2 endpoint options s.
Proof.
  induction fuel1 as [|f1 IH]; intros [|f2] endpoint options s H1 H2;
    try lia.
  rewrite !request_fuel_step.
  destruct (authenticate_effect s) as (_ & _ & N).
  destruct (authenticate s) as [[[]|e|] s1]; simpl in N; try reflexivity.
  pose proof (dispatch_effect (request_url (this s1) endpoint) options
                (request_headers (this s1) options) s1) as (_ & _ & _ & D).
  destruct (dispatch _ _ _ s1) as [[j|e|] s2]; simpl in *; try reflexivity.
  unfold status_is. destruct (Js.exn_status e) as [st|] eqn:E; [|reflexivity].
  specialize (D e st eq_refl E).
  destruct (st =? 401); [|reflexivity].
  apply IH; simpl; lia.
Qed.

Lemma request_unfold endpoint options s :
  request endpoint options s =
  match authenticate s with
  | (Ret _, s1) =>
      match dispatch (request_url (this s1) endpoint) options
                     (request_headers (this s1) options) s1 with
      | (Ret j, s2) => (Ret j, s2)
      | (Throw error, s2) =>
          if status_is error 401
          then request endpoint options (cleared s2)
          else (Throw error, s2)
      | (Hang, s2) => (Hang, s2)
      end
  | (Throw error, s1) => (Throw error, s1)
  | (Hang, s1) => (Hang, s1)
  end.
Proof.
  unfold request at 1. rewrite request_fuel_step.
  destruct (authenticate_effect s) as (_ & _ & N).
  destruct (authenticate s) as [[[]|e|] s1]; simpl in N; try reflexivity.
  pose proof (dispatch_effect (request_url (this s1) endpoint) options
                (request_headers (this s1) options) s1) as (_ & _ & _ & D).
  destruct (dispatch _ _ _ s1) as [[j|e|] s2]; simpl in *; try reflexivity.
  unfold status_is. destruct (Js.exn_status e) as [st|] eqn:E; [|reflexivity].
  specialize (D e st eq_refl E).
  destruct (st =? 401); [|reflexivity].
  unfold request. apply request_fuel_enough; simpl; lia.
Qed.

(** The client keeps to its base URL and attaches no signal. *)
Lemma request_fuel_keeps fuel : forall endpoint options,
  Js.startsWith endpoint "http" = false ->
  signal options = None ->
  keeps (request_fuel fuel endpoint options).
Proof.
  induction fuel as [|fuel IH]; intros endpoint options R O s.
  { simpl. apply extends_refl. }
  rewrite request_fuel_step.
  pose proof (authenticate_keeps s) as A.
  destruct (authenticate s) as [[[]|e|] s1]; simpl in A; try exact A.
  assert (B : baseUrl (this s1) = baseUrl (this s)) by apply A.
  pose proof (dispatch_effect (request_url (this s1) endpoint) options
                (request_headers (this s1) options) s1) as (T & L & _).
  assert (D : extends (client_call (baseUrl (this s))) s1
                (snd (dispatch (request_url (this s1) endpoint) options
                        (request_headers (this s1) options) s1))).
  { split; [rewrite T; apply same_identity_refl|].
    eexists. split; [exact L|]. constructor; [|constructor].
    split; [|exact O]. simpl. unfold request_url. rewrite R, B.
    eexists. reflexivity. }
  destruct (dispatch _ _ _ s1) as [[j|e|] s2]; simpl in D;
    try (eapply extends_trans; eassumption).
  destruct (status_is e 401); [|eapply extends_trans; eassumption].
  eapply extends_trans; [eassumption|].
  eapply extends_trans; [eassumption|].
  eapply extends_trans; [apply (extends_set_token _ s2 None 0)|].
  specialize (IH endpoint options R O (cleared s2)).
  replace (baseUrl (this (cleared s2))) with (baseUrl (this s)) in IH;
    [exact IH|].
  simpl. destruct D as ((B2 & _) & _). congruence.
Qed.

Lemma request_fuel_same_identity fuel : forall endpoint options s,
  same_identity (this s) (this (snd (request_fuel fuel endpoint options s))).
Proof.
  induction fuel as [|fuel IH]; intros endpoint options s.
  { simpl. apply same_identity_refl. }
  rewrite request_fuel_step.
  pose proof (authenticate_keeps s) as (A & _).
  destruct (authenticate s) as [[[]|e|] s1]; simpl in A; try exact A.
  pose proof (dispatch_effect (request_url (this s1) endpoint) options
                (request_headers (this s1) options) s1) as (T & _).
  destruct (dispatch _ _ _ s1) as [[j|e|] s2]; simpl in T |- *;
    try (rewrite T; exact A).
  destruct (status_is e 401); [|simpl; rewrite T; exact A].
  eapply same_identity_trans; [exact A|].
  eapply same_identity_trans; [|apply IH].
  unfold cleared. simpl. rewrite T. repeat split.
Qed.

Lemma request_same_identity endpoint options s :
  same_identity (this s) (this (snd (request endpoint options s))).
Proof. unfold request. apply request_fuel_same_identity. Qed.

Lemma request_keeps endpoint options :
  Js.startsWith endpoint "http" = false ->
  signal options = None ->
  keeps (request endpoint options).
Proof.
  intros R O s. unfold request. apply request_fuel_keeps; assumption.
Qed.

Lemma keeps_bind {A B} (m : M Sys A) (k : A -> M Sys B) :
  keeps m -> (forall a, keeps (k a)) -> keeps (bind m k).
Proof.
  intros Hm Hk s. unfold bind. specialize (Hm s).
  destruct (m s) as [[a|e|] s1]; simpl in Hm; try exact Hm.
  specialize (Hk a s1).
  replace (baseUrl (this s1)) with (baseUrl (this s)) in Hk
    by (symmetry; apply Hm).
  eapply extends_trans; eassumption.
Qed.

Lemma keeps_try_catch {A} (m : M Sys A) (h : Js.exn -> M Sys A) :
  keeps m -> (forall e, keeps (h e)) -> keeps (try_catch m h).
Proof.
  intros Hm Hh s. unfold try_catch. specialize (Hm s).
  destruct (m s) as [[a|e|] s1]; simpl in Hm; try exact Hm.
  specialize (Hh e s1).
  replace (baseUrl (this s1)) with (baseUrl (this s)) in Hh
    by (symmetry; apply Hm).
  eapply extends_trans; eassumption.
Qed.

Lemma keeps_pure {A} (o : outcome A) : keeps (lift o).
Proof. intros s. apply extends_refl. Qed.

Lemma keeps_ret {A} (a : A) : keeps (ret a).
Proof. intros s. apply extends_refl. Qed.

Lemma keeps_throw {A} (e : Js.exn) : keeps (@throw Sys A e).
Proof. intros s. apply extends_refl. Qed.

Create HintDb keeps.

#[local] Hint Resolve keeps_pure keeps_ret keeps_throw authenticate_keeps
  : keeps.

Lemma table_endpoint_relative rest :
  Js.startsWith ("table/" ++ rest) "http" = false.
Proof. reflexivity. Qed.

Lemma query_endpoint_relative options :
  Js.startsWith (query_endpoint options) "http" = false.
Proof.
  unfold query_endpoint.
  match goal with |- context [if ?b then _ else _] => destruct b end;
    reflexivity.
Qed.

Lemma record_endpoint_relative tbl sysId flds :
  Js.startsWith (record_endpoint tbl sysId flds) "http" = false.
Proof.
  unfold record_endpoint. destruct (0 <? _)%nat; reflexivity.
Qed.

(** Every public operation keeps the identity fields, calls only URLs
    under [baseUrl ++ "api/now/v2/"], and attaches no abort signal. *)
Lemma perform_keeps op : keeps (perform op).
Proof.
  destruct op; simpl;
    unfold queryRecords, getRecord, createRecord, updateRecord, deleteRecord,
           executeScript, testConnection, result_of;
    repeat first
      [ apply authenticate_keeps
      | apply keeps_try_catch; [|intros; auto with keeps]
      | apply keeps_bind; [|intros; auto with keeps]
      | apply request_keeps; [|reflexivity]
      | apply query_endpoint_relative
      | apply record_endpoint_relative
      | reflexivity
      | solve [auto with keeps] ].
Qed.

End Facts.

(** ** The ServiceNow API client *)

Module ClientTheorems.

Import Net ServiceNow Props Samples Facts.

(** C10. The constructor makes [baseUrl] end with a slash, appending one
    only when [instance_url] lacks it, and copies [username], [password]
    and [credentialId] from the credential; every public operation, and
    [authenticate] and [request] themselves, leave these four fields as
    they were, so that only [accessToken] and [tokenExpiry] change; every
    URL the operations fetch, and the URL [request] builds for an endpoint
    that does not start with [http], is
    [baseUrl ++ "api/now/v2/" ++ endpoint]. *)
Theorem identity_fields_fixed_urls_under_base :
  forall (c : ServiceNowCredential) (op : Operation) (s : Sys)
         (endpoint : string),
    Js.endsWith (baseUrl (new c)) "/" = true
    /\ baseUrl (new c) = (if Js.endsWith (instance_url c) "/"
                          then instance_url c else instance_url c ++ "/")
    /\ username (new c) = cred_username c
    /\ password (new c) = cred_password c
    /\ credentialId (new c) = ServiceNow.id c
    /\ same_identity (this s) (this (snd (perform op s)))
    /\ same_identity (this s) (this (snd (authenticate s)))
    /\ (forall options,
          same_identity (this s) (this (snd (request endpoint options s))))
    /\ (exists calls,
          log (world (snd (perform op s))) = (log (world s) ++ calls)%list
          /\ Forall (fun call => exists e,
                       call_url call = baseUrl (this s) ++ "api/now/v2/" ++ e)
                    calls)
    /\ request_url (this s) endpoint =
       (if Js.startsWith endpoint "http" then endpoint
        else baseUrl (this s) ++ "api/now/v2/" ++ endpoint).
Proof.
  intros c op s endpoint.
  split.
  { simpl. destruct (Js.endsWith (instance_url c) "/") eqn:E;
      [exact E|apply endsWith_app]. }
  do 4 (split; [reflexivity|]).
  destruct (perform_keeps op s) as (I & calls & L & F).
  split; [exact I|].
  split; [apply authenticate_keeps|].
  split; [intros options; apply request_same_identity|].
  split; [|reflexivity].
  exists calls. split; [exact L|].
  eapply Forall_impl; [|exact F]. intros call (U & _). exact U.
Qed.

(** C4. For a client whose username and password are not empty, after a
    first [authenticate], a second one made while the time is still before
    the recorded expiry returns at once: the instance, the network and the
    log of calls are as before it, so that both calls together made at
    most one call, the verification request of the first. *)
Theorem authenticate_twice_verifies_once :
  forall (s : Sys) (t : Z),
    username (this s) <> "" ->
    password (this s) <> "" ->
    let s1 := snd (authenticate s) in
    let s1' := mkSys (this s1)
                     (mkWorld t (net (world s1)) (log (world s1))) in
    t < tokenExpiry (this s1) ->
    authenticate s1' = (Ret tt, s1')
    /\ exists calls,
         log (world (snd (authenticate s1')))
         = (log (world s) ++ calls)%list
         /\ (List.length calls <= 1)%nat
         /\ forallb is_verification calls = true.
Proof.
  intros s t Hu Hp s1 s1' Ht.
  destruct (authenticate_effect s) as (T & L & _).
  fold s1 in T, L.
  apply truthy_iff in Hu. apply truthy_iff in Hp.
  assert (V : token_valid (this s1') (now (world s1')) = true).
  { unfold s1'. cbn [this world now]. rewrite T in *.
    unfold authenticated_instance in *.
    destruct (token_valid (this s) (now (world s))) eqn:V0.
    - unfold token_valid in *.
      destruct (accessToken (this s)) as [tok|]; [|discriminate].
      apply andb_true_iff in V0. destruct V0 as (V0 & _). rewrite V0.
      apply Z.ltb_lt in Ht. rewrite Ht. reflexivity.
    - rewrite Hu, Hp in *. cbn [negb orb] in *.
      unfold token_valid, set_token in *. cbn [accessToken tokenExpiry] in *.
      rewrite btoa_truthy. apply Z.ltb_lt in Ht. rewrite Ht. reflexivity. }
  rewrite (authenticate_cached s1' V). split; [reflexivity|].
  cbn [snd world log]. eexists. split; [exact L|].
  destruct (verifies _); cbn [List.length forallb]; [|auto].
  split; [lia|].
  unfold is_verification, verification_call. cbn [call_url call_init method].
  rewrite endsWith_app. reflexivity.
Qed.

Lemma authenticate_twice_verifies_once_witness :
  username (new credential) <> "" /\ password (new credential) <> ""
  /\ 2000 < tokenExpiry
              (this (snd (authenticate (fresh [Responds 40 users_page]))))
  /\ authenticate
       (mkSys (this (snd (authenticate (fresh [Responds 40 users_page]))))
              (mkWorld 2000 []
                 [verification_call
                    (this (snd (authenticate
                                  (fresh [Responds 40 users_page]))))]))
     = (Ret tt,
        mkSys (this (snd (authenticate (fresh [Responds 40 users_page]))))
              (mkWorld 2000 []
                 [verification_call
                    (this (snd (authenticate
                                  (fresh [Responds 40 users_page]))))])).
Proof.
  assert (Hu : username (this (fresh [Responds 40 users_page])) <> "")
    by discriminate.
  assert (Hp : password (this (fresh [Responds 40 users_page])) <> "")
    by discriminate.
  assert (Ht : 2000 < tokenExpiry
                 (this (snd (authenticate (fresh [Responds 40 users_page])))))
    by (vm_compute; reflexivity).
  split; [exact Hu|]. split; [exact Hp|]. split; [exact Ht|].
  exact (proj1 (authenticate_twice_verifies_once
                  (fresh [Responds 40 users_page]) 2000 Hu Hp Ht)).
Defined.

(** C2, on the input where the code departs from it: the verification
    request is answered with 401.  [authenticate] throws, but the token and
    the expiry it set before the request stay in the instance, and the next
    [authenticate] returns at once without a verification request. *)
Theorem failed_verification_keeps_token :
  let r := authenticate (fresh [Responds 40 unauthorized]) in
  fst r = Throw (Js.Error
            ("Failed to authenticate with ServiceNow: Basic auth test failed: 401 "
             ++ render (Js.JObj
                  [("error",
                    Js.JObj [("message", Js.JStr "User Not Authenticated");
                             ("detail",
                              Js.JStr "Required to provide Auth information")]);
                   ("status", Js.JStr "failure")])))
  /\ accessToken (this (snd r)) = Some "YWRtaW46c2VjcmV0"
  /\ tokenExpiry (this (snd r)) = 3601000
  /\ now (world (snd r)) = 1040
  /\ authenticate (snd r) = (Ret tt, snd r).
Proof. vm_compute. repeat split. Qed.

(** The same for every client and every verification response that is
    not ok: the token and the expiry set before the request stay. *)
Lemma verification_failure_leaves_token t w d r rest :
  token_valid t (now w) = false ->
  Js.truthy (username t) = true ->
  Js.truthy (password t) = true ->
  net w = Responds d r :: rest ->
  ok r = false ->
  let s' := snd (authenticate (mkSys t w)) in
  (exists message, fst (authenticate (mkSys t w)) = Throw (Js.Error message))
  /\ accessToken (this s')
     = Some (Js.btoa (username t ++ ":" ++ password t))
  /\ tokenExpiry (this s') = now w + 3600000.
Proof.
  intros V U P N O. unfold authenticate. run_monad.
  rewrite V. simpl. rewrite U, P. simpl. rewrite N. simpl.
  rewrite O. simpl. unfold text.
  destruct (body r) as [b|]; [destruct (bodyUsed r)|]; simpl; eauto.
Qed.

(** C3, on the input where the code departs from it: a 404 whose body is
    the JSON error document of the instance.  The structured error is
    thrown inside the [try] whose [catch] then reads the body a second
    time; what reaches the caller of [request] is the [TypeError] of that
    second read, with no status, message or detail of the response. *)
Theorem structured_error_is_lost :
  reject not_found = Throw (Js.TypeError "body stream already read")
  /\ fst (request "table/incident/0c5f" no_init
            (fresh [Responds 40 users_page; Responds 30 not_found]))
     = Throw (Js.TypeError "body stream already read")
  /\ fst (getRecord "incident" "0c5f" []
            (fresh [Responds 40 users_page; Responds 30 not_found]))
     = Throw (Js.Error
                "Failed to get incident record: body stream already read").
Proof. vm_compute. repeat split. Qed.

(** C5, on the input where the code departs from it: the script request is
    the one POST of the call and its result member is returned, but
    [request] puts the endpoint [v1/script/execute] behind [api/now/v2/]. *)
Theorem executeScript_posts_under_v2 :
  let r := executeScript "gs.info(1)"
             (fresh [Responds 40 users_page; Responds 30 script_done]) in
  fst r = Ret (Some (Js.JStr "done"))
  /\ with_method "POST" (log (world (snd r))) =
     [mkCall "https://dev12345.service-now.com/api/now/v2/v1/script/execute"
        (mkInit (Some "POST")
           [("Accept", "application/json");
            ("Content-Type", "application/json");
            ("Authorization", "Basic YWRtaW46c2VjcmV0")]
           (Some (Js.JObj [("script", Js.JStr "gs.info(1)")]))
           None)]
  /\ "https://dev12345.service-now.com/api/now/v2/v1/script/execute"
     <> "https://dev12345.service-now.com/api/now/v1/script/execute".
Proof. vm_compute. repeat split. discriminate. Qed.

(** The URL of the script request, for every client. *)
Remark executeScript_url t :
  request_url t "v1/script/execute"
  = baseUrl t ++ "api/now/v2/v1/script/execute".
Proof. reflexivity. Qed.

(** An operation other than [testConnection] is its [request] followed by
    a step that does not look at the state. *)
Lemma perform_through_request op s s' :
  op <> TestConnection ->
  request (fst (request_of op)) (snd (request_of op)) s
  = request (fst (request_of op)) (snd (request_of op)) s' ->
  perform op s = perform op s'.
Proof.
  intros N R.
  destruct op; try congruence; cbn [request_of fst snd perform] in *;
    unfold queryRecords, getRecord, createRecord, updateRecord, deleteRecord,
           executeScript, try_catch, bind;
    rewrite R; reflexivity.
Qed.

Lemma authenticate_verified t w d r rest :
  token_valid t (now w) = false ->
  Js.truthy (username t) = true ->
  Js.truthy (password t) = true ->
  net w = Responds d r :: rest ->
  ok r = true ->
  let t' := set_token (Some (Js.btoa (username t ++ ":" ++ password t)))
                      (now w + 3600000) t in
  authenticate (mkSys t w)
  = (Ret tt, mkSys t' (elapse d w rest (verification_call t'))).
Proof.
  intros V U P N O. unfold authenticate. run_monad.
  rewrite V. simpl. rewrite U, P. simpl. rewrite N. simpl.
  rewrite O. reflexivity.
Qed.

Lemma dispatch_bare_401 url options hdrs t w d stText rest :
  signal options = None ->
  net w = Responds d (bare_response 401 stText) :: rest ->
  exists error,
    Js.exn_status error = Some 401
    /\ dispatch url options hdrs (mkSys t w)
       = (Throw error,
          mkSys t (elapse d w rest
                     (mkCall url (mkInit (method options) hdrs
                                         (req_body options) None)))).
Proof.
  intros S N. unfold dispatch. run_monad. rewrite N, S. simpl.
  eexists. split; [|reflexivity]. reflexivity.
Qed.

(** No number of 401 answers ends the retrying: after [n] of them, with
    re-authentication passing each time, the request is sent once more. *)
Lemma retried_after_any_number_of_401 endpoint options n :
  signal options = None ->
  forall t time calls,
    accessToken t = None ->
    Js.truthy (username t) = true ->
    Js.truthy (password t) = true ->
    let r := request endpoint options
               (mkSys t (mkWorld time
                           (rounds n [Responds 40 users_page;
                                      Responds 30 script_done])
                           calls)) in
    fst r = Ret (Js.JObj [("result", Js.JStr "done")])
    /\ List.length (log (world (snd r)))
       = (List.length calls + 2 * n + 2)%nat.
Proof.
  intros S. induction n as [|n IH]; intros t time calls T U P r; subst r.
  - rewrite request_unfold. cbn [rounds].
    rewrite (authenticate_verified t _ 40 users_page
               [Responds 30 script_done]); auto;
      [|unfold token_valid; rewrite T; reflexivity].
    unfold dispatch. run_monad. rewrite S. simpl.
    rewrite !length_app. simpl. split; [reflexivity|lia].
  - rewrite request_unfold. cbn [rounds].
    rewrite (authenticate_verified t _ 40 users_page
               (Responds 30 (bare_response 401 "Unauthorized")
                :: rounds n [Responds 40 users_page;
                             Responds 30 script_done])); auto;
      [|unfold token_valid; rewrite T; reflexivity].
    cbv zeta.
    edestruct (dispatch_bare_401) as (error & E & D);
      [exact S| |rewrite D]; [reflexivity|].
    unfold status_is. rewrite E. cbn [Z.eqb Pos.eqb].
    unfold cleared. cbn [this world].
    match goal with
    | |- context [request endpoint options (mkSys ?t' (elapse ?d ?w ?rest ?c))] =>
        specialize (IH t' (now (elapse d w rest c)) (log (elapse d w rest c)))
    end.
    cbn [set_token accessToken username password] in IH.
    specialize (IH eq_refl U P). cbv zeta in IH.
    destruct IH as (R & L). split; [exact R|].
    etransitivity; [exact L|].
    cbn [elapse log]. rewrite !length_app. simpl. lia.
Qed.

(** The retry of lines 185-190 keeps no count of the attempts: with the
    script request answered by a 401 without a body twice and then by 200,
    the second 401 is not thrown to the caller; the request is sent a third
    time and the call returns its result. *)
Lemma retry_goes_beyond_second_401 :
  let r := executeScript "gs.info(1)"
             (fresh (rounds 2 [Responds 40 users_page;
                               Responds 30 script_done])) in
  fst r = Ret (Some (Js.JStr "done"))
  /\ List.length (with_method "POST" (log (world (snd r)))) = 3%nat
  /\ List.length (with_method "GET" (log (world (snd r)))) = 3%nat.
Proof. vm_compute. repeat split. Qed.

(** What the [catch] of lines 185-190 does with an error that carries the
    status 401, the error that [reject] throws for a 401 without a body:
    the token and the expiry are cleared and [request] is run again from
    its start, re-authentication included.  This holds for [request] and
    for every public operation that is a single [request]. *)
Lemma request_retries_on_every_401 :
  forall (op : Operation) (endpoint : string) (options : RequestInit)
         (s s1 s2 : Sys) (error : Js.exn),
    authenticate s = (Ret tt, s1) ->
    dispatch (request_url (this s1) endpoint) options
             (request_headers (this s1) options) s1 = (Throw error, s2) ->
    Js.exn_status error = Some 401 ->
    accessToken (this (cleared s2)) = None
    /\ tokenExpiry (this (cleared s2)) = 0
    /\ request endpoint options s = request endpoint options (cleared s2)
    /\ (op <> TestConnection -> request_of op = (endpoint, options) ->
        perform op s = perform op (cleared s2)).
Proof.
  intros op endpoint options s s1 s2 error A D E.
  assert (R : request endpoint options s
              = request endpoint options (cleared s2)).
  { rewrite (request_unfold endpoint options s), A, D.
    unfold status_is. rewrite E. reflexivity. }
  repeat split; try exact R.
  intros N Q. apply perform_through_request; [exact N|].
  rewrite Q. exact R.
Qed.

Lemma request_retries_on_every_401_witness :
  let s := fresh [Responds 40 users_page;
                  Responds 30 (bare_response 401 "Unauthorized");
                  Responds 40 users_page; Responds 30 script_done] in
  let s1 := snd (authenticate s) in
  let s2 := snd (dispatch (request_url (this s1) "v1/script/execute")
                   (snd (request_of (ExecuteScript "gs.info(1)")))
                   (request_headers (this s1)
                      (snd (request_of (ExecuteScript "gs.info(1)")))) s1) in
  perform (ExecuteScript "gs.info(1)") s
  = perform (ExecuteScript "gs.info(1)") (cleared s2).
Proof.
  intros s s1 s2.
  refine (proj2 (proj2 (proj2
    (request_retries_on_every_401 (ExecuteScript "gs.info(1)")
       "v1/script/execute"
       (snd (request_of (ExecuteScript "gs.info(1)")))
       s s1 s2 (Js.Thrown 401 "Unauthorized" None) _ _ _))) _ _).
  - vm_compute. reflexivity.
  - vm_compute. reflexivity.
  - reflexivity.
  - discriminate.
  - reflexivity.
Defined.

(** A 401 that comes with a body never reaches that retry: [request]
    makes the one call, throws the [TypeError] of the second reading of
    the body, which carries no status, and leaves the token, the expiry
    and the rest of the network as they were. *)
Lemma unauthorized_with_body_not_retried endpoint options s d r rest b :
  token_valid (this s) (now (world s)) = true ->
  net (world s) = Responds d r :: rest ->
  status r = 401 ->
  body r = Some b ->
  signal options = None ->
  request endpoint options s
  = (Throw (Js.TypeError "body stream already read"),
     mkSys (this s)
           (elapse d (world s) rest
              (mkCall (request_url (this s) endpoint)
                 (mkInit (method options) (request_headers (this s) options)
                         (req_body options) None)))).
Proof.
  intros V N St B S. rewrite request_unfold, (authenticate_cached s V).
  unfold dispatch. run_monad. rewrite N, S. simpl.
  assert (O : ok r = false) by (unfold ok; rewrite St; reflexivity).
  rewrite O. simpl. rewrite reject_spec, B. reflexivity.
Qed.

(** C1, on the input where the code departs from it: the script request is
    answered with 401 and the JSON error document of the instance, and the
    network would answer a second attempt with 200.  The token and the
    expiry are not cleared and nothing is sent again: the verification and
    the one POST are the only calls, the two answers that were waiting are
    not asked for, and the caller gets the error of the second reading of
    the body.  Run again with the token cleared, as the claim has it, the
    operation returns its result. *)
Theorem unauthorized_answer_is_not_retried :
  let s := fresh [Responds 40 users_page; Responds 30 unauthorized;
                  Responds 40 users_page; Responds 30 script_done] in
  let r := executeScript "gs.info(1)" s in
  fst r = Throw (Js.Error
                   "Failed to execute script: body stream already read")
  /\ fst (request "v1/script/execute"
            (snd (request_of (ExecuteScript "gs.info(1)"))) s)
     = Throw (Js.TypeError "body stream already read")
  /\ accessToken (this (snd r)) = Some "YWRtaW46c2VjcmV0"
  /\ tokenExpiry (this (snd r)) = 3601000
  /\ List.length (with_method "GET" (log (world (snd r)))) = 1%nat
  /\ List.length (with_method "POST" (log (world (snd r)))) = 1%nat
  /\ net (world (snd r)) = [Responds 40 users_page; Responds 30 script_done]
  /\ fst (executeScript "gs.info(1)" (cleared (snd r)))
     = Ret (Some (Js.JStr "done")).
Proof. vm_compute. repeat split. Qed.

(** C9, the claim as stated fails: the fetch calls of the ServiceNow
    client carry no abort signal, and a call that the instance never
    answers is never settled, be it the request or the verification. *)
Lemma servicenow_fetch_waits_for_ever :
  let r := queryRecords incidents (fresh [Responds 40 users_page; Silent]) in
  fst r = Hang
  /\ map (fun c => signal (call_init c)) (log (world (snd r))) = [None; None]
  /\ fst (authenticate (fresh [Silent])) = Hang.
Proof. vm_compute. repeat split. Qed.

(** C9, as amended: a call made through the [global.fetch] of the BaaS
    client carries an abort signal scheduled 15000 ms ahead; it is always
    settled, at the latest 15000 ms after it was made, and when the network
    has not settled it before, it is rejected with the abort error at
    exactly that time.  The fetch calls of the public operations of the
    ServiceNow client carry no abort signal. *)
Theorem timeout_on_baas_fetch_only :
  forall (url : string) (options : RequestInit) (w : World)
         (op : Operation) (s : Sys),
    let r := SupabaseConfig.global_fetch url options w in
    fst r <> Hang
    /\ now (snd r) <= now w + 15000
    /\ log (snd r)
       = (log w ++ [mkCall url (mkInit (method options) (headers options)
                                       (req_body options) (Some 15000))])%list
    /\ (if settles_before 15000 (net w)
        then fst r <> Throw Js.AbortError /\ now (snd r) < now w + 15000
        else fst r = Throw Js.AbortError /\ now (snd r) = now w + 15000)
    /\ exists calls,
         log (world (snd (perform op s))) = (log (world s) ++ calls)%list
         /\ Forall (fun c => signal (call_init c) = None) calls.
Proof.
  intros url options w op s r. subst r.
  assert (G : fst (SupabaseConfig.global_fetch url options w) <> Hang
    /\ now (snd (SupabaseConfig.global_fetch url options w)) <= now w + 15000
    /\ log (snd (SupabaseConfig.global_fetch url options w))
       = (log w ++ [mkCall url (mkInit (method options) (headers options)
                                       (req_body options) (Some 15000))])%list
    /\ (if settles_before 15000 (net w)
        then fst (SupabaseConfig.global_fetch url options w)
             <> Throw Js.AbortError
             /\ now (snd (SupabaseConfig.global_fetch url options w))
                < now w + 15000
        else fst (SupabaseConfig.global_fetch url options w)
             = Throw Js.AbortError
             /\ now (snd (SupabaseConfig.global_fetch url options w))
                = now w + 15000)).
  { unfold SupabaseConfig.global_fetch, SupabaseConfig.timeout_ms,
           settles_before, try_catch, bind, ret, throw, Net.fetch.
    cbn [signal].
    destruct (net w) as [|[d resp|d|] rest]; cbn [fst snd elapse now log];
      [| destruct (Z.max 0 d <? 15000) eqn:Q; cbn [fst snd elapse now log]
       | destruct (Z.max 0 d <? 15000) eqn:Q; cbn [fst snd elapse now log]
       | ];
      try apply Z.ltb_lt in Q;
      repeat split; try discriminate; try reflexivity; try lia. }
  destruct G as (G1 & G2 & G3 & G4).
  repeat (split; [assumption|]).
  destruct (perform_keeps op s) as (_ & calls & L & F).
  exists calls. split; [exact L|].
  eapply Forall_impl; [|exact F]. intros c (_ & S). exact S.
Qed.

End ClientTheorems.

(** ** The credential store *)

Module CredentialTheorems.

Import ServiceNow Supabase Credentials StoreProps StoreSamples.

Lemma updated_by_refl u r : updated_by u r r.
Proof. unfold updated_by. repeat split; auto. Qed.

Lemma updated_by_apply u r : updated_by u r (apply_updates u r).
Proof.
  unfold updated_by, apply_updates. simpl.
  destruct u as [[n|] [i|] [un|] [p|]]; simpl;
    repeat split; auto; discriminate.
Qed.

Lemma Forall2_same {A} (P : A -> A -> Prop) (l : list A) :
  (forall a, P a a) -> Forall2 P l l.
Proof. intros H. induction l; constructor; auto. Qed.

Lemma Forall2_map_r {A} (P : A -> A -> Prop) (f : A -> A) (l : list A) :
  (forall a, P a (f a)) -> Forall2 P l (map f l).
Proof. intros H. induction l; simpl; constructor; auto. Qed.

(** The rows of [servicenow_credentials] after an update, whatever its
    answer. *)
Lemma update_credential_rows cid uid u st :
  let st' := snd (update_credential cid uid u st) in
  servicenow_credentials st' = servicenow_credentials st
  \/ servicenow_credentials st'
     = map (fun o => if cred_is cid uid o then apply_updates u o else o)
           (servicenow_credentials st).
Proof.
  unfold update_credential, call.
  destruct (faults st) as [|[[c m]|] rest]; simpl; auto;
    match goal with
    | |- context [single ?l] => destruct (single l)
    end; simpl; auto;
    match goal with
    | |- context [existsb ?f ?l] => destruct (existsb f l)
    end; simpl; auto.
Qed.

Lemma update_rows_frame cid uid u st :
  Forall2 (updated_by u)
    (servicenow_credentials st)
    (servicenow_credentials
       (snd (updateServiceNowCredential cid uid u st))).
Proof.
  assert (E : servicenow_credentials
                (snd (updateServiceNowCredential cid uid u st))
              = servicenow_credentials (snd (update_credential cid uid u st))).
  { unfold updateServiceNowCredential, bind, store_error, throw, ret.
    destruct (update_credential cid uid u st) as [[[d|c m]|e|] st'];
      reflexivity. }
  rewrite E.
  destruct (update_credential_rows cid uid u st) as [-> | ->].
  - apply Forall2_same. apply updated_by_refl.
  - apply Forall2_map_r. intros r.
    destruct (cred_is cid uid r);
      [apply updated_by_apply|apply updated_by_refl].
Qed.

(** C8. Whatever [updateServiceNowCredential(id, owner, updates)] answers,
    each stored credential keeps, in every column that [updates] does not
    carry, the value it had, the password among them, and a column whose
    value differs is one that [updates] carries; an update made by
    [handleUpdateCredential] from a form whose password is empty leaves
    every stored password as it was. *)
Theorem update_keeps_absent_fields :
  forall (cid owner : string) (updates : CredentialUpdates) (st : Store)
         (user : option string) (nm url un : string),
    Forall2 (updated_by updates)
      (servicenow_credentials st)
      (servicenow_credentials
         (snd (updateServiceNowCredential cid owner updates st)))
    /\ Forall2 (fun r r' => cred_password r' = cred_password r)
         (servicenow_credentials st)
         (servicenow_credentials
            (snd (handleUpdateCredential user cid
                    (mkForm nm url un "") st))).
Proof.
  intros cid owner updates st user nm url un.
  split; [apply update_rows_frame|].
  destruct user as [userId|]; simpl.
  - unfold try_catch, bind, ret.
    pose proof (update_rows_frame cid userId
                  (mkUpdates (Some nm) (Some url) (Some un) None) st) as F.
    destruct (updateServiceNowCredential _ _ _ st) as [[d|e|] st'];
      simpl in *;
      (eapply Forall2_impl; [|exact F]);
      intros r r' H; apply H; reflexivity.
  - apply Forall2_same. reflexivity.
Qed.

End CredentialTheorems.

(** ** Error paths of the credential store and of chat persistence *)

Module ErrorPathTheorems.

Import ServiceNow Supabase Credentials Chat StoreProps StoreSamples.
Import ErrorProps.

(** *** Computations of the store that do not hang *)

Lemma settles_call {A} (run : Store -> answer A * Store) : settles (call run).
Proof.
  intros st. unfold call.
  destruct (faults st) as [|[[c m]|] rest]; simpl; try discriminate;
    destruct (run _); discriminate.
Qed.

Lemma settles_bind {A B} (m : M Store A) (k : A -> M Store B) :
  settles m -> (forall a, settles (k a)) -> settles (bind m k).
Proof.
  intros Hm Hk st. unfold bind. specialize (Hm st).
  destruct (m st) as [[a|e|] st1]; simpl in *;
    [apply Hk|discriminate|congruence].
Qed.

Lemma settles_ret {A} (a : A) : settles (@ret Store A a).
Proof. intros st. discriminate. Qed.

Lemma settles_throw {A} (e : Js.exn) : settles (@throw Store A e).
Proof. intros st. discriminate. Qed.

Lemma settles_gets {A} (f : Store -> A) : settles (gets f).
Proof. intros st. discriminate. Qed.

Lemma settles_lift {A} (o : outcome A) : o <> Hang -> settles (@lift Store A o).
Proof. intros H st. exact H. Qed.

Lemma settles_try_catch {A} (m : M Store A) (h : Js.exn -> M Store A) :
  settles m -> (forall e, settles (h e)) -> settles (try_catch m h).
Proof.
  intros Hm Hh st. unfold try_catch. specialize (Hm st).
  destruct (m st) as [[a|e|] st1]; simpl in *;
    [discriminate|apply Hh|congruence].
Qed.

Lemma messagesToInsert_settles cid l : messagesToInsert cid l <> Hang.
Proof.
  induction l as [|m l IH]; simpl; [discriminate|].
  destruct (timestamp m); simpl; [|discriminate].
  destruct (messagesToInsert cid l); [discriminate|discriminate|congruence].
Qed.

(** A [try] whose [catch] returns a value returns a value. *)
Lemma guarded_returns {A} (m : M Store A) (sentinel : A) :
  settles m ->
  forall st, exists v, fst (try_catch m (fun _ => ret sentinel) st) = Ret v.
Proof.
  intros Hm st. unfold try_catch, ret. specialize (Hm st).
  destruct (m st) as [[a|e|] st1]; simpl in *; eauto. congruence.
Qed.

Ltac settle :=
  repeat first
    [ apply settles_call
    | apply settles_ret
    | apply settles_throw
    | apply settles_gets
    | apply settles_lift; apply messagesToInsert_settles
    | apply settles_bind; [|intros]
    | apply settles_try_catch; [|intros]
    | match goal with
      | |- settles (match ?x with _ => _ end) => destruct x
      | |- settles (if ?b then _ else _) => destruct b
      end ].

Lemma saveConversation_returns u t ms st :
  exists v, fst (saveConversation u t ms st) = Ret v.
Proof. apply guarded_returns. settle. Qed.

Lemma getConversations_returns u st :
  exists v, fst (getConversations u st) = Ret v.
Proof. apply guarded_returns. settle. Qed.

Lemma getConversationWithMessages_returns c st :
  exists v, fst (getConversationWithMessages c st) = Ret v.
Proof. apply guarded_returns. settle. Qed.

Lemma updateConversationTitle_returns c t st :
  exists v, fst (updateConversationTitle c t st) = Ret v.
Proof. apply guarded_returns. settle. Qed.

Lemma deleteConversation_returns c st :
  exists v, fst (deleteConversation c st) = Ret v.
Proof. apply guarded_returns. settle. Qed.

Lemma getServiceNowClient_returns c u st :
  exists v, fst (getServiceNowClient c u st) = Ret v.
Proof. apply guarded_returns. settle. Qed.

Lemma getAllServiceNowClients_returns u st :
  exists v, fst (getAllServiceNowClients u st) = Ret v.
Proof. apply guarded_returns. settle. Qed.

(** *** [saveServiceNowCredential] *)

(** [catch (error) { throw error; }] changes nothing. *)
Lemma rethrow_same {A} (m : M Store A) st :
  try_catch m (fun error => throw error) st = m st.
Proof.
  unfold try_catch, throw. destruct (m st) as [[a|e|] s']; reflexivity.
Qed.

Lemma single_In {A} (l : list A) (r : A) : single l = Data r -> In r l.
Proof.
  destruct l as [|a [|b l]]; simpl; intros H; try discriminate.
  injection H as ->. auto.
Qed.

Lemma insert_credential_stored uid nm url un pw st row st' :
  insert_credential uid nm url un pw st = (Data row, st') ->
  In row (servicenow_credentials st').
Proof.
  unfold insert_credential.
  destruct (existsb _ _); intros H; [discriminate|].
  injection H as <- <-. simpl. apply in_or_app. right. left. reflexivity.
Qed.

Lemma called {A} (run : Store -> answer A * Store) st :
  (exists c m rest, faults st = Some (c, m) :: rest
                    /\ call run st = (Ret (Failed c m), with_faults rest st))
  \/ (exists st0, (st0 = st \/ exists rest, st0 = with_faults rest st)
                  /\ call run st = (Ret (fst (run st0)), snd (run st0))).
Proof.
  unfold call. destruct (faults st) as [|[[c m]|] rest].
  - right. exists st. split; [auto|]. destruct (run st); reflexivity.
  - left. exists c, m, rest. auto.
  - right. exists (with_faults rest st). split; [eauto|].
    destruct (run _); reflexivity.
Qed.

(** What the last step of [saveServiceNowCredential], the direct insert,
    returns or throws. *)
Lemma direct_insert_result uid nm url un pw st :
  stored_or_thrown
    ((inserted <- insert_credential_single uid nm url un pw;;
      match inserted with
      | Failed c m =>
          (if Js.truthy m && Js.includes m "row-level security policy"
           then
             authData <- getUser;;
             match authData with
             | Some u =>
                 if negb (String.eqb u uid)
                 then throw (Js.Error
  "User ID mismatch: The provided user ID does not match the authenticated user ID")
                 else ret tt
             | None => ret tt
             end
           else ret tt);;
          store_error c m
      | Data data => ret data
      end) st).
Proof.
  unfold stored_or_thrown, insert_credential_single, bind.
  destruct (called (insert_credential uid nm url un pw) st)
    as [(c & m & rest & _ & ->) | (st0 & _ & ->)].
  - destruct (Js.truthy m && Js.includes m "row-level security policy");
      [|simpl; exact I].
    unfold getUser, bind.
    destruct (called (fun s => (Data (auth_uid s), s)) (with_faults rest st))
      as [(c' & m' & rest' & _ & ->) | (st0 & _ & ->)]; simpl; [exact I|].
    destruct (auth_uid st0) as [u|]; simpl; [|exact I].
    destruct (negb (String.eqb u uid)); simpl; exact I.
  - destruct (insert_credential uid nm url un pw st0) as [[row|c m] st1] eqn:E;
      simpl.
    + eapply insert_credential_stored; eassumption.
    + destruct (Js.truthy m && Js.includes m "row-level security policy");
        [|simpl; exact I].
      unfold getUser, bind.
      destruct (called (fun s => (Data (auth_uid s), s)) st1)
        as [(c' & m' & rest' & _ & ->) | (st2 & _ & ->)]; simpl; [exact I|].
      destruct (auth_uid st2) as [u|]; simpl; [|exact I].
      destruct (negb (String.eqb u uid)); simpl; exact I.
Qed.

(** The attempt through the RPC function: it returns, and what it returns
    is a stored row or nothing. *)
Lemma via_rpc_result uid nm url un pw st :
  exists v st',
    try_catch
      (rpc <- rpc_insert_credential uid nm url un pw;;
       match rpc with
       | Failed _ _ => ret None
       | Data rpcData =>
           fetched <- select_credential_by_id rpcData;;
           match fetched with
           | Failed _ _ => ret None
           | Data fetchedData => ret (Some fetchedData)
           end
       end)
      (fun rpcException => ret None) st = (Ret v, st')
    /\ forall row, v = Some row -> In row (servicenow_credentials st').
Proof.
  unfold try_catch, bind, rpc_insert_credential, select_credential_by_id, ret.
  match goal with
  | |- context [call ?run st] =>
      destruct (called run st) as [(c & m & rest & _ & ->) | (st0 & _ & ->)]
  end.
  { do 2 eexists. split; [reflexivity|]. discriminate. }
  destruct (insert_credential uid nm url un pw st0) as [[row|c m] st1];
    cbn [fst snd];
    [|do 2 eexists; split; [reflexivity|discriminate]].
  match goal with
  | |- context [call ?run st1] =>
      destruct (called run st1) as [(c & m & rest & _ & ->) | (st2 & _ & ->)]
  end.
  { do 2 eexists. split; [reflexivity|]. discriminate. }
  cbn [fst snd].
  destruct (single _) as [found|c m] eqn:S;
    [|do 2 eexists; split; [reflexivity|discriminate]].
  do 2 eexists. split; [reflexivity|].
  intros r [= <-]. apply single_In in S. apply filter_In in S. apply S.
Qed.

(** [saveServiceNowCredential] returns a stored row or throws. *)
Lemma saveServiceNowCredential_result uid nm url un pw st :
  stored_or_thrown (saveServiceNowCredential uid nm url un pw st).
Proof.
  assert (K : forall st1,
    stored_or_thrown
      ((viaRpc <-
          try_catch
            (rpc <- rpc_insert_credential uid nm url un pw;;
             match rpc with
             | Failed _ _ => ret None
             | Data rpcData =>
                 fetched <- select_credential_by_id rpcData;;
                 match fetched with
                 | Failed _ _ => ret None
                 | Data fetchedData => ret (Some fetchedData)
                 end
             end)
            (fun rpcException => ret None);;
        match viaRpc with
        | Some fetchedData => ret fetchedData
        | None =>
            inserted <- insert_credential_single uid nm url un pw;;
            match inserted with
            | Failed c m =>
                (if Js.truthy m
                    && Js.includes m "row-level security policy"
                 then
                   authData <- getUser;;
                   match authData with
                   | Some u =>
                       if negb (String.eqb u uid)
                       then throw (Js.Error
  "User ID mismatch: The provided user ID does not match the authenticated user ID")
                       else ret tt
                   | None => ret tt
                   end
                 else ret tt);;
                store_error c m
            | Data data => ret data
            end
        end) st1)).
  { intros st1. unfold bind at 1.
    destruct (via_rpc_result uid nm url un pw st1) as (v & st2 & -> & V).
    destruct v as [row|]; [unfold stored_or_thrown; simpl; auto|].
    apply direct_insert_result. }
  unfold saveServiceNowCredential. rewrite rethrow_same.
  unfold bind at 1. unfold table_check.
  destruct (called (fun s => (Data tt, s)) st)
    as [(c & m & rest & _ & ->) | (st0 & _ & ->)]; cbn [fst snd].
  - destruct (String.eqb c "PGRST116").
    + unfold bind at 1. unfold bind at 1.
      unfold createServiceNowCredentialsTable. rewrite rethrow_same.
      unfold bind at 1, rpc_create_table.
      destruct (called (fun s => (Data tt, s)) (with_faults rest st))
        as [(c' & m' & rest' & _ & ->) | (st1 & _ & ->)]; cbn [fst snd ret];
        apply K.
    + exact I.
  - unfold bind at 1. cbn [ret]. apply K.
Qed.

(** C7, the claim as stated fails: with the store out of reach, the three
    writes of chat persistence return [null] and [false] and throw nothing,
    [saveConversation] also when its first insert went through and only
    the second one failed, and the read [getServiceNowCredentials] throws. *)
Lemma chat_writes_return_sentinels :
  fst (saveConversation "user-1" "Title" [m1; m2] (store [unreachable]))
  = Ret None
  /\ fst (saveConversation "user-1" "Title" [m1; m2]
            (store [None; unreachable])) = Ret None
  /\ List.length (conversations
                    (snd (saveConversation "user-1" "Title" [m1; m2]
                            (store [None; unreachable])))) = 1%nat
  /\ fst (updateConversationTitle "uuid-0" "New title" (store [unreachable]))
     = Ret false
  /\ fst (deleteConversation "uuid-0" (store [unreachable])) = Ret false
  /\ fst (getServiceNowCredentials "user-1" (store [unreachable]))
     = Throw (Js.StoreError "08006" "connection failure").
Proof. vm_compute. repeat split. Qed.

(** *** How the operations of the credential store end *)

(** The direct insert returns the row it stored, or throws the error of
    the store or the mismatch of user ids. *)
Lemma direct_insert_ends uid nm url un pw st :
  returns_or_throws stored
    (fun e => is_store_error e \/ e = user_id_mismatch)
    ((inserted <- insert_credential_single uid nm url un pw;;
      match inserted with
      | Failed c m =>
          (if Js.truthy m && Js.includes m "row-level security policy"
           then
             authData <- getUser;;
             match authData with
             | Some u =>
                 if negb (String.eqb u uid)
                 then throw (Js.Error
  "User ID mismatch: The provided user ID does not match the authenticated user ID")
                 else ret tt
             | None => ret tt
             end
           else ret tt);;
          store_error c m
      | Data data => ret data
      end) st).
Proof.
  assert (SE : forall c m, is_store_error (Js.StoreError c m)
                           \/ Js.StoreError c m = user_id_mismatch)
    by (intros c m; left; exists c, m; reflexivity).
  unfold returns_or_throws, insert_credential_single, bind.
  destruct (called (insert_credential uid nm url un pw) st)
    as [(c & m & rest & _ & ->) | (st0 & _ & ->)].
  - destruct (Js.truthy m && Js.includes m "row-level security policy");
      [|simpl; apply SE].
    unfold getUser, bind.
    destruct (called (fun s => (Data (auth_uid s), s)) (with_faults rest st))
      as [(c' & m' & rest' & _ & ->) | (st0 & _ & ->)]; simpl; [apply SE|].
    destruct (auth_uid st0) as [u|]; simpl; [|apply SE].
    destruct (negb (String.eqb u uid)); simpl; [right; reflexivity|apply SE].
  - destruct (insert_credential uid nm url un pw st0) as [[row|c m] st1] eqn:E;
      simpl.
    + eapply insert_credential_stored; eassumption.
    + destruct (Js.truthy m && Js.includes m "row-level security policy");
        [|simpl; apply SE].
      unfold getUser, bind.
      destruct (called (fun s => (Data (auth_uid s), s)) st1)
        as [(c' & m' & rest' & _ & ->) | (st2 & _ & ->)]; simpl; [apply SE|].
      destruct (auth_uid st2) as [u|]; simpl; [|apply SE].
      destruct (negb (String.eqb u uid)); simpl;
        [right; reflexivity|apply SE].
Qed.

Lemma saveServiceNowCredential_ends uid nm url un pw st :
  returns_or_throws stored
    (fun e => is_store_error e \/ e = user_id_mismatch)
    (saveServiceNowCredential uid nm url un pw st).
Proof.
  assert (K : forall st1,
    returns_or_throws stored
      (fun e => is_store_error e \/ e = user_id_mismatch)
      ((viaRpc <-
          try_catch
            (rpc <- rpc_insert_credential uid nm url un pw;;
             match rpc with
             | Failed _ _ => ret None
             | Data rpcData =>
                 fetched <- select_credential_by_id rpcData;;
                 match fetched with
                 | Failed _ _ => ret None
                 | Data fetchedData => ret (Some fetchedData)
                 end
             end)
            (fun rpcException => ret None);;
        match viaRpc with
        | Some fetchedData => ret fetchedData
        | None =>
            inserted <- insert_credential_single uid nm url un pw;;
      match inserted with
      | Failed c m =>
          (if Js.truthy m && Js.includes m "row-level security policy"
           then
             authData <- getUser;;
             match authData with
             | Some u =>
                 if negb (String.eqb u uid)
                 then throw (Js.Error
  "User ID mismatch: The provided user ID does not match the authenticated user ID")
                 else ret tt
             | None => ret tt
             end
           else ret tt);;
          store_error c m
      | Data data => ret data
      end
        end) st1)).
  { intros st1. unfold bind at 1.
    destruct (via_rpc_result uid nm url un pw st1) as (v & st2 & -> & V).
    destruct v as [row|]; [unfold returns_or_throws, stored; simpl; auto|].
    apply direct_insert_ends. }
  unfold saveServiceNowCredential. rewrite rethrow_same.
  unfold bind at 1. unfold table_check.
  destruct (called (fun s => (Data tt, s)) st)
    as [(c & m & rest & _ & ->) | (st0 & _ & ->)]; cbn [fst snd].
  - destruct (String.eqb c "PGRST116").
    + unfold bind at 1. unfold bind at 1.
      unfold createServiceNowCredentialsTable. rewrite rethrow_same.
      unfold bind at 1, rpc_create_table.
      destruct (called (fun s => (Data tt, s)) (with_faults rest st))
        as [(c' & m' & rest' & _ & ->) | (st1 & _ & ->)]; cbn [fst snd ret];
        apply K.
    + unfold returns_or_throws. simpl. left. exists c, m. reflexivity.
  - unfold bind at 1. cbn [ret]. apply K.
Qed.

Lemma updateServiceNowCredential_ends cid uid u st :
  returns_or_throws stored is_store_error
    (updateServiceNowCredential cid uid u st).
Proof.
  unfold returns_or_throws, updateServiceNowCredential, bind,
         update_credential.
  match goal with
  | |- context [call ?run st] =>
      destruct (called run st)
        as [(c & m & rest & _ & ->) | (st0 & _ & ->)]
  end; cbn [fst snd]; [exists c, m; reflexivity|].
  cbv zeta.
  destruct (single _) as [r|c m] eqn:S; cbn [fst snd];
    [|exists c, m; reflexivity].
  destruct (existsb _ _); cbn [fst snd];
    [unfold duplicate_key; eexists; eexists; reflexivity|].
  unfold stored. cbn [ret fst snd servicenow_credentials with_credentials].
  apply single_In in S. apply filter_In in S. destruct S as (I & C).
  apply in_map_iff. exists r. rewrite C. auto.
Qed.

Lemma deleteServiceNowCredential_ends cid uid st :
  returns_or_throws anything is_store_error
    (deleteServiceNowCredential cid uid st).
Proof.
  unfold returns_or_throws, deleteServiceNowCredential, bind,
         delete_credential.
  match goal with
  | |- context [call ?run st] =>
      destruct (called run st)
        as [(c & m & rest & _ & ->) | (st0 & _ & ->)]
  end; cbn [fst snd]; [exists c, m; reflexivity|exact I].
Qed.

Lemma getServiceNowCredentials_ends uid st :
  returns_or_throws anything is_store_error
    (getServiceNowCredentials uid st).
Proof.
  unfold returns_or_throws, getServiceNowCredentials, bind,
         select_credentials_of.
  match goal with
  | |- context [call ?run st] =>
      destruct (called run st)
        as [(c & m & rest & _ & ->) | (st0 & _ & ->)]
  end; cbn [fst snd]; [exists c, m; reflexivity|exact I].
Qed.

(** C7, as amended.  The credential store throws: with the store
    answering by an error, [updateServiceNowCredential],
    [deleteServiceNowCredential] and the read [getServiceNowCredentials]
    throw that error, and they never end otherwise than by returning (the
    update a stored row) or by throwing an error of the store;
    [saveServiceNowCredential], with its RPC call answered by an error and
    its direct insert by the error [(c, m)], throws that error, or the
    mismatch of user ids when [m] names the row-level security policy and
    the signed-in user, asked for next, is another one than the owner; it
    never ends otherwise than with a stored row, an error of the store or
    that mismatch.  Chat persistence, writes and reads alike, and the
    client factory never throw: with the store answering their first call
    by an error, or their second call where there is one, they return
    [null], [false] or the empty sequence. *)
Theorem credential_store_throws_chat_returns_sentinels :
  forall (st : Store) (c m c1 m1 : string)
         (rest : list (option (string * string)))
         (cid uid ttl nm url un pw : string)
         (updates : CredentialUpdates) (msgs : list ChatMessage),
    let failing := with_faults (Some (c, m) :: rest) st in
    let failing2 := with_faults (None :: Some (c, m) :: rest) st in
    let refused :=
      with_faults (None :: Some (c1, m1) :: Some (c, m) :: rest) st in
    (fst (updateServiceNowCredential cid uid updates failing)
     = Throw (Js.StoreError c m)
     /\ fst (deleteServiceNowCredential cid uid failing)
        = Throw (Js.StoreError c m)
     /\ fst (getServiceNowCredentials uid failing)
        = Throw (Js.StoreError c m)
     /\ fst (saveServiceNowCredential uid nm url un pw refused)
        = Throw (if Js.truthy m && Js.includes m "row-level security policy"
                 then match rest, auth_uid st with
                      | Some _ :: _, _ => Js.StoreError c m
                      | _, Some u => if String.eqb u uid
                                     then Js.StoreError c m
                                     else user_id_mismatch
                      | _, None => Js.StoreError c m
                      end
                 else Js.StoreError c m)
     /\ returns_or_throws stored is_store_error
          (updateServiceNowCredential cid uid updates st)
     /\ returns_or_throws anything is_store_error
          (deleteServiceNowCredential cid uid st)
     /\ returns_or_throws anything is_store_error
          (getServiceNowCredentials uid st)
     /\ returns_or_throws stored
          (fun e => is_store_error e \/ e = user_id_mismatch)
          (saveServiceNowCredential uid nm url un pw st))
    /\ (fst (saveConversation uid ttl msgs failing) = Ret None
        /\ fst (updateConversationTitle cid ttl failing) = Ret false
        /\ fst (deleteConversation cid failing) = Ret false
        /\ fst (getConversations uid failing) = Ret []
        /\ fst (getConversationWithMessages cid failing) = Ret None
        /\ fst (getServiceNowClient cid uid failing) = Ret None
        /\ fst (getAllServiceNowClients uid failing) = Ret [])
    /\ (fst (saveConversation uid ttl msgs failing2) = Ret None
        /\ fst (deleteConversation cid failing2) = Ret false
        /\ fst (getConversationWithMessages cid failing2) = Ret None)
    /\ ((exists v, fst (saveConversation uid ttl msgs st) = Ret v)
        /\ (exists v, fst (updateConversationTitle cid ttl st) = Ret v)
        /\ (exists v, fst (deleteConversation cid st) = Ret v)
        /\ (exists v, fst (getConversations uid st) = Ret v)
        /\ (exists v, fst (getConversationWithMessages cid st) = Ret v)
        /\ (exists v, fst (getServiceNowClient cid uid st) = Ret v)
        /\ (exists v, fst (getAllServiceNowClients uid st) = Ret v)).
Proof.
  intros. split; [|split; [|split]].
  - split; [reflexivity|]. split; [reflexivity|]. split; [reflexivity|].
    split; [|split; [apply updateServiceNowCredential_ends
                    |split; [apply deleteServiceNowCredential_ends
                            |split; [apply getServiceNowCredentials_ends
                                    |apply saveServiceNowCredential_ends]]]].
    unfold saveServiceNowCredential. rewrite rethrow_same.
    subst refused. cbn.
    destruct (Js.truthy m && Js.includes m "row-level security policy");
      [|reflexivity].
    unfold getUser, bind, call. cbn [faults with_faults].
    destruct rest as [|[[c' m']|] rest']; cbn;
      try reflexivity;
      destruct (auth_uid st) as [u|]; cbn; try reflexivity;
      destruct (String.eqb u uid); reflexivity.
  - repeat split; reflexivity.
  - subst failing2. split; [|split].
    + unfold saveConversation, try_catch, bind, new_Date, insert_conversation,
             call.
      cbn [fst snd faults with_faults ticked].
      destruct (existsb _ _); cbn [fst snd]; [reflexivity|].
      unfold lift.
      destruct (messagesToInsert _ msgs) as [ins|e|] eqn:MI;
        [reflexivity|reflexivity|].
      exfalso. eapply messagesToInsert_settles. exact MI.
    + reflexivity.
    + unfold getConversationWithMessages, try_catch, bind,
             select_conversation, call.
      cbn [fst snd faults with_faults].
      destruct (single _); reflexivity.
  - repeat split;
      [ apply saveConversation_returns
      | apply updateConversationTitle_returns
      | apply deleteConversation_returns
      | apply getConversations_returns
      | apply getConversationWithMessages_returns
      | apply getServiceNowClient_returns
      | apply getAllServiceNowClients_returns ].
Qed.

End ErrorPathTheorems.

(** ** Chat persistence: saving and reading back *)

Module ChatTheorems.

Import Supabase Chat StoreProps StoreSamples.
Import ErrorPathTheorems.

(** An unfaulted call runs its statement on the tables as they are. *)
Lemma call_unfaulted {A} (run : Store -> answer A * Store) st :
  unfaulted 1 st ->
  exists st0,
    conversations st0 = conversations st
    /\ messages st0 = messages st
    /\ faults st0 = tl (faults st)
    /\ call run st = (Ret (fst (run st0)), snd (run st0)).
Proof.
  unfold unfaulted, call. intros U.
  destruct (faults st) as [|[[c m]|] rest] eqn:F.
  - exists st. rewrite F. destruct (run st); repeat split; auto.
  - simpl in U. inversion U as [|? ? H]; discriminate.
  - exists (with_faults rest st). destruct (run _); repeat split; auto.
Qed.

Lemma unfaulted_two st :
  unfaulted 2 st ->
  unfaulted 1 st
  /\ forall st0, faults st0 = tl (faults st) -> unfaulted 1 st0.
Proof.
  unfold unfaulted. intros U. split.
  - destruct (faults st) as [|a [|b l]]; simpl in *; auto;
      inversion U; subst; auto.
  - intros st0 ->.
    destruct (faults st) as [|a [|b l]]; simpl in *; auto;
      inversion U as [|? ? ? U']; subst; auto.
Qed.

Lemma messagesToInsert_rows cid msgs ins :
  messagesToInsert cid msgs = Ret ins ->
  forall gen n, Forall2 (stores cid) msgs (number_rows gen n ins).
Proof.
  revert ins. induction msgs as [|m msgs IH]; simpl; intros ins H gen n.
  - injection H as <-. constructor.
  - destruct (timestamp m) as [ms|] eqn:T; simpl in H; [|discriminate].
    destruct (messagesToInsert cid msgs) as [rows|e|]; try discriminate.
    injection H as <-. simpl. constructor; [|apply IH; reflexivity].
    unfold stores. simpl. auto.
Qed.

(** Rows whose instants increase are returned by [ORDER BY] as they are. *)
Lemma order_asc_increasing cid : forall msgs rows t,
  Forall2 (stores cid) msgs rows ->
  increasing_from t (map timestamp msgs) ->
  order_asc msg_created_at rows = rows
  /\ forall x, msg_created_at x <= t ->
       insert_by msg_created_at x rows = x :: rows.
Proof.
  intros msgs rows t F. revert t.
  induction F as [|m r msgs rows S F IH]; intros t I.
  - split; reflexivity.
  - simpl in I. destruct S as (_ & _ & _ & T & _). rewrite T in I.
    destruct I as (Lt & I). destruct (IH _ I) as (O & Ins).
    split.
    + unfold order_asc in *. simpl. rewrite O. apply Ins. lia.
    + intros x Hx. simpl.
      destruct (Z.leb_spec (msg_created_at x) (msg_created_at r));
        [reflexivity|lia].
Qed.

Lemma order_asc_saved cid msgs rows :
  Forall2 (stores cid) msgs rows ->
  increasing (map timestamp msgs) ->
  order_asc msg_created_at rows = rows.
Proof.
  intros F I. destruct F as [|m r msgs rows S F]; [reflexivity|].
  simpl in I. pose proof S as (_ & _ & _ & T & _). rewrite T in I.
  assert (I' : increasing_from (msg_created_at r - 1)
                 (map timestamp (m :: msgs))).
  { simpl. rewrite T. split; [lia|exact I]. }
  exact (proj1 (order_asc_increasing cid (m :: msgs) (r :: rows) _
                  (Forall2_cons _ _ S F) I')).
Qed.

Lemma filter_none {A} (f : A -> bool) (l : list A) :
  (forall a, In a l -> f a = false) -> filter f l = [].
Proof.
  induction l as [|a l IH]; simpl; intros H; [reflexivity|].
  rewrite (H a) by auto. apply IH. auto.
Qed.

Lemma filter_all {A} (f : A -> bool) (l : list A) :
  (forall a, In a l -> f a = true) -> filter f l = l.
Proof.
  induction l as [|a l IH]; simpl; intros H; [reflexivity|].
  rewrite (H a) by auto. f_equal. apply IH. auto.
Qed.

Lemma existsb_false_all {A} (f : A -> bool) (l : list A) :
  existsb f l = false -> forall a, In a l -> f a = false.
Proof.
  intros E a Ha. destruct (f a) eqn:F; [|reflexivity].
  assert (existsb f l = true) by (apply existsb_exists; eauto). congruence.
Qed.

Lemma number_rows_ids gen ins : forall n,
  map msg_id (number_rows gen n ins) = map gen (seq n (List.length ins)).
Proof.
  induction ins as [|m ins IH]; intros n; simpl; [reflexivity|].
  rewrite IH. reflexivity.
Qed.

Lemma messagesToInsert_length cid msgs : forall ins,
  messagesToInsert cid msgs = Ret ins -> List.length ins = List.length msgs.
Proof.
  induction msgs as [|m msgs IH]; simpl; intros ins H.
  - injection H as <-. reflexivity.
  - destruct (timestamp m); simpl in H; [|discriminate].
    destruct (messagesToInsert cid msgs) as [rows|e|]; try discriminate.
    injection H as <-. simpl. rewrite (IH rows); reflexivity.
Qed.

(** What a successful [saveConversation] has written: the conversation,
    under the next id of the store and with the two readings of the clock,
    and the messages, under the ids that follow. *)
Lemma saveConversation_written u t msgs st cid st1 :
  saveConversation u t msgs st = (Ret (Some cid), st1) ->
  exists rows,
    Forall2 (stores cid) msgs rows
    /\ (forall c, In c (conversations st) ->
         String.eqb (conv_id c) cid = false)
    /\ conversations st1
       = (conversations st
          ++ [mkConversationRow cid u t (clock st) (clock (ticked st))])%list
    /\ messages st1 = (messages st ++ rows)%list
    /\ cid = uuid_gen st (uuid_next st)
    /\ map msg_id rows
       = map (uuid_gen st) (seq (S (uuid_next st)) (List.length msgs)).
Proof.
  unfold saveConversation, try_catch, bind, new_Date, insert_conversation.
  cbn [fst snd].
  match goal with
  | |- context [call ?run ?s] =>
      destruct (called run s)
        as [(c & m & rest & _ & ->) | (st0 & Hst0 & ->)]
  end; [discriminate|].
  assert (T : conversations st0 = conversations st
              /\ messages st0 = messages st
              /\ uuid_gen st0 = uuid_gen st
              /\ uuid_next st0 = uuid_next st).
  { destruct Hst0 as [->|(rest & ->)]; repeat split. }
  destruct T as (Tc & Tm & Tg & Tn).
  cbn [fst snd].
  destruct (existsb _ (conversations st0)) eqn:E; cbn [fst snd];
    [discriminate|].
  unfold lift.
  destruct (messagesToInsert _ msgs) as [ins|e|] eqn:MI; try discriminate.
  unfold insert_messages.
  match goal with
  | |- context [call ?run ?s] =>
      destruct (called run s)
        as [(c & m & rest & _ & ->) | (st2 & Hst2 & ->)]
  end; [discriminate|].
  cbn [fst snd].
  destruct (negb (distinct _)); cbn [fst snd]; [discriminate|].
  destruct (forallb _ _); cbn [fst snd]; [|discriminate].
  intros H. injection H as <- <-.
  eexists. split; [eapply messagesToInsert_rows; exact MI|].
  split; [|split; [|split; [|split]]].
  - intros c0 Hc. rewrite <- Tc in Hc.
    exact (existsb_false_all _ _ E c0 Hc).
  - destruct Hst2 as [->|(rest & ->)]; simpl; rewrite Tc; reflexivity.
  - destruct Hst2 as [->|(rest & ->)]; simpl; rewrite Tm; reflexivity.
  - cbn [conv_id]. rewrite Tg, Tn. reflexivity.
  - rewrite number_rows_ids.
    rewrite (messagesToInsert_length _ _ _ MI).
    destruct Hst2 as [->|(rest & ->)]; simpl; rewrite Tg, Tn; reflexivity.
Qed.

Lemma saveConversation_saved u t msgs st cid st1 :
  saveConversation u t msgs st = (Ret (Some cid), st1) ->
  exists rows,
    Forall2 (stores cid) msgs rows
    /\ (forall c, In c (conversations st) ->
         String.eqb (conv_id c) cid = false)
    /\ conversations st1
       = (conversations st
          ++ [mkConversationRow cid u t (clock st) (clock (ticked st))])%list
    /\ messages st1 = (messages st ++ rows)%list.
Proof.
  intros H.
  destruct (saveConversation_written _ _ _ _ _ _ H)
    as (rows & A & B & C & D & _).
  exists rows. auto.
Qed.

(** C6, the claim as stated fails: the [id] of a message is not sent to
    the store, which gives each row an id of its own, and the messages come
    back in the order of their timestamps, not in the order given. *)
Lemma reading_back_changes_ids_and_order :
  (let r := saveConversation "user-1" "Title" [m1; m2] (store []) in
   fst r = Ret (Some "uuid-0")
   /\ fst (getConversationWithMessages "uuid-0" (snd r))
      = Ret (Some (mkConversation "uuid-0" "Title" (Instant 5000)
                     (Instant 5000)
                     (Some [mkMessage "uuid-1" "How do I log?" "user"
                              (Instant 1000) None;
                            mkMessage "uuid-2" "Use gs.info" "ai"
                              (Instant 2000) (Some [snippet])]))))
  /\ (let r := saveConversation "user-1" "Title" [m1; m2_early] (store []) in
      fst r = Ret (Some "uuid-0")
      /\ fst (getConversationWithMessages "uuid-0" (snd r))
         = Ret (Some (mkConversation "uuid-0" "Title" (Instant 5000)
                        (Instant 5000)
                        (Some [mkMessage "uuid-2" "Use gs.info" "ai"
                                 (Instant 500) (Some [snippet]);
                               mkMessage "uuid-1" "How do I log?" "user"
                                 (Instant 1000) None])))).
Proof. vm_compute. repeat split. Qed.

(** C6, as amended: when [saveConversation(owner, title, messages)]
    succeeds on a store that respects the foreign key of [messages], and
    the timestamps of the messages are strictly increasing, a following
    [getConversationWithMessages] on the returned id, when the store
    answers its two queries, returns the conversation with as many
    messages, in the order given, each with the content, sender,
    timestamp and code snippets of the message saved.  The ids of the
    messages returned are those the store generated, the ones that follow
    the id it generated for the conversation, whatever the ids of the
    messages saved; [createdAt] and [updatedAt] are the two readings of
    the clock that [saveConversation] made, in that order. *)
Theorem saved_conversation_reads_back :
  forall (owner ttl : string) (msgs : list ChatMessage)
         (st st1 : Store) (cid : string),
    fk_ok st ->
    saveConversation owner ttl msgs st = (Ret (Some cid), st1) ->
    increasing (map timestamp msgs) ->
    unfaulted 2 st1 ->
    exists stored st2,
      getConversationWithMessages cid st1
      = (Ret (Some (mkConversation cid ttl (Instant (clock st))
                      (Instant (clock (ticked st))) (Some stored))), st2)
      /\ Forall2 same_but_id msgs stored
      /\ cid = uuid_gen st (uuid_next st)
      /\ map Chat.id stored
         = map (uuid_gen st) (seq (S (uuid_next st)) (List.length msgs)).
Proof.
  intros owner ttl msgs st st1 cid FK Save Inc U.
  destruct (saveConversation_written _ _ _ _ _ _ Save)
    as (rows & St & Fresh & Convs & Msgs & Cid & Ids).
  destruct (unfaulted_two _ U) as (U1 & U2).
  unfold getConversationWithMessages, try_catch, bind, select_conversation.
  match goal with
  | |- context [call ?run st1] =>
      destruct (call_unfaulted run st1 U1) as (sa & Ca & Ma & Fa & ->)
  end.
  cbn [fst snd].
  assert (Sel : filter (fun c => String.eqb (conv_id c) cid)
                       (conversations sa)
                = [mkConversationRow cid owner ttl (clock st)
                     (clock (ticked st))]).
  { rewrite Ca, Convs, filter_app, (filter_none _ _ Fresh).
    cbn [filter conv_id List.app].
    rewrite String.eqb_refl. reflexivity. }
  rewrite Sel. cbn [single].
  unfold select_messages_of.
  match goal with
  | |- context [call ?run sa] =>
      destruct (call_unfaulted run sa (U2 sa Fa)) as (sb & Cb & Mb & Fb & ->)
  end.
  cbn [fst snd ret conv_id conv_title conv_created_at conv_updated_at].
  assert (Old : filter (fun m => String.eqb (msg_conversation_id m) cid)
                       (messages st) = []).
  { apply filter_none. intros m Hm.
    destruct (FK m Hm) as (c & Hc & <-). apply Fresh. exact Hc. }
  assert (New : filter (fun m => String.eqb (msg_conversation_id m) cid) rows
                = rows).
  { apply filter_all. intros m Hm.
    clear - St Hm. induction St as [|a r l l' S F IH]; [contradiction|].
    destruct Hm as [<-|Hm]; [|auto].
    destruct S as (-> & _). apply String.eqb_refl. }
  rewrite Mb, Ma, Msgs, filter_app, Old, New. cbn [app].
  rewrite (order_asc_saved cid msgs rows St Inc).
  do 2 eexists. split; [reflexivity|].
  split; [|split; [exact Cid|]].
  - clear - St. induction St as [|m r l l' S F IH]; simpl; constructor; auto.
    destruct S as (_ & C & S & T & Md).
    unfold same_but_id, format_message. simpl. repeat split; auto.
  - rewrite <- Ids, map_map. reflexivity.
Qed.

Lemma saved_conversation_reads_back_witness :
  fk_ok (store [])
  /\ increasing (map timestamp [m1; m2])
  /\ unfaulted 2 (snd (saveConversation "user-1" "Title" [m1; m2] (store [])))
  /\ exists stored st2,
       getConversationWithMessages "uuid-0"
         (snd (saveConversation "user-1" "Title" [m1; m2] (store [])))
       = (Ret (Some (mkConversation "uuid-0" "Title" (Instant 5000)
                       (Instant 5000) (Some stored))), st2)
       /\ Forall2 same_but_id [m1; m2] stored
       /\ map Chat.id stored = ["uuid-1"; "uuid-2"].
Proof.
  assert (FK : fk_ok (store [])) by (intros m []).
  assert (Inc : increasing (map timestamp [m1; m2]))
    by (simpl; split; [lia|exact I]).
  assert (U : unfaulted 2
                (snd (saveConversation "user-1" "Title" [m1; m2] (store []))))
    by (vm_compute; constructor).
  split; [exact FK|]. split; [exact Inc|]. split; [exact U|].
  destruct (saved_conversation_reads_back "user-1" "Title" [m1; m2] (store [])
              (snd (saveConversation "user-1" "Title" [m1; m2] (store [])))
              "uuid-0" FK eq_refl Inc U) as (stored & st2 & G & S & _ & Ids).
  exists stored, st2. split; [exact G|]. split; [exact S|exact Ids].
Defined.

End ChatTheorems.

(** ** Further properties of the ServiceNow API client *)

Module ClientExtras.

Import Net ServiceNow Props ClientProps Samples Facts.

Lemma Operation_eq_TestConnection op :
  op = TestConnection \/ op <> TestConnection.
Proof. destruct op; (left; reflexivity) || (right; discriminate). Qed.

(** A [try] whose [catch] wraps and re-throws: whatever it throws is the
    wrapped error. *)
Lemma wrapped_throw {A} (m : M Sys A) (prefix : string) s e :
  fst (try_catch m (fun error => throw (wrap prefix error)) s) = Throw e ->
  exists cause, fst (m s) = Throw cause /\ e = wrap prefix cause.
Proof.
  unfold try_catch, throw. destruct (m s) as [[a|e0|] s1]; simpl;
    intros H; try discriminate.
  injection H as <-. eauto.
Qed.

Lemma testConnection_outcome s :
  (exists b, fst (testConnection s) = Ret b) \/ fst (testConnection s) = Hang.
Proof.
  unfold testConnection, try_catch.
  match goal with
  | |- context [bind ?m ?k s] => destruct (bind m k s) as [[b|e|] s1]
  end; simpl; eauto.
Qed.

(** X1. An error that a public operation throws is a plain [Error] whose
    message is the prefix of the operation followed by a non-empty text;
    it has no [status], whatever the response was, and [testConnection]
    is not among the operations that throw. *)
Theorem operation_errors_are_wrapped :
  forall (op : Operation) (s : Sys) (e : Js.exn),
    fst (perform op s) = Throw e ->
    op <> TestConnection
    /\ Js.exn_status e = None
    /\ exists text, text <> "" /\ e = Js.Error (op_prefix op ++ text).
Proof.
  intros op s e H.
  assert (W : forall prefix cause,
             e = wrap prefix cause ->
             Js.exn_status e = None
             /\ exists text, text <> "" /\ e = Js.Error (prefix ++ text)).
  { intros prefix cause ->. split; [reflexivity|].
    unfold wrap, Js.or_else. eexists. split; [|reflexivity].
    destruct (Js.truthy (Js.exn_message cause)) eqn:T;
      [apply truthy_iff; exact T|discriminate]. }
  destruct op; cbn [perform op_prefix] in *;
    unfold queryRecords, getRecord, createRecord, updateRecord,
           executeScript in H;
    try (apply wrapped_throw in H; destruct H as (cause & _ & ->);
         split; [discriminate|]; eapply W; reflexivity).
  - (* deleteRecord *)
    unfold bind at 1 in H. unfold deleteRecord in H.
    match type of H with
    | context [try_catch ?m ?h s] =>
        pose proof (@wrapped_throw _ m
                      ("Failed to delete " ++ tbl ++ " record: ") s) as Wd;
        destruct (try_catch m h s) as [[a|e0|] s1] eqn:Q
    end; simpl in H; try discriminate.
    injection H as <-.
    destruct (Wd e0 eq_refl) as (cause & _ & ->).
    split; [discriminate|]. eapply W; reflexivity.
  - (* testConnection *)
    exfalso. unfold bind at 1 in H.
    destruct (testConnection_outcome s) as [(b & Q)|Q];
      destruct (testConnection s) as [[b'|e0|] s1]; simpl in *;
      discriminate.
Qed.

Lemma operation_errors_are_wrapped_witness :
  fst (perform (GetRecord "incident" "0c5f" [])
         (fresh [Responds 40 users_page; Responds 30 not_found]))
  = Throw (Js.Error
             "Failed to get incident record: body stream already read")
  /\ Js.exn_status
       (Js.Error "Failed to get incident record: body stream already read")
     = None.
Proof.
  assert (H : fst (perform (GetRecord "incident" "0c5f" [])
                     (fresh [Responds 40 users_page; Responds 30 not_found]))
              = Throw (Js.Error
                  "Failed to get incident record: body stream already read"))
    by (vm_compute; reflexivity).
  split; [exact H|].
  exact (proj1 (proj2 (operation_errors_are_wrapped _ _ _ H))).
Defined.

(** X2. [testConnection] never throws: it returns a boolean, or waits for
    an answer that does not come. *)
Theorem testConnection_never_throws :
  forall (s : Sys) (e : Js.exn), fst (testConnection s) <> Throw e.
Proof.
  intros s e. destruct (testConnection_outcome s) as [(b & Q)|Q];
    rewrite Q; discriminate.
Qed.

(** [authenticate] with an empty username or password. *)
Lemma authenticate_empty s :
  token_valid (this s) (now (world s)) = false ->
  empty_credentials (this s) = true ->
  authenticate s = (Throw (Js.Error empty_credentials_message), s).
Proof.
  unfold empty_credentials. intros V E. unfold authenticate. run_monad.
  rewrite V. simpl. rewrite E. reflexivity.
Qed.

(** X3. A client whose username or password is empty, and which holds no
    valid token, fails every operation before any network call: the
    operation throws the authentication message behind its own prefix,
    [testConnection] returns [false], and the instance, the clock and the
    log of calls are as they were. *)
Theorem empty_credentials_fail_offline :
  forall (op : Operation) (s : Sys),
    token_valid (this s) (now (world s)) = false ->
    empty_credentials (this s) = true ->
    perform op s
    = (match op with
       | TestConnection => Ret (Some (Js.JBool false))
       | _ => Throw (Js.Error (op_prefix op ++ empty_credentials_message))
       end, s).
Proof.
  intros op s V E.
  assert (R : forall endpoint options,
             request endpoint options s
             = (Throw (Js.Error empty_credentials_message), s)).
  { intros. rewrite request_unfold, (authenticate_empty s V E). reflexivity. }
  destruct op; cbn [perform op_prefix];
    unfold queryRecords, getRecord, createRecord, updateRecord, deleteRecord,
           executeScript, testConnection, try_catch, bind;
    rewrite ?R, ?(authenticate_empty s V E); reflexivity.
Qed.

Lemma empty_credentials_fail_offline_witness :
  perform (QueryRecords incidents)
    (mkSys (new (mkCredential "6f1c" "user-1" "dev"
                   "https://dev12345.service-now.com" "admin" "" 0))
           (mkWorld 1000 [Responds 40 users_page] []))
  = (Throw (Js.Error ("Failed to query incident records: "
                      ++ empty_credentials_message)),
     mkSys (new (mkCredential "6f1c" "user-1" "dev"
                   "https://dev12345.service-now.com" "admin" "" 0))
           (mkWorld 1000 [Responds 40 users_page] [])).
Proof.
  exact (empty_credentials_fail_offline (QueryRecords incidents)
           (mkSys (new (mkCredential "6f1c" "user-1" "dev"
                          "https://dev12345.service-now.com" "admin" "" 0))
                  (mkWorld 1000 [Responds 40 users_page] []))
           eq_refl eq_refl).
Defined.

(** [request] on a valid cached token and a 2xx answer. *)
Lemma request_cached_ok endpoint options s d r rest :
  token_valid (this s) (now (world s)) = true ->
  net (world s) = Responds d r :: rest ->
  ok r = true ->
  signal options = None ->
  request endpoint options s
  = (fst (json r),
     mkSys (this s)
           (elapse d (world s) rest (request_call (this s) endpoint options))).
Proof.
  intros V N O S. rewrite request_unfold, (authenticate_cached s V).
  unfold dispatch, request_call. run_monad. rewrite N, S. simpl.
  rewrite O. simpl. unfold json.
  destruct (body r) as [b|]; [|reflexivity].
  destruct (bodyUsed r); [reflexivity|].
  destruct (parsed b); reflexivity.
Qed.

(** The same through an operation: what is left of the state. *)
Lemma perform_cached_state op s d r rest :
  token_valid (this s) (now (world s)) = true ->
  net (world s) = Responds d r :: rest ->
  ok r = true ->
  snd (perform op s)
  = mkSys (this s)
          (elapse d (world s) rest
             (request_call (this s) (fst (request_of op))
                           (snd (request_of op)))).
Proof.
  intros V N O.
  assert (R : request (fst (request_of op)) (snd (request_of op)) s
              = (fst (json r),
                 mkSys (this s)
                   (elapse d (world s) rest
                      (request_call (this s) (fst (request_of op))
                                    (snd (request_of op))))))
    by (apply request_cached_ok; auto; destruct op; reflexivity).
  destruct op; cbn [perform request_of fst snd] in *;
    unfold queryRecords, getRecord, createRecord, updateRecord, deleteRecord,
           executeScript, testConnection, result_of, try_catch, bind, lift,
           throw, ret;
    rewrite ?(authenticate_cached s V), ?R;
    destruct (fst (json r)) as [j|e|]; simpl; try reflexivity;
    destruct (member j "result"); reflexivity.
Qed.

(** X4. With a valid cached token, an operation whose request is answered
    with a 2xx response makes exactly one network call, the request
    itself, with no verification request before it; the instance, token
    and expiry included, is as it was. *)
Theorem cached_token_one_call :
  forall (op : Operation) (s : Sys) (d : Z) (r : Response)
         (rest : list net_event),
    token_valid (this s) (now (world s)) = true ->
    net (world s) = Responds d r :: rest ->
    ok r = true ->
    this (snd (perform op s)) = this s
    /\ log (world (snd (perform op s)))
       = (log (world s)
          ++ [request_call (this s) (fst (request_of op))
                           (snd (request_of op))])%list
    /\ net (world (snd (perform op s))) = rest.
Proof.
  intros op s d r rest V N O.
  rewrite (perform_cached_state op s d r rest V N O). repeat split.
Qed.

Lemma cached_token_one_call_witness :
  let s := snd (authenticate (fresh [Responds 40 users_page;
                                     Responds 30 script_done])) in
  this (snd (perform (ExecuteScript "gs.info(1)") s)) = this s
  /\ log (world (snd (perform (ExecuteScript "gs.info(1)") s)))
     = (log (world s)
        ++ [request_call (this s)
              (fst (request_of (ExecuteScript "gs.info(1)")))
              (snd (request_of (ExecuteScript "gs.info(1)")))])%list
  /\ net (world (snd (perform (ExecuteScript "gs.info(1)") s))) = [].
Proof.
  exact (cached_token_one_call (ExecuteScript "gs.info(1)")
           (snd (authenticate (fresh [Responds 40 users_page;
                                      Responds 30 script_done])))
           30 script_done [] eq_refl eq_refl eq_refl).
Defined.

(** X5. With a valid cached token and a 2xx answer whose body is a JSON
    object, [queryRecords], [getRecord], [createRecord], [updateRecord]
    and [executeScript] return the [result] member of that object
    ([undefined] when it has none), [deleteRecord] returns [undefined] and
    [testConnection] returns [true]. *)
Theorem operations_return_result_member :
  forall (op : Operation) (s : Sys) (d : Z) (r : Response)
         (rest : list net_event) (b : Body)
         (members : list (string * Js.json)),
    token_valid (this s) (now (world s)) = true ->
    net (world s) = Responds d r :: rest ->
    ok r = true ->
    body r = Some b -> bodyUsed r = false ->
    parsed b = Some (Js.JObj members) ->
    fst (perform op s)
    = match op with
      | DeleteRecord _ _ => Ret Js.undefined
      | TestConnection => Ret (Some (Js.JBool true))
      | _ => Ret (Js.assoc "result" members)
      end.
Proof.
  intros op s d r rest b members V N O B U P.
  assert (J : fst (json r) = Ret (Js.JObj members))
    by (unfold json; rewrite B, U, P; reflexivity).
  assert (R : request (fst (request_of op)) (snd (request_of op)) s
              = (Ret (Js.JObj members),
                 mkSys (this s)
                   (elapse d (world s) rest
                      (request_call (this s) (fst (request_of op))
                                    (snd (request_of op))))))
    by (rewrite <- J; apply request_cached_ok; auto;
        destruct op; reflexivity).
  destruct op; cbn [perform request_of fst snd] in *;
    unfold queryRecords, getRecord, createRecord, updateRecord, deleteRecord,
           executeScript, testConnection, result_of, try_catch, bind, lift,
           throw, ret;
    rewrite ?(authenticate_cached s V), ?R; reflexivity.
Qed.

Lemma operations_return_result_member_witness :
  fst (perform (ExecuteScript "gs.info(1)")
         (snd (authenticate (fresh [Responds 40 users_page;
                                    Responds 30 script_done]))))
  = Ret (Some (Js.JStr "done")).
Proof.
  exact (operations_return_result_member (ExecuteScript "gs.info(1)")
           (snd (authenticate (fresh [Responds 40 users_page;
                                      Responds 30 script_done])))
           30 script_done []
           (mkBody (render (Js.JObj [("result", Js.JStr "done")]))
                   (Some (Js.JObj [("result", Js.JStr "done")])))
           [("result", Js.JStr "done")]
           eq_refl eq_refl eq_refl eq_refl eq_refl eq_refl).
Defined.

(** X6. [deleteRecord] reads the body of the answer as JSON although it
    does not use it: when the DELETE is answered with a 2xx response that
    has no body, as a 204 has, the record is deleted on the instance and
    [deleteRecord] throws all the same. *)
Theorem deleteRecord_throws_on_empty_answer :
  forall (tbl sysId : string) (s : Sys) (d : Z) (r : Response)
         (rest : list net_event),
    token_valid (this s) (now (world s)) = true ->
    net (world s) = Responds d r :: rest ->
    ok r = true ->
    body r = None ->
    fst (deleteRecord tbl sysId s)
    = Throw (Js.Error (("Failed to delete " ++ tbl ++ " record: ")
                       ++ "Unexpected end of JSON input"))
    /\ log (world (snd (deleteRecord tbl sysId s)))
       = List.app (log (world s))
           [mkCall (baseUrl (this s) ++ "api/now/v2/table/" ++ tbl
                    ++ "/" ++ sysId)
              (mkInit (Some "DELETE")
                 [("Accept", "application/json");
                  ("Content-Type", "application/json");
                  ("Authorization", "Basic " ++ token_text (this s))]
                 None None)].
Proof.
  intros tbl sysId s d r rest V N O B.
  unfold deleteRecord, try_catch, bind.
  rewrite (request_cached_ok ("table/" ++ tbl ++ "/" ++ sysId)
             (mkInit (Some "DELETE") [] None None) s d r rest V N O eq_refl).
  unfold json. rewrite B. split; [reflexivity|].
  cbn [fst snd world log elapse]. reflexivity.
Qed.

Lemma deleteRecord_throws_on_empty_answer_witness :
  fst (deleteRecord "incident" "0c5f"
         (snd (authenticate
                 (fresh [Responds 40 users_page;
                         Responds 30 (bare_response 204 "No Content")]))))
  = Throw (Js.Error
      "Failed to delete incident record: Unexpected end of JSON input").
Proof.
  exact (proj1 (deleteRecord_throws_on_empty_answer "incident" "0c5f"
           (snd (authenticate
                   (fresh [Responds 40 users_page;
                           Responds 30 (bare_response 204 "No Content")])))
           30 (bare_response 204 "No Content") []
           eq_refl eq_refl eq_refl eq_refl)).
Defined.

(** An operation other than [testConnection] leaves the state in which
    its [request] ends. *)
Lemma perform_state_of_request op s out s' :
  op <> TestConnection ->
  request (fst (request_of op)) (snd (request_of op)) s = (out, s') ->
  snd (perform op s) = s'.
Proof.
  intros N R.
  destruct op; try congruence; cbn [perform request_of fst snd] in *;
    unfold queryRecords, getRecord, createRecord, updateRecord, deleteRecord,
           executeScript, result_of, try_catch, bind, lift, throw, ret;
    rewrite R; destruct out as [j|e|]; simpl; try reflexivity;
    destruct (member j "result"); reflexivity.
Qed.

Lemma json_never_401 r : 
  match fst (json r) with
  | Throw e => status_is e 401 = false
  | _ => True
  end.
Proof.
  unfold json. destruct (body r) as [b|]; [|reflexivity].
  destruct (bodyUsed r); [reflexivity|]. destruct (parsed b); simpl; auto.
Qed.

(** [request] when the token has to be renewed and both answers are 2xx. *)
Lemma request_renewed_ok endpoint options s d1 r1 d2 r2 rest :
  token_valid (this s) (now (world s)) = false ->
  empty_credentials (this s) = false ->
  net (world s) = Responds d1 r1 :: Responds d2 r2 :: rest ->
  ok r1 = true -> ok r2 = true ->
  signal options = None ->
  let t' := set_token (Some (basic_token (this s)))
                      (now (world s) + 3600000) (this s) in
  request endpoint options s
  = (fst (json r2),
     mkSys t'
       (elapse d2
          (elapse d1 (world s) (Responds d2 r2 :: rest) (verification_call t'))
          rest (request_call t' endpoint options))).
Proof.
  intros V E N O1 O2 S t'.
  unfold empty_credentials in E. apply orb_false_iff in E.
  destruct E as (U & P). apply negb_false_iff in U, P.
  rewrite request_unfold.
  destruct s as [t w]. cbn [this world] in *.
  rewrite (ClientTheorems.authenticate_verified t w d1 r1
             (Responds d2 r2 :: rest) V U P N O1).
  fold (basic_token t). fold t'.
  unfold dispatch, request_call. run_monad. rewrite S. simpl.
  rewrite O2. simpl.
  pose proof (json_never_401 r2) as J.
  destruct (fst (json r2)) as [j|e|]; try reflexivity.
  rewrite J. reflexivity.
Qed.

Lemma ascii_only_app a b :
  ascii_only (a ++ b) = ascii_only a && ascii_only b.
Proof.
  unfold ascii_only. induction a as [|ch a IH]; simpl; [reflexivity|].
  rewrite IH. apply andb_assoc.
Qed.

(** X7. When the cached token is missing or expired and the username and
    the password are not empty and made of ASCII characters, which [btoa]
    takes, as is then the text handed to it, an operation whose
    verification and request are both answered with 2xx makes exactly two
    network calls, the verification request and then the request, both
    with the renewed token; the new expiry is one hour after the time of
    the call. *)
Theorem expired_token_renewed_once :
  forall (op : Operation) (s : Sys) (d1 d2 : Z) (r1 r2 : Response)
         (rest : list net_event),
    token_valid (this s) (now (world s)) = false ->
    empty_credentials (this s) = false ->
    ascii_only (username (this s)) = true ->
    ascii_only (password (this s)) = true ->
    net (world s) = Responds d1 r1 :: Responds d2 r2 :: rest ->
    ok r1 = true -> ok r2 = true ->
    Z.max 0 d1 < 3600000 ->
    let t' := set_token (Some (basic_token (this s)))
                        (now (world s) + 3600000) (this s) in
    ascii_only (username (this s) ++ ":" ++ password (this s)) = true
    /\ this (snd (perform op s)) = t'
    /\ log (world (snd (perform op s)))
       = (log (world s)
          ++ [verification_call t';
              request_call t' (fst (request_of op)) (snd (request_of op))])%list
    /\ net (world (snd (perform op s))) = rest.
Proof.
  intros op s d1 d2 r1 r2 rest V E A1 A2 N O1 O2 D t'.
  split; [rewrite !ascii_only_app, A1, A2; reflexivity|].
  assert (L : forall l (a b : FetchCall),
             ((l ++ [a]) ++ [b] = l ++ [a; b])%list)
    by (intros; rewrite <- app_assoc; reflexivity).
  destruct (Operation_eq_TestConnection op) as [->|T].
  - (* testConnection: authenticate, then request on the new token *)
    pose proof E as E'.
    unfold empty_credentials in E'. apply orb_false_iff in E'.
    destruct E' as (U & P). apply negb_false_iff in U, P.
    destruct s as [t w]. cbn [this world] in *.
    assert (Q : snd (perform TestConnection (mkSys t w))
                = mkSys t'
                    (elapse d2
                       (elapse d1 w (Responds d2 r2 :: rest)
                               (verification_call t'))
                       rest
                       (request_call t' "table/sys_user?sysparm_limit=1"
                                     no_init))).
    { cbn [perform]. unfold testConnection, try_catch, bind.
      rewrite (ClientTheorems.authenticate_verified t w d1 r1
                 (Responds d2 r2 :: rest) V U P N O1).
      fold (basic_token t). fold t'.
      rewrite (request_cached_ok "table/sys_user?sysparm_limit=1" no_init
                 _ d2 r2 rest).
      - destruct (fst (json r2)); reflexivity.
      - unfold t', token_valid, set_token, basic_token.
        cbn [this world accessToken tokenExpiry now elapse].
        rewrite btoa_truthy. cbn [andb]. apply Z.ltb_lt. lia.
      - reflexivity.
      - exact O2.
      - reflexivity. }
    rewrite Q. cbn. rewrite L. repeat split.
  - assert (S : signal (snd (request_of op)) = None)
      by (destruct op; reflexivity).
    rewrite (perform_state_of_request op s _ _ T
               (request_renewed_ok (fst (request_of op))
                  (snd (request_of op)) s d1 r1 d2 r2 rest V E N O1 O2 S)).
    cbn. rewrite L. repeat split.
Qed.

Lemma expired_token_renewed_once_witness :
  let s := fresh [Responds 40 users_page; Responds 30 script_done] in
  let t' := set_token (Some "YWRtaW46c2VjcmV0") 3601000 (this s) in
  this (snd (perform (ExecuteScript "gs.info(1)") s)) = t'
  /\ log (world (snd (perform (ExecuteScript "gs.info(1)") s)))
     = [verification_call t';
        request_call t' (fst (request_of (ExecuteScript "gs.info(1)")))
                     (snd (request_of (ExecuteScript "gs.info(1)")))]
  /\ net (world (snd (perform (ExecuteScript "gs.info(1)") s))) = [].
Proof.
  exact (proj2
           (expired_token_renewed_once (ExecuteScript "gs.info(1)")
              (fresh [Responds 40 users_page; Responds 30 script_done])
              40 30 users_page script_done []
              eq_refl eq_refl eq_refl eq_refl eq_refl eq_refl eq_refl
              eq_refl)).
Defined.

(** *** The token that is sent *)

Lemma sends_token_refl s : sends_token s s.
Proof. intros I. split; [exact I|apply extends_refl]. Qed.

Lemma sends_token_trans s1 s2 s3 :
  sends_token s1 s2 -> sends_token s2 s3 -> sends_token s1 s3.
Proof.
  intros A B I. destruct (A I) as (I2 & E12). destruct (B I2) as (I3 & E23).
  split; [exact I3|].
  assert (Q : basic_token (this s2) = basic_token (this s1)).
  { destruct E12 as ((_ & U & P & _) & _). unfold basic_token.
    rewrite U, P. reflexivity. }
  rewrite Q in E23. eapply extends_trans; eassumption.
Qed.

Section Respects.

Variable R : Sys -> Sys -> Prop.
Hypothesis R_refl : forall s, R s s.
Hypothesis R_trans : forall s1 s2 s3, R s1 s2 -> R s2 s3 -> R s1 s3.

Lemma respects_bind {A B} (m : M Sys A) (k : A -> M Sys B) :
  respects R m -> (forall a, respects R (k a)) -> respects R (bind m k).
Proof.
  intros Hm Hk s. unfold bind. specialize (Hm s).
  destruct (m s) as [[a|e|] s1]; simpl in Hm; try exact Hm.
  eapply R_trans; [exact Hm|apply Hk].
Qed.

Lemma respects_try_catch {A} (m : M Sys A) (h : Js.exn -> M Sys A) :
  respects R m -> (forall e, respects R (h e)) -> respects R (try_catch m h).
Proof.
  intros Hm Hh s. unfold try_catch. specialize (Hm s).
  destruct (m s) as [[a|e|] s1]; simpl in Hm; try exact Hm.
  eapply R_trans; [exact Hm|apply Hh].
Qed.

Lemma respects_lift {A} (o : outcome A) : respects R (lift o).
Proof. intros s. apply R_refl. Qed.

Lemma respects_ret {A} (a : A) : respects R (ret a).
Proof. intros s. apply R_refl. Qed.

Lemma respects_throw {A} (e : Js.exn) : respects R (@throw Sys A e).
Proof. intros s. apply R_refl. Qed.

End Respects.

(** A successful [authenticate] leaves a token in the instance. *)
Lemma authenticate_ret_token s :
  fst (authenticate s) = Ret tt ->
  exists tok, accessToken (this (snd (authenticate s))) = Some tok.
Proof.
  unfold authenticate. run_monad.
  destruct (token_valid (this s) (now (world s))) eqn:V; simpl.
  { intros _. unfold token_valid in V.
    destruct (accessToken (this s)) as [tok|]; [eauto|discriminate]. }
  destruct (Js.truthy (username (this s))); simpl; [|discriminate].
  destruct (Js.truthy (password (this s))); simpl; [|discriminate].
  destruct (net (world s)) as [|[d r|d|] rest]; simpl; try discriminate.
  destruct (ok r); simpl; [eauto|].
  unfold text. destruct (body r) as [b|]; [destruct (bodyUsed r)|]; simpl;
    discriminate.
Qed.

Lemma authenticate_sends_token : respects sends_token authenticate.
Proof.
  intros s I. destruct (authenticate_effect s) as (T & L & _).
  pose proof (authenticated_instance_identity s) as Id.
  assert (I' : token_inv (authenticated_instance s)).
  { unfold authenticated_instance.
    destruct (token_valid _ _); [exact I|].
    destruct (negb _ || negb _); [exact I|]. right. reflexivity. }
  split; [rewrite T; exact I'|].
  split; [rewrite T; exact Id|].
  eexists. split; [exact L|].
  unfold verifies, authenticated_instance.
  destruct (token_valid _ _); simpl; [constructor|].
  destruct (Js.truthy (username (this s))); simpl; [|constructor].
  destruct (Js.truthy (password (this s))); simpl; constructor;
    [reflexivity|constructor].
Qed.

Lemma request_fuel_sends_token fuel : forall endpoint options,
  headers options = [] ->
  respects sends_token (request_fuel fuel endpoint options).
Proof.
  induction fuel as [|fuel IH]; intros endpoint options H s.
  { simpl. apply sends_token_refl. }
  rewrite request_fuel_step.
  pose proof (authenticate_sends_token s) as A.
  pose proof (authenticate_ret_token s) as Tk.
  destruct (authenticate s) as [[[]|e|] s1]; simpl in A, Tk; try exact A.
  destruct (Tk eq_refl) as (tok & Tok).
  pose proof (dispatch_effect (request_url (this s1) endpoint) options
                (request_headers (this s1) options) s1) as (T & L & _).
  assert (D : sends_token s1
                (snd (dispatch (request_url (this s1) endpoint) options
                        (request_headers (this s1) options) s1))).
  { intros I1. split; [rewrite T; exact I1|].
    split; [rewrite T; apply same_identity_refl|].
    eexists. split; [exact L|]. constructor; [|constructor].
    unfold authorized_by, request_headers, token_text. rewrite H, Tok.
    destruct I1 as [I1|I1]; rewrite Tok in I1; [discriminate|].
    injection I1 as ->. reflexivity. }
  destruct (dispatch _ _ _ s1) as [[j|e|] s2]; simpl in D;
    try (eapply sends_token_trans; eassumption).
  destruct (status_is e 401); [|eapply sends_token_trans; eassumption].
  eapply sends_token_trans; [exact A|].
  eapply sends_token_trans; [exact D|].
  eapply sends_token_trans; [|apply IH; exact H].
  intros _. split; [left; reflexivity|apply extends_set_token].
Qed.

Lemma perform_sends_token op : respects sends_token (perform op).
Proof.
  assert (Rq : forall endpoint options,
             headers options = [] ->
             respects sends_token (request endpoint options)).
  { intros endpoint options H s. unfold request.
    apply request_fuel_sends_token. exact H. }
  destruct op; cbn [perform];
    unfold queryRecords, getRecord, createRecord, updateRecord, deleteRecord,
           executeScript, testConnection, result_of;
    repeat first
      [ apply authenticate_sends_token
      | apply Rq; reflexivity
      | apply (respects_try_catch sends_token sends_token_trans); [|intros]
      | apply (respects_bind sends_token sends_token_trans); [|intros]
      | apply (respects_lift sends_token sends_token_refl)
      | apply (respects_ret sends_token sends_token_refl)
      | apply (respects_throw sends_token sends_token_refl) ].
Qed.

(** X8. The only credential a client sends is the Basic token of its own
    username and password: starting from a client whose cached token, if
    any, is that token (a new client has none), every network call of
    every public operation carries it in its Authorization header, and
    the token cached afterwards, if any, is again that token. *)
Theorem only_own_token_is_sent :
  forall (op : Operation) (s : Sys),
    token_inv (this s) ->
    token_inv (this (snd (perform op s)))
    /\ exists calls,
         log (world (snd (perform op s))) = (log (world s) ++ calls)%list
         /\ Forall (authorized_by (basic_token (this s))) calls.
Proof.
  intros op s I. destruct (perform_sends_token op s I) as (I' & _ & C).
  split; [exact I'|exact C].
Qed.

Lemma only_own_token_is_sent_witness :
  let s := fresh (rounds 1 [Responds 40 users_page;
                            Responds 30 script_done]) in
  token_inv (this (snd (perform (ExecuteScript "gs.info(1)") s)))
  /\ exists calls,
       log (world (snd (perform (ExecuteScript "gs.info(1)") s)))
       = (log (world s) ++ calls)%list
       /\ Forall (authorized_by (basic_token (this s))) calls.
Proof.
  exact (only_own_token_is_sent (ExecuteScript "gs.info(1)")
           (fresh (rounds 1 [Responds 40 users_page;
                             Responds 30 script_done]))
           (or_introl eq_refl)).
Defined.

(** X9. [queryRecords] with no filter, no field list and no ordering (each
    absent or empty) and the default limit and offset asks for
    [table/T?sysparm_limit=10&sysparm_offset=0]: an empty filter is no
    filter, and an order direction without [orderBy] is not sent. *)
Theorem query_defaults :
  forall (tbl : string) (q : option string) (flds : option (list string))
         (ob : option string) (dir : option direction),
    opt_truthy q = false ->
    flds = None \/ flds = Some [] ->
    opt_truthy ob = false ->
    query_endpoint (mkQuery tbl q None None flds ob dir)
    = ("table/" ++ tbl) ++ "?sysparm_limit=10&sysparm_offset=0".
Proof.
  intros tbl q flds ob dir Q F O. unfold query_endpoint.
  cbn [query limit offset fields orderBy orderDirection table].
  rewrite Q, O. destruct F as [-> | ->]; reflexivity.
Qed.

Lemma query_defaults_witness :
  query_endpoint (mkQuery "incident" (Some "") None None (Some [])
                          None (Some asc))
  = "table/incident?sysparm_limit=10&sysparm_offset=0".
Proof.
  exact (query_defaults "incident" (Some "") (Some []) None (Some asc)
           eq_refl (or_intror eq_refl) eq_refl).
Defined.

End ClientExtras.

(** ** Further properties of chat persistence *)

Module ChatExtras.

Import Supabase Chat StoreProps StoreExtraProps StoreSamples.
Import ErrorPathTheorems ChatTheorems.

(** The tables after a call of the query builder that deletes or reads:
    the store before it, but for the scheduled answers. *)
Lemma called_tables {A} (run : Store -> answer A * Store) st :
  exists st0,
    conversations st0 = conversations st
    /\ messages st0 = messages st
    /\ clock st0 = clock st
    /\ (call run st = (Ret (fst (run st0)), snd (run st0))
        \/ exists c m, call run st = (Ret (Failed c m), st0)).
Proof.
  destruct (called run st) as [(c & m & rest & _ & ->) | (st0 & H & ->)].
  - exists (with_faults rest st). repeat split; eauto.
  - exists st0. destruct H as [->|(rest & ->)]; repeat split; auto.
Qed.

Lemma call_unfaulted_store {A} (run : Store -> answer A * Store) st :
  unfaulted 1 st ->
  exists st0,
    (st0 = st \/ st0 = with_faults (tl (faults st)) st)
    /\ call run st = (Ret (fst (run st0)), snd (run st0)).
Proof.
  unfold unfaulted, call. intros U.
  destruct (faults st) as [|[[c m]|] rest] eqn:F.
  - exists st. split; [auto|]. destruct (run st); reflexivity.
  - simpl in U. inversion U as [|? ? H]; discriminate.
  - exists (with_faults rest st). split; [auto|].
    destruct (run _); reflexivity.
Qed.

(** What [deleteConversation] returns and leaves, case by case. *)
Lemma deleteConversation_cases cid st :
  let r := deleteConversation cid st in
  (fst r = Ret true
   /\ conversations (snd r) = without_conversation cid (conversations st)
   /\ messages (snd r) = without_messages_of cid (messages st))
  \/ (fst r = Ret false
      /\ conversations (snd r) = conversations st
      /\ (messages (snd r) = messages st
          \/ messages (snd r) = without_messages_of cid (messages st))).
Proof.
  unfold deleteConversation, try_catch, bind, delete_messages_of,
         delete_conversation_row, ret.
  match goal with
  | |- context [call ?run st] =>
      destruct (called_tables run st) as (s0 & C0 & M0 & _ & [-> | (c & m & ->)])
  end; cbn [fst snd]; [|right; auto].
  match goal with
  | |- context [call ?run ?s] =>
      destruct (called_tables run s) as (s1 & C1 & M1 & _ & [-> | (c & m & ->)])
  end; cbn [fst snd].
  - left. split; [reflexivity|]. cbn in C1, M1 |- *.
    rewrite C1, M1, C0, M0. split; [reflexivity|].
    unfold without_messages_of.
    generalize (messages st). intros l. induction l as [|x l IH]; simpl;
      [reflexivity|].
    destruct (String.eqb (msg_conversation_id x) cid) eqn:Q; simpl;
      [exact IH|rewrite Q; simpl; f_equal; exact IH].
  - right. split; [reflexivity|]. cbn in C1, M1. rewrite C1, M1, C0, M0.
    auto.
Qed.

(** Reading a conversation that the store does not hold. *)
Lemma get_absent cid st :
  filter (fun c => String.eqb (conv_id c) cid) (conversations st) = [] ->
  fst (getConversationWithMessages cid st) = Ret None.
Proof.
  intros H.
  unfold getConversationWithMessages, try_catch, bind, select_conversation.
  match goal with
  | |- context [call ?run st] =>
      destruct (called_tables run st) as (s0 & C0 & _ & _ & [-> | (c & m & ->)])
  end; cbn [fst snd]; [|reflexivity].
  rewrite C0, H. reflexivity.
Qed.

Lemma filter_without {A} (f : A -> bool) (l : list A) :
  filter f (filter (fun a => negb (f a)) l) = [].
Proof.
  induction l as [|a l IH]; simpl; [reflexivity|].
  destruct (f a) eqn:Q; simpl; [exact IH|rewrite Q; exact IH].
Qed.

(** X10. In the session of the owner of a stored conversation, when
    [deleteConversation] returns [true], the conversation row and every
    message of the conversation are gone, all other rows are as they were
    and in their order, and reading the conversation afterwards gives
    [null]; every row that is gone is one that the policies of the tables
    let this session delete.  (In another session the policies make the
    store skip the rows without an error.) *)
Theorem deleted_conversation_is_gone :
  forall (cid : string) (st st' : Store),
    session_owns cid st ->
    deleteConversation cid st = (Ret true, st') ->
    conversations st' = without_conversation cid (conversations st)
    /\ messages st' = without_messages_of cid (messages st)
    /\ fst (getConversationWithMessages cid st') = Ret None
    /\ (forall c, In c (conversations st) -> ~ In c (conversations st') ->
         visible_conversation st c)
    /\ (forall m, In m (messages st) -> ~ In m (messages st') ->
         visible_message st m).
Proof.
  intros cid st st' ((c0 & I0 & E0) & Own) H.
  pose proof (deleteConversation_cases cid st) as D. cbv zeta in D.
  rewrite H in D. cbn [fst snd] in D.
  destruct D as [(_ & C & M) | (F & _)]; [|discriminate].
  split; [exact C|]. split; [exact M|].
  split; [apply get_absent; rewrite C; apply filter_without|].
  split.
  - intros c I N. apply Own; [exact I|].
    destruct (String.eqb_spec (conv_id c) cid) as [E|D]; [exact E|].
    exfalso. apply N. rewrite C. apply filter_In. split; [exact I|].
    apply negb_true_iff, String.eqb_neq, D.
  - intros m I N. exists c0. split; [exact I0|]. split; [|auto].
    destruct (String.eqb_spec (msg_conversation_id m) cid) as [E|D];
      [congruence|].
    exfalso. apply N. rewrite M. apply filter_In. split; [exact I|].
    apply negb_true_iff, String.eqb_neq, D.
Qed.

Lemma deleted_conversation_is_gone_witness :
  let st := snd (saveConversation "user-1" "Title" [m1; m2] (store [])) in
  conversations (snd (deleteConversation "uuid-0" st))
  = without_conversation "uuid-0" (conversations st)
  /\ messages (snd (deleteConversation "uuid-0" st))
     = without_messages_of "uuid-0" (messages st)
  /\ fst (getConversationWithMessages "uuid-0"
            (snd (deleteConversation "uuid-0" st))) = Ret None.
Proof.
  assert (O : session_owns "uuid-0"
                (snd (saveConversation "user-1" "Title" [m1; m2] (store [])))).
  { split.
    - eexists. split; [left; reflexivity|reflexivity].
    - intros c [<-|[]] _. reflexivity. }
  destruct (deleted_conversation_is_gone "uuid-0"
              (snd (saveConversation "user-1" "Title" [m1; m2] (store [])))
              (snd (deleteConversation "uuid-0"
                      (snd (saveConversation "user-1" "Title" [m1; m2]
                              (store [])))))
              O eq_refl) as (C & M & G & _).
  split; [exact C|]. split; [exact M|exact G].
Defined.



Lemma messagesToInsert_invalid cid m msgs :
  In m msgs -> timestamp m = InvalidDate ->
  exists e, messagesToInsert cid msgs = Throw e.
Proof.
  induction msgs as [|x msgs IH]; intros H T; [contradiction|].
  simpl. destruct H as [->|H].
  - rewrite T. simpl. eauto.
  - destruct (timestamp x); simpl; [|eauto].
    destruct (IH H T) as (e & ->). eauto.
Qed.

(** What a [saveConversation] that returns [null] has written. *)
Lemma saveConversation_null owner ttl msgs st :
  let r := saveConversation owner ttl msgs st in
  fst r = Ret None ->
  messages (snd r) = messages st
  /\ (conversations (snd r) = conversations st
      \/ exists cid,
           conversations (snd r)
           = (conversations st ++ [saved_row cid owner ttl st])%list).
Proof.
  unfold saveConversation, try_catch, bind, new_Date, insert_conversation,
         saved_row.
  cbv zeta. cbn [fst snd].
  match goal with
  | |- context [call ?run ?s] =>
      destruct (called_tables run s)
        as (s0 & C0 & M0 & K0 & [-> | (c & m & ->)])
  end; cbn [fst snd]; cbn [ticked conversations messages] in C0, M0; [|auto].
  assert (Fin : forall s1,
             messages s1 = messages s0 ->
             conversations s1 = conversations s0
             \/ conversations s1
                = (conversations s0
                   ++ [mkConversationRow (uuid_gen s0 (uuid_next s0)) owner
                         ttl (clock st) (clock (ticked st))])%list ->
             messages s1 = messages st
             /\ (conversations s1 = conversations st
                 \/ exists cid,
                      conversations s1
                      = (conversations st
                         ++ [mkConversationRow cid owner ttl (clock st)
                               (clock (ticked st))])%list)).
  { intros s1 M [C|C]; (split; [congruence|]);
      [left; congruence|right; eexists; rewrite C, C0; reflexivity]. }
  destruct (existsb _ (conversations s0)); simpl;
    [intros _; apply Fin; simpl; auto|].
  unfold lift.
  destruct (messagesToInsert _ msgs) as [ins|e|]; simpl;
    try solve [intros Q;
               first [discriminate Q
                     |split; [congruence
                             |right; eexists; rewrite C0; reflexivity]]].
  unfold insert_messages.
  match goal with
  | |- context [call ?run ?s] =>
      destruct (called_tables run s)
        as (s1 & C1 & M1 & _ & [-> | (c & m & ->)])
  end; simpl in C1, M1 |- *.
  - destruct (negb (distinct _)); simpl;
      [|destruct (forallb _ _); simpl];
      intros Q; first [discriminate Q|apply Fin; simpl; auto].
  - intros _. apply Fin; auto.
Qed.



(** X13. A message whose timestamp is an invalid date makes
    [saveConversation] return [null] without storing any message; the
    timestamps are converted only after the conversation row has been
    inserted, so that row stays when the insert went through. *)
Theorem invalid_timestamp_fails_save :
  forall (owner ttl : string) (msgs : list ChatMessage) (m : ChatMessage)
         (st : Store),
    In m msgs ->
    timestamp m = InvalidDate ->
    fst (saveConversation owner ttl msgs st) = Ret None
    /\ messages (snd (saveConversation owner ttl msgs st)) = messages st
    /\ (unfaulted 1 st ->
        existsb (fun c => String.eqb (conv_id c) (uuid_gen st (uuid_next st)))
                (conversations st) = false ->
        conversations (snd (saveConversation owner ttl msgs st))
        = (conversations st
           ++ [saved_row (uuid_gen st (uuid_next st)) owner ttl st])%list).
Proof.
  intros owner ttl msgs m st H T.
  assert (N : fst (saveConversation owner ttl msgs st) = Ret None).
  { unfold saveConversation, try_catch, bind, new_Date, insert_conversation.
    cbn [fst snd].
    match goal with
    | |- context [call ?run ?s] =>
        destruct (called_tables run s)
          as (s0 & _ & _ & _ & [-> | (c & e & ->)])
    end; simpl; [|reflexivity].
    destruct (existsb _ (conversations s0)); simpl; [reflexivity|].
    unfold lift.
    destruct (messagesToInsert_invalid (uuid_gen s0 (uuid_next s0)) m msgs H T)
      as (e & ->). reflexivity. }
  split; [exact N|].
  split; [exact (proj1 (saveConversation_null owner ttl msgs st N))|].
  intros U Fresh.
  unfold saveConversation, try_catch, bind, new_Date, insert_conversation,
         saved_row.
  cbn [fst snd].
  match goal with
  | |- context [call ?run ?s] =>
      destruct (call_unfaulted_store run s U) as (s0 & Hs0 & ->)
  end.
  destruct Hs0 as [-> | ->]; simpl; rewrite Fresh; simpl; unfold lift;
    destruct (messagesToInsert_invalid (uuid_gen st (uuid_next st)) m msgs H T)
      as (e & ->); reflexivity.
Qed.

Lemma invalid_timestamp_fails_save_witness :
  let broken := mkMessage "m3" "lost" "user" InvalidDate None in
  fst (saveConversation "user-1" "Title" [m1; broken] (store [])) = Ret None
  /\ messages (snd (saveConversation "user-1" "Title" [m1; broken]
                      (store []))) = []
  /\ conversations (snd (saveConversation "user-1" "Title" [m1; broken]
                           (store [])))
     = [saved_row "uuid-0" "user-1" "Title" (store [])].
Proof.
  intros broken.
  pose proof (invalid_timestamp_fails_save "user-1" "Title" [m1; broken]
                broken (store []) (or_intror (or_introl eq_refl)) eq_refl)
    as (N & M & C).
  split; [exact N|]. split; [exact M|].
  exact (C (Forall_nil _) eq_refl).
Defined.

(** *** [ORDER BY] *)

Lemma insert_by_perm {A} (key : A -> Z) x l :
  Permutation (insert_by key x l) (x :: l).
Proof.
  induction l as [|y l IH]; simpl; [reflexivity|].
  destruct (key x <=? key y); [reflexivity|].
  rewrite IH. apply perm_swap.
Qed.

Lemma order_asc_perm {A} (key : A -> Z) l : Permutation (order_asc key l) l.
Proof.
  unfold order_asc. induction l as [|x l IH]; simpl; [reflexivity|].
  rewrite insert_by_perm. constructor. exact IH.
Qed.

Lemma insert_by_sorted {A} (key : A -> Z) x l :
  StronglySorted (fun a b => key a <= key b) l ->
  StronglySorted (fun a b => key a <= key b) (insert_by key x l).
Proof.
  induction l as [|y l IH]; simpl; intros S.
  - constructor; constructor.
  - destruct (Z.leb_spec (key x) (key y)) as [L|L].
    + constructor; [exact S|].
      inversion S as [|? ? S' F]; subst. constructor; [exact L|].
      eapply Forall_impl; [|exact F]. simpl. intros; lia.
    + inversion S as [|? ? S' F]; subst. constructor; [apply IH; exact S'|].
      eapply Permutation_Forall; [symmetry; apply insert_by_perm|].
      constructor; [lia|exact F].
Qed.

Lemma order_asc_sorted {A} (key : A -> Z) l :
  StronglySorted (fun a b => key a <= key b) (order_asc key l).
Proof.
  unfold order_asc. induction l as [|x l IH]; simpl; [constructor|].
  apply insert_by_sorted. exact IH.
Qed.

Lemma StronglySorted_map {A B} (f : A -> B) (P : A -> A -> Prop)
      (Q : B -> B -> Prop) l :
  (forall a b, P a b -> Q (f a) (f b)) ->
  StronglySorted P l -> StronglySorted Q (map f l).
Proof.
  intros H S. induction S as [|a l S IH F]; simpl; constructor; auto.
  apply Forall_map. eapply Forall_impl; [|exact F]. intros b. apply H.
Qed.

(** X14. In the session of the owner and when the store answers,
    [getConversations(owner)] lists exactly the conversations of the
    owner, each once and without its messages, the most recently updated
    first.  (To another session the policy of the table shows no row.) *)
Theorem conversations_listed_newest_first :
  forall (owner : string) (st : Store),
    auth_uid st = Some owner ->
    unfaulted 1 st ->
    exists rows,
      fst (getConversations owner st) = Ret (map listed rows)
      /\ Permutation rows
           (filter (fun c => String.eqb (conv_user_id c) owner)
                   (conversations st))
      /\ StronglySorted newer_first (map listed rows)
      /\ Forall (visible_conversation st) rows.
Proof.
  intros owner st A U.
  unfold getConversations, try_catch, bind, select_conversations_of.
  match goal with
  | |- context [call ?run st] =>
      destruct (call_unfaulted_store run st U) as (s0 & Hs0 & ->)
  end.
  assert (C0 : conversations s0 = conversations st)
    by (destruct Hs0 as [-> | ->]; reflexivity).
  cbn [fst snd ret]. rewrite C0.
  eexists. split; [reflexivity|]. split; [|split].
  - apply order_asc_perm.
  - eapply StronglySorted_map; [|apply order_asc_sorted].
    intros a b. unfold newer_first, listed. simpl. lia.
  - apply Forall_forall. intros c I.
    apply (Permutation_in _ (order_asc_perm _ _)) in I.
    apply filter_In in I. destruct I as (_ & E).
    apply String.eqb_eq in E. unfold visible_conversation.
    rewrite E. exact A.
Qed.

Lemma conversations_listed_newest_first_witness :
  exists rows,
    fst (getConversations "user-1"
           (snd (saveConversation "user-1" "Title" [m1; m2] (store []))))
    = Ret (map listed rows)
    /\ Permutation rows
         (filter (fun c => String.eqb (conv_user_id c) "user-1")
                 (conversations
                    (snd (saveConversation "user-1" "Title" [m1; m2]
                            (store [])))))
    /\ StronglySorted newer_first (map listed rows).
Proof.
  destruct (conversations_listed_newest_first "user-1"
              (snd (saveConversation "user-1" "Title" [m1; m2] (store [])))
              eq_refl (Forall_nil _)) as (rows & G & P & S & _).
  exists rows. split; [exact G|]. split; [exact P|exact S].
Defined.

(** *** [updateConversationTitle] *)

Lemma updateConversationTitle_cases cid ttl st :
  let r := updateConversationTitle cid ttl st in
  messages (snd r) = messages st
  /\ clock (snd r) = clock (ticked st)
  /\ ((fst r = Ret true
       /\ conversations (snd r)
          = map (retitled cid ttl (clock st)) (conversations st))
      \/ (fst r = Ret false /\ conversations (snd r) = conversations st)).
Proof.
  unfold updateConversationTitle, try_catch, bind, new_Date,
         update_conversation.
  cbv zeta. cbn [fst snd].
  match goal with
  | |- context [call ?run ?s] =>
      destruct (called_tables run s)
        as (s0 & C0 & M0 & K0 & [-> | (c & m & ->)])
  end; cbn [ticked conversations messages] in C0, M0;
    simpl; rewrite ?C0, ?M0, ?K0; auto.
Qed.

Lemma conv_id_retitled cid ttl time c :
  conv_id (retitled cid ttl time c) = conv_id c.
Proof. unfold retitled. destruct (String.eqb (conv_id c) cid); reflexivity. Qed.


Lemma map_retitled_absent cid ttl time l :
  filter (fun c => String.eqb (conv_id c) cid) l = [] ->
  map (retitled cid ttl time) l = l.
Proof.
  induction l as [|c l IH]; simpl; [reflexivity|].
  unfold retitled at 1.
  destruct (String.eqb (conv_id c) cid); [discriminate|].
  intros H. rewrite (IH H). reflexivity.
Qed.



(** X16. [updateConversationTitle] does not look at what the update
    matched: for an id that no stored conversation has it returns [true],
    when the store answers, although no row has changed. *)
Theorem retitle_of_absent_reports_success :
  forall (cid ttl : string) (st : Store),
    unfaulted 1 st ->
    filter (fun x => String.eqb (conv_id x) cid) (conversations st) = [] ->
    fst (updateConversationTitle cid ttl st) = Ret true
    /\ conversations (snd (updateConversationTitle cid ttl st))
       = conversations st
    /\ messages (snd (updateConversationTitle cid ttl st)) = messages st.
Proof.
  intros cid ttl st U F.
  assert (T : fst (updateConversationTitle cid ttl st) = Ret true).
  { unfold updateConversationTitle, try_catch, bind, new_Date,
           update_conversation.
    cbn [fst snd].
    match goal with
    | |- context [call ?run ?s] =>
        destruct (call_unfaulted_store run s U) as (s0 & _ & ->)
    end. reflexivity. }
  pose proof (updateConversationTitle_cases cid ttl st) as D. cbv zeta in D.
  destruct D as (M & _ & [(_ & C) | (Q & _)]); [|congruence].
  split; [exact T|]. split; [|exact M].
  rewrite C. apply map_retitled_absent. exact F.
Qed.

Lemma retitle_of_absent_reports_success_witness :
  fst (updateConversationTitle "no-such-id" "Logging" (store [])) = Ret true
  /\ conversations (snd (updateConversationTitle "no-such-id" "Logging"
                           (store []))) = conversations (store [])
  /\ messages (snd (updateConversationTitle "no-such-id" "Logging"
                      (store []))) = messages (store []).
Proof.
  exact (retitle_of_absent_reports_success "no-such-id" "Logging" (store [])
           (Forall_nil _) eq_refl).
Defined.

(** *** The foreign key of [messages] *)

Lemma saveConversation_outcome owner ttl msgs st :
  (exists cid, fst (saveConversation owner ttl msgs st) = Ret (Some cid))
  \/ fst (saveConversation owner ttl msgs st) = Ret None.
Proof.
  destruct (saveConversation_returns owner ttl msgs st) as ([cid|] & H);
    eauto.
Qed.

(** X17. The writes of chat persistence keep the foreign key of
    [messages]: in a store where every message belongs to a stored
    conversation, this is still so after [saveConversation],
    [updateConversationTitle] and [deleteConversation], whatever they
    return. *)
Theorem chat_writes_keep_foreign_key :
  forall (owner ttl cid : string) (msgs : list ChatMessage) (st : Store),
    fk_ok st ->
    fk_ok (snd (saveConversation owner ttl msgs st))
    /\ fk_ok (snd (updateConversationTitle cid ttl st))
    /\ fk_ok (snd (deleteConversation cid st)).
Proof.
  intros owner ttl cid msgs st FK. split; [|split].
  - destruct (saveConversation_outcome owner ttl msgs st) as [(c & H)|H].
    + destruct (saveConversation owner ttl msgs st) as [o st1] eqn:Q.
      simpl in H. subst o.
      destruct (saveConversation_saved _ _ _ _ _ _ Q)
        as (rows & St & _ & Cv & Ms).
      simpl. intros m Hm. rewrite Ms in Hm. rewrite Cv.
      apply in_app_or in Hm. destruct Hm as [Hm|Hm].
      * destruct (FK m Hm) as (x & Hx & E). exists x.
        split; [apply in_or_app; left; exact Hx|exact E].
      * eexists. split; [apply in_or_app; right; left; reflexivity|].
        simpl. clear - St Hm.
        induction St as [|a r l l' S F IH]; [contradiction|].
        destruct Hm as [<-|Hm]; [symmetry; apply S|auto].
    + destruct (saveConversation_null owner ttl msgs st H) as (Ms & Cv).
      intros m Hm. rewrite Ms in Hm. destruct (FK m Hm) as (x & Hx & E).
      exists x. split; [|exact E].
      destruct Cv as [-> | (c & ->)]; [exact Hx|].
      apply in_or_app. left. exact Hx.
  - pose proof (updateConversationTitle_cases cid ttl st) as D.
    cbv zeta in D. destruct D as (Ms & _ & Cv).
    intros m Hm. rewrite Ms in Hm. destruct (FK m Hm) as (x & Hx & E).
    destruct Cv as [(_ & ->) | (_ & ->)]; [|eauto].
    exists (retitled cid ttl (clock st) x).
    split; [apply in_map; exact Hx|]. rewrite conv_id_retitled. exact E.
  - pose proof (deleteConversation_cases cid st) as D. cbv zeta in D.
    intros m Hm.
    destruct D as [(_ & Cv & Ms) | (_ & Cv & [Ms|Ms])];
      rewrite Ms in Hm; rewrite Cv.
    + unfold without_messages_of in Hm. apply filter_In in Hm.
      destruct Hm as (Hm & Ne). destruct (FK m Hm) as (x & Hx & E).
      exists x. split; [|exact E].
      unfold without_conversation. apply filter_In. split; [exact Hx|].
      rewrite E. exact Ne.
    + apply FK. exact Hm.
    + unfold without_messages_of in Hm. apply filter_In in Hm.
      apply FK. apply Hm.
Qed.

Lemma chat_writes_keep_foreign_key_witness :
  let st := snd (saveConversation "user-1" "Title" [m1; m2] (store [])) in
  fk_ok (snd (saveConversation "user-1" "Second" [m1] st))
  /\ fk_ok (snd (updateConversationTitle "uuid-0" "Second" st))
  /\ fk_ok (snd (deleteConversation "uuid-0" st)).
Proof.
  intros st.
  assert (FK : fk_ok st).
  { intros m Hm. exists (mkConversationRow "uuid-0" "user-1" "Title" 5000 5000).
    split; [left; reflexivity|].
    destruct Hm as [<-|[<-|[]]]; reflexivity. }
  exact (chat_writes_keep_foreign_key "user-1" "Second" "uuid-0" [m1] st FK).
Defined.

End ChatExtras.

(** ** Further properties of the credential store and the client factory *)

Module CredentialExtras.

Import ServiceNow Supabase Credentials Settings.
Import StoreProps StoreExtraProps CredentialProps StoreSamples.
Import ErrorPathTheorems.

Lemma called_credentials {A} (run : Store -> answer A * Store) st :
  exists st0,
    servicenow_credentials st0 = servicenow_credentials st
    /\ (call run st = (Ret (fst (run st0)), snd (run st0))
        \/ exists c m, call run st = (Ret (Failed c m), st0)).
Proof.
  destruct (called run st) as [(c & m & rest & _ & ->) | (st0 & H & ->)].
  - exists (with_faults rest st). split; eauto.
  - exists st0. destruct H as [->|(rest & ->)]; split; auto.
Qed.

(** What a successful insert has done. *)
Lemma insert_credential_data uid nm url un pw st0 row stI :
  insert_credential uid nm url un pw st0 = (Data row, stI) ->
  carries uid nm url un pw row
  /\ servicenow_credentials stI
     = (servicenow_credentials st0 ++ [row])%list
  /\ forall r, In r (servicenow_credentials st0) ->
       String.eqb (ServiceNow.id r) (ServiceNow.id row) = false
       /\ same_owner_name r row = false.
Proof.
  unfold insert_credential.
  destruct (existsb _ _) eqn:E; intros H; [discriminate|].
  injection H as <- <-. split; [repeat split|]. split; [reflexivity|].
  intros r Hr.
  pose proof (ChatTheorems.existsb_false_all _ _ E r Hr) as Q.
  apply orb_false_iff in Q. exact Q.
Qed.

Lemma insert_credential_failed uid nm url un pw st0 c m stI :
  insert_credential uid nm url un pw st0 = (Failed c m, stI) ->
  servicenow_credentials stI = servicenow_credentials st0.
Proof.
  unfold insert_credential.
  destruct (existsb _ _); intros H; inversion H; reflexivity.
Qed.

(** An insert of the owner and name of a row that is there is refused. *)
Lemma insert_credential_duplicate uid nm url un pw st0 row :
  In row (servicenow_credentials st0) ->
  user_id row = uid -> name row = nm ->
  exists stI, insert_credential uid nm url un pw st0 = (duplicate_key, stI)
              /\ servicenow_credentials stI = servicenow_credentials st0.
Proof.
  intros I U N. unfold insert_credential.
  match goal with
  | |- context [existsb ?f ?l] =>
      assert (E : existsb f l = true)
  end.
  { apply existsb_exists. exists row. split; [exact I|].
    apply orb_true_iff. right. unfold same_owner_name. simpl.
    rewrite U, N, !String.eqb_refl. reflexivity. }
  rewrite E. eexists. split; reflexivity.
Qed.

(** The end of the direct insert once the store has answered it with an
    error: it throws. *)
Lemma direct_insert_failed_throws uid c m st :
  exists e st',
    ((if Js.truthy m && Js.includes m "row-level security policy"
      then
        authData <- getUser;;
        match authData with
        | Some u =>
            if negb (String.eqb u uid)
            then throw (Js.Error
  "User ID mismatch: The provided user ID does not match the authenticated user ID")
            else ret tt
        | None => ret tt
        end
      else ret tt);;
     @store_error ServiceNowCredential c m) st = (Throw e, st')
    /\ servicenow_credentials st' = servicenow_credentials st.
Proof.
  assert (Fin : forall (r : outcome unit * Store),
            (exists e, fst r = Throw e) \/ fst r = Ret tt ->
            servicenow_credentials (snd r) = servicenow_credentials st ->
            exists e st',
              (let (o, s') := r in
               match o with
               | Ret a => @store_error ServiceNowCredential c m s'
               | Throw e => (Throw e, s')
               | Hang => (Hang, s')
               end) = (Throw e, st')
              /\ servicenow_credentials st' = servicenow_credentials st).
  { intros [o s] [(e & E) | E] C; simpl in E, C; subst o; simpl;
      do 2 eexists; split; first [reflexivity | exact C]. }
  unfold bind at 1.
  destruct (Js.truthy m && Js.includes m "row-level security policy");
    [|apply Fin; simpl; auto].
  apply Fin; unfold getUser, bind;
  destruct (called_credentials (fun s => (Data (auth_uid s), s)) st)
    as (st0 & C & [-> | (c' & m' & ->)]); cbn [fst snd]; auto;
  destruct (auth_uid st0) as [u|]; simpl; auto;
  destruct (negb (String.eqb u uid)); simpl; eauto.
Qed.

(** The direct insert, the last step of [saveServiceNowCredential]: when
    it returns a row, that row is the one its insert has made. *)
Lemma direct_insert_trace uid nm url un pw st :
  inserted_once uid nm url un pw st
    ((inserted <- insert_credential_single uid nm url un pw;;
      match inserted with
      | Failed c m =>
          (if Js.truthy m && Js.includes m "row-level security policy"
           then
             authData <- getUser;;
             match authData with
             | Some u =>
                 if negb (String.eqb u uid)
                 then throw (Js.Error
  "User ID mismatch: The provided user ID does not match the authenticated user ID")
                 else ret tt
             | None => ret tt
             end
           else ret tt);;
          store_error c m
      | Data data => ret data
      end) st).
Proof.
  match goal with
  | |- inserted_once _ _ _ _ _ _ ?x => remember x as r eqn:H
  end.
  unfold insert_credential_single in H. unfold bind at 1 in H.
  destruct (called_credentials (insert_credential uid nm url un pw) st)
    as (st0 & C & [Q | (c & m & Q)]); rewrite Q in H; clear Q;
    cbn [fst snd] in H.
  - destruct (insert_credential uid nm url un pw st0) as [[row|c m] st1] eqn:E;
      cbn [fst snd] in H.
    + subst r. unfold inserted_once. simpl. exists st0, st1. auto.
    + destruct (direct_insert_failed_throws uid c m st1) as (e & st' & Q & C').
      rewrite Q in H. subst r. unfold inserted_once. simpl. left.
      apply insert_credential_failed in E. congruence.
  - destruct (direct_insert_failed_throws uid c m st0) as (e & st' & Q & C').
    rewrite Q in H. subst r. unfold inserted_once. simpl. left. congruence.
Qed.

(** The direct insert throws when the owner has a credential of the
    name already. *)
Lemma direct_insert_duplicate uid nm url un pw st row :
  In row (servicenow_credentials st) ->
  user_id row = uid -> name row = nm ->
  exists e st',
    (inserted <- insert_credential_single uid nm url un pw;;
      match inserted with
      | Failed c m =>
          (if Js.truthy m && Js.includes m "row-level security policy"
           then
             authData <- getUser;;
             match authData with
             | Some u =>
                 if negb (String.eqb u uid)
                 then throw (Js.Error
  "User ID mismatch: The provided user ID does not match the authenticated user ID")
                 else ret tt
             | None => ret tt
             end
           else ret tt);;
          store_error c m
      | Data data => ret data
      end) st = (Throw e, st')
    /\ servicenow_credentials st' = servicenow_credentials st.
Proof.
  intros I U N. unfold insert_credential_single. unfold bind at 1.
  destruct (called_credentials (insert_credential uid nm url un pw) st)
    as (st0 & C & [-> | (c & m & ->)]).
  - rewrite <- C in I.
    destruct (insert_credential_duplicate uid nm url un pw st0 row I U N)
      as (stI & -> & CI).
    cbn [fst snd]. unfold duplicate_key.
    destruct (direct_insert_failed_throws uid "23505"
                "duplicate key value violates unique constraint" stI)
      as (e & st' & -> & C').
    exists e, st'. split; [reflexivity|congruence].
  - cbn [fst snd].
    destruct (direct_insert_failed_throws uid c m st0) as (e & st' & -> & C').
    exists e, st'. split; [reflexivity|congruence].
Qed.

(** The attempt through the RPC function: what it returns is the row its
    insert has made; when it returns nothing, the insert may still have
    gone through. *)
Lemma via_rpc_trace uid nm url un pw st :
  exists v st',
    try_catch
      (rpc <- rpc_insert_credential uid nm url un pw;;
       match rpc with
       | Failed _ _ => ret None
       | Data rpcData =>
           fetched <- select_credential_by_id rpcData;;
           match fetched with
           | Failed _ _ => ret None
           | Data fetchedData => ret (Some fetchedData)
           end
       end)
      (fun rpcException => ret None) st = (Ret v, st')
    /\ match v with
       | Some row =>
           exists st0 stI,
             servicenow_credentials st0 = servicenow_credentials st
             /\ insert_credential uid nm url un pw st0 = (Data row, stI)
             /\ servicenow_credentials st' = servicenow_credentials stI
       | None =>
           servicenow_credentials st' = servicenow_credentials st
           \/ exists st0 stI row,
                servicenow_credentials st0 = servicenow_credentials st
                /\ insert_credential uid nm url un pw st0 = (Data row, stI)
                /\ servicenow_credentials st' = servicenow_credentials stI
       end.
Proof.
  unfold try_catch, bind, rpc_insert_credential, select_credential_by_id, ret.
  match goal with
  | |- context [call ?run st] =>
      destruct (called_credentials run st)
        as (st0 & C & [-> | (c & m & ->)])
  end.
  2:{ do 2 eexists. split; [reflexivity|]. left. exact C. }
  destruct (insert_credential uid nm url un pw st0) as [[row|c m] st1] eqn:E;
    cbn [fst snd].
  2:{ do 2 eexists. split; [reflexivity|]. left.
      apply insert_credential_failed in E. congruence. }
  pose proof (insert_credential_data _ _ _ _ _ _ _ _ E) as (Car & App & Fr).
  match goal with
  | |- context [call ?run st1] =>
      destruct (called_credentials run st1)
        as (st2 & C2 & [-> | (c & m & ->)])
  end.
  2:{ do 2 eexists. split; [reflexivity|]. right. exists st0, st1, row. auto. }
  cbn [fst snd]. rewrite C2, App, filter_app.
  rewrite (ChatTheorems.filter_none
             (fun r => String.eqb (ServiceNow.id r) (ServiceNow.id row)))
    by (intros r Hr; apply Fr, Hr).
  cbn [filter List.app].
  rewrite String.eqb_refl. cbn [single].
  do 2 eexists. split; [reflexivity|].
  exists st0, st1. auto.
Qed.

(** [saveServiceNowCredential], when it returns, has inserted one row and
    returns it. *)
Lemma saveServiceNowCredential_trace uid nm url un pw st :
  inserted_once uid nm url un pw st
    (saveServiceNowCredential uid nm url un pw st).
Proof.
  assert (K : forall st1,
    servicenow_credentials st1 = servicenow_credentials st ->
    inserted_once uid nm url un pw st
      ((viaRpc <-
          try_catch
      (rpc <- rpc_insert_credential uid nm url un pw;;
       match rpc with
       | Failed _ _ => ret None
       | Data rpcData =>
           fetched <- select_credential_by_id rpcData;;
           match fetched with
           | Failed _ _ => ret None
           | Data fetchedData => ret (Some fetchedData)
           end
       end)
      (fun rpcException => ret None);;
        match viaRpc with
        | Some fetchedData => ret fetchedData
        | None =>
            inserted <- insert_credential_single uid nm url un pw;;
      match inserted with
      | Failed c m =>
          (if Js.truthy m && Js.includes m "row-level security policy"
           then
             authData <- getUser;;
             match authData with
             | Some u =>
                 if negb (String.eqb u uid)
                 then throw (Js.Error
  "User ID mismatch: The provided user ID does not match the authenticated user ID")
                 else ret tt
             | None => ret tt
             end
           else ret tt);;
          store_error c m
      | Data data => ret data
      end
        end) st1)).
  { intros st1 C1. unfold bind at 1.
    destruct (via_rpc_trace uid nm url un pw st1) as (v & st2 & -> & V).
    destruct v as [row|].
    - destruct V as (st0 & stI & C0 & E & C2).
      unfold inserted_once. simpl. exists st0, stI.
      split; [congruence|]. split; assumption.
    - destruct V as [C2 | (st0 & stI & row & C0 & E & C2)].
      + pose proof (direct_insert_trace uid nm url un pw st2) as T.
        unfold inserted_once in *.
        destruct (fst _); [| |exact T].
        * destruct T as (st0 & stI & C0 & E & C3).
          exists st0, stI. split; [congruence|]. split; assumption.
        * destruct T as [C3 | (st0 & stI & row & C0 & E & C3)].
          -- left. congruence.
          -- right. exists st0, stI, row.
             split; [congruence|]. split; assumption.
      + pose proof (insert_credential_data _ _ _ _ _ _ _ _ E)
          as ((U & N & _) & App & _).
        assert (I : In row (servicenow_credentials st2)).
        { rewrite C2, App. apply in_or_app. right. left. reflexivity. }
        destruct (direct_insert_duplicate uid nm url un pw st2 row I U N)
          as (e & st' & Q & C').
        unfold inserted_once. rewrite Q. cbn [fst snd]. right.
        exists st0, stI, row. split; [congruence|].
        split; [exact E|congruence]. }
  unfold saveServiceNowCredential. rewrite rethrow_same.
  unfold bind at 1. unfold table_check.
  destruct (called_credentials (fun s => (Data tt, s)) st)
    as (st0 & C & [-> | (c & m & ->)]); cbn [fst snd].
  - unfold bind at 1. cbn [ret]. apply K, C.
  - destruct (String.eqb c "PGRST116").
    + unfold bind at 1. unfold bind at 1.
      unfold createServiceNowCredentialsTable. rewrite rethrow_same.
      unfold bind at 1, rpc_create_table.
      destruct (called_credentials (fun s => (Data tt, s)) st0)
        as (st1 & C1 & [-> | (c' & m' & ->)]); cbn [fst snd ret];
        apply K; congruence.
    + unfold inserted_once. simpl. left. exact C.
Qed.

(** [saveServiceNowCredential] throws when the owner has a credential of
    the name already, and leaves the table as it is. *)
Lemma saveServiceNowCredential_duplicate uid nm url un pw st r0 :
  In r0 (servicenow_credentials st) ->
  user_id r0 = uid -> name r0 = nm ->
  exists e st',
    saveServiceNowCredential uid nm url un pw st = (Throw e, st')
    /\ servicenow_credentials st' = servicenow_credentials st.
Proof.
  intros I0 U0 N0.
  assert (No : forall st0 row stI,
            servicenow_credentials st0 = servicenow_credentials st ->
            insert_credential uid nm url un pw st0 = (Data row, stI) ->
            False).
  { intros st0 row stI C E. rewrite <- C in I0.
    destruct (insert_credential_duplicate uid nm url un pw st0 r0 I0 U0 N0)
      as (s & Q & _).
    rewrite Q in E. discriminate. }
  assert (K : forall st1,
    servicenow_credentials st1 = servicenow_credentials st ->
    exists e st',
      ((viaRpc <-
          try_catch
            (rpc <- rpc_insert_credential uid nm url un pw;;
             match rpc with
             | Failed _ _ => ret None
             | Data rpcData =>
                 fetched <- select_credential_by_id rpcData;;
                 match fetched with
                 | Failed _ _ => ret None
                 | Data fetchedData => ret (Some fetchedData)
                 end
             end)
            (fun rpcException => ret None);;
        match viaRpc with
        | Some fetchedData => ret fetchedData
        | None =>
            inserted <- insert_credential_single uid nm url un pw;;
            match inserted with
            | Failed c m =>
                (if Js.truthy m
                    && Js.includes m "row-level security policy"
                 then
                   authData <- getUser;;
                   match authData with
                   | Some u =>
                       if negb (String.eqb u uid)
                       then throw (Js.Error
  "User ID mismatch: The provided user ID does not match the authenticated user ID")
                       else ret tt
                   | None => ret tt
                   end
                 else ret tt);;
                store_error c m
            | Data data => ret data
            end
        end) st1) = (Throw e, st')
      /\ servicenow_credentials st' = servicenow_credentials st).
  { intros st1 C1. unfold bind at 1.
    destruct (via_rpc_trace uid nm url un pw st1) as (v & st2 & -> & V).
    destruct v as [row|].
    - destruct V as (st0 & stI & C0 & E & _).
      exfalso. eapply No; [|exact E]. congruence.
    - destruct V as [C2 | (st0 & stI & row & C0 & E & _)].
      + assert (I2 : In r0 (servicenow_credentials st2)) by congruence.
        destruct (direct_insert_duplicate uid nm url un pw st2 r0 I2 U0 N0)
          as (e & st' & Q & C').
        exists e, st'. split; [exact Q|congruence].
      + exfalso. eapply No; [|exact E]. congruence. }
  unfold saveServiceNowCredential. rewrite rethrow_same.
  unfold bind at 1. unfold table_check.
  destruct (called_credentials (fun s => (Data tt, s)) st)
    as (st0 & C & [-> | (c & m & ->)]); cbn [fst snd].
  - unfold bind at 1. cbn [ret]. apply K, C.
  - destruct (String.eqb c "PGRST116").
    + unfold bind at 1. unfold bind at 1.
      unfold createServiceNowCredentialsTable. rewrite rethrow_same.
      unfold bind at 1, rpc_create_table.
      destruct (called_credentials (fun s => (Data tt, s)) st0)
        as (st1 & C1 & [-> | (c' & m' & ->)]); cbn [fst snd ret];
        apply K; congruence.
    + do 2 eexists. split; [reflexivity|exact C].
Qed.

Lemma call_unfaulted_credentials {A} (run : Store -> answer A * Store) st :
  unfaulted 1 st ->
  exists st0,
    servicenow_credentials st0 = servicenow_credentials st
    /\ call run st = (Ret (fst (run st0)), snd (run st0)).
Proof.
  intros U.
  destruct (ChatExtras.call_unfaulted_store run st U) as (st0 & H & Q).
  exists st0. split; [|exact Q]. destruct H as [-> | ->]; reflexivity.
Qed.

(** What [getServiceNowClient] returns: a client made of the one row of
    that id and owner, or nothing; the table stays as it is. *)
Lemma getServiceNowClient_cases cid uid st :
  exists v st',
    getServiceNowClient cid uid st = (Ret v, st')
    /\ servicenow_credentials st' = servicenow_credentials st
    /\ forall api, v = Some api ->
         exists row,
           filter (cred_is cid uid) (servicenow_credentials st) = [row]
           /\ api = new row.
Proof.
  unfold getServiceNowClient, try_catch, bind, select_credential, ret.
  match goal with
  | |- context [call ?run st] =>
      destruct (called_credentials run st)
        as (st0 & C & [-> | (c & m & ->)])
  end; cbn [fst snd].
  - rewrite C.
    destruct (filter (cred_is cid uid) (servicenow_credentials st))
      as [|row [|row' l]]; cbn [single];
      do 2 eexists; (split; [reflexivity|]); (split; [exact C|]);
      intros api [= <-]. eauto.
  - do 2 eexists. split; [reflexivity|]. split; [exact C|]. discriminate.
Qed.

Lemma getServiceNowClient_found cid uid st row :
  unfaulted 1 st ->
  filter (cred_is cid uid) (servicenow_credentials st) = [row] ->
  fst (getServiceNowClient cid uid st) = Ret (Some (new row)).
Proof.
  intros U F.
  unfold getServiceNowClient, try_catch, bind, select_credential, ret.
  match goal with
  | |- context [call ?run st] =>
      destruct (call_unfaulted_credentials run st U) as (st0 & C & ->)
  end.
  cbn [fst snd]. rewrite C, F. reflexivity.
Qed.


Lemma getServiceNowCredentials_listed uid st :
  unfaulted 1 st ->
  fst (getServiceNowCredentials uid st)
  = Ret (filter (fun r => String.eqb (user_id r) uid)
                (servicenow_credentials st)).
Proof.
  intros U. unfold getServiceNowCredentials, bind, select_credentials_of, ret.
  match goal with
  | |- context [call ?run st] =>
      destruct (call_unfaulted_credentials run st U) as (st0 & C & ->)
  end.
  cbn [fst snd]. rewrite C. reflexivity.
Qed.

(** X18. When [saveServiceNowCredential] returns a row, the row carries
    the owner, name, URL, user name and password it was given, the table
    is the table as it was with this one row appended, and no row that
    was there has the id of the new row or its owner and name. *)
Theorem saved_credential_is_appended :
  forall (uid nm url un pw : string) (st st1 : Store)
         (row : ServiceNowCredential),
    saveServiceNowCredential uid nm url un pw st = (Ret row, st1) ->
    carries uid nm url un pw row
    /\ servicenow_credentials st1
       = List.app (servicenow_credentials st) [row]
    /\ forall r, In r (servicenow_credentials st) ->
         ServiceNow.id r <> ServiceNow.id row
         /\ ~ (user_id r = uid /\ name r = nm).
Proof.
  intros uid nm url un pw st st1 row H.
  pose proof (saveServiceNowCredential_trace uid nm url un pw st) as T.
  unfold inserted_once in T. rewrite H in T. cbn [fst snd] in T.
  destruct T as (st0 & stI & C0 & E & C1).
  pose proof (insert_credential_data _ _ _ _ _ _ _ _ E) as (Car & App & Fr).
  split; [exact Car|]. split; [congruence|].
  intros r Hr. rewrite <- C0 in Hr. destruct (Fr r Hr) as (Fi & Fo).
  split.
  - intros Q. rewrite Q, String.eqb_refl in Fi. discriminate.
  - intros (U & N). unfold same_owner_name in Fo.
    destruct Car as (U' & N' & _).
    rewrite U, N, U', N', !String.eqb_refl in Fo. discriminate.
Qed.

Lemma saved_credential_is_appended_witness :
  let r := saveServiceNowCredential "user-1" "prod"
             "https://prod.service-now.com" "ops" "pw" (store []) in
  fst r = Ret (mkCredential "uuid-0" "user-1" "prod"
                 "https://prod.service-now.com" "ops" "pw" 5000)
  /\ servicenow_credentials (snd r)
     = [stored_credential;
        mkCredential "uuid-0" "user-1" "prod"
          "https://prod.service-now.com" "ops" "pw" 5000].
Proof.
  split; [reflexivity|].
  exact (proj1 (proj2 (saved_credential_is_appended "user-1" "prod"
           "https://prod.service-now.com" "ops" "pw" (store [])
           (snd (saveServiceNowCredential "user-1" "prod"
                   "https://prod.service-now.com" "ops" "pw" (store [])))
           (mkCredential "uuid-0" "user-1" "prod"
              "https://prod.service-now.com" "ops" "pw" 5000)
           eq_refl))).
Defined.

(** X19. A credential that [saveServiceNowCredential] has returned is
    found again: on a store that answers, [getServiceNowClient] with the
    id of the row and its owner returns the client made of that row, and
    [getServiceNowCredentials] of the owner returns the rows the owner had
    and the new row, in an order that the query, which has no ordering,
    leaves to the store. *)
Theorem saved_credential_is_found :
  forall (uid nm url un pw : string) (st st1 : Store)
         (row : ServiceNowCredential),
    saveServiceNowCredential uid nm url un pw st = (Ret row, st1) ->
    unfaulted 1 st1 ->
    fst (getServiceNowClient (ServiceNow.id row) uid st1)
    = Ret (Some (new row))
    /\ exists listed,
         fst (getServiceNowCredentials uid st1) = Ret listed
         /\ Permutation listed
              (row :: filter (fun r => String.eqb (user_id r) uid)
                             (servicenow_credentials st)).
Proof.
  intros uid nm url un pw st st1 row H U.
  pose proof (saveServiceNowCredential_trace uid nm url un pw st) as T.
  unfold inserted_once in T. rewrite H in T. cbn [fst snd] in T.
  destruct T as (st0 & stI & C0 & E & C1).
  pose proof (insert_credential_data _ _ _ _ _ _ _ _ E)
    as ((Us & _) & App & Fr).
  assert (C : servicenow_credentials st1
              = List.app (servicenow_credentials st) [row]) by congruence.
  split.
  - apply getServiceNowClient_found; [exact U|].
    rewrite C, filter_app.
    rewrite (ChatTheorems.filter_none (cred_is (ServiceNow.id row) uid)).
    + cbn [filter List.app]. unfold cred_is.
      rewrite Us, !String.eqb_refl. reflexivity.
    + intros r Hr. rewrite <- C0 in Hr. destruct (Fr r Hr) as (Fi & _).
      unfold cred_is. rewrite Fi. reflexivity.
  - eexists. split; [apply getServiceNowCredentials_listed; exact U|].
    rewrite C, filter_app. cbn [filter]. rewrite Us, String.eqb_refl.
    apply Permutation_sym, Permutation_cons_append.
Qed.

Lemma saved_credential_is_found_witness :
  let r := saveServiceNowCredential "user-1" "prod"
             "https://prod.service-now.com" "ops" "pw" (store []) in
  fst (getServiceNowClient "uuid-0" "user-1" (snd r))
  = Ret (Some (new (mkCredential "uuid-0" "user-1" "prod"
                      "https://prod.service-now.com" "ops" "pw" 5000)))
  /\ exists listed,
       fst (getServiceNowCredentials "user-1" (snd r)) = Ret listed
       /\ Permutation listed
            [mkCredential "uuid-0" "user-1" "prod"
               "https://prod.service-now.com" "ops" "pw" 5000;
             stored_credential].
Proof.
  exact (saved_credential_is_found "user-1" "prod"
           "https://prod.service-now.com" "ops" "pw" (store [])
           (snd (saveServiceNowCredential "user-1" "prod"
                   "https://prod.service-now.com" "ops" "pw" (store [])))
           (mkCredential "uuid-0" "user-1" "prod"
              "https://prod.service-now.com" "ops" "pw" 5000)
           eq_refl (Forall_nil _)).
Defined.

(** X20. A second credential of a name the owner has already is refused:
    [saveServiceNowCredential] throws, whatever the store answers on the
    way, and the table is left as it was. *)
Theorem duplicate_name_is_refused :
  forall (uid nm url un pw : string) (st : Store)
         (r0 : ServiceNowCredential),
    In r0 (servicenow_credentials st) ->
    user_id r0 = uid -> name r0 = nm ->
    exists e st',
      saveServiceNowCredential uid nm url un pw st = (Throw e, st')
      /\ servicenow_credentials st' = servicenow_credentials st.
Proof.
  intros uid nm url un pw st r0. apply saveServiceNowCredential_duplicate.
Qed.

Lemma duplicate_name_is_refused_witness :
  exists e st',
    saveServiceNowCredential "user-1" "dev" "https://other.service-now.com"
      "ops" "pw" (store []) = (Throw e, st')
    /\ servicenow_credentials st' = [stored_credential].
Proof.
  exact (duplicate_name_is_refused "user-1" "dev"
           "https://other.service-now.com" "ops" "pw" (store [])
           stored_credential (or_introl eq_refl) eq_refl eq_refl).
Defined.

(** The two ends of [deleteServiceNowCredential]. *)
Lemma deleteServiceNowCredential_cases cid uid st :
  (exists st',
     deleteServiceNowCredential cid uid st = (Ret tt, st')
     /\ servicenow_credentials st'
        = without_credential cid uid (servicenow_credentials st))
  \/ (exists c m st',
        deleteServiceNowCredential cid uid st = (Throw (Js.StoreError c m), st')
        /\ servicenow_credentials st' = servicenow_credentials st).
Proof.
  unfold deleteServiceNowCredential, bind, delete_credential.
  match goal with
  | |- context [call ?run st] =>
      destruct (called_credentials run st)
        as (st0 & C & [-> | (c & m & ->)])
  end; cbn [fst snd].
  - left. eexists. split; [reflexivity|].
    unfold without_credential. simpl. rewrite C. reflexivity.
  - right. exists c, m, st0. split; [reflexivity|exact C].
Qed.



(** X22. [getServiceNowClient] never throws and never changes the table;
    a client it returns is made of the one stored row that has the given
    id and the given owner, so the credential of another owner is never
    handed out, and the client holds no token yet. *)
Theorem client_is_made_of_owned_row :
  forall (cid uid : string) (st : Store),
    exists v st',
      getServiceNowClient cid uid st = (Ret v, st')
      /\ servicenow_credentials st' = servicenow_credentials st
      /\ forall api, v = Some api ->
           exists row,
             In row (servicenow_credentials st)
             /\ ServiceNow.id row = cid /\ user_id row = uid
             /\ api = new row
             /\ accessToken api = None
             /\ username api = cred_username row
             /\ password api = cred_password row.
Proof.
  intros cid uid st.
  destruct (getServiceNowClient_cases cid uid st) as (v & st' & Q & C & V).
  exists v, st'. split; [exact Q|]. split; [exact C|].
  intros api E. destruct (V api E) as (row & F & ->).
  exists row.
  assert (I : In row (filter (cred_is cid uid) (servicenow_credentials st)))
    by (rewrite F; left; reflexivity).
  apply filter_In in I. destruct I as (I & B).
  unfold cred_is in B. apply andb_true_iff in B. destruct B as (B1 & B2).
  apply String.eqb_eq in B1, B2.
  repeat split; auto.
Qed.

(** Keys and entries of [clients[key] = api]. *)
Lemma set_client_In k v o k' v' :
  In (k', v') (set_client k v o) -> (k' = k /\ v' = v) \/ In (k', v') o.
Proof.
  induction o as [|[k0 v0] o IH]; simpl.
  - intros [[= <- <-]|[]]. auto.
  - destruct (String.eqb k k0).
    + intros [[= <- <-]|H]; auto.
    + intros [H|H]; auto. destruct (IH H); auto.
Qed.

Lemma set_client_keys k v o :
  NoDup (map fst o) ->
  NoDup (map fst (set_client k v o))
  /\ In k (map fst (set_client k v o))
  /\ forall k', In k' (map fst o) -> In k' (map fst (set_client k v o)).
Proof.
  induction o as [|[k0 v0] o IH]; simpl; intros N.
  - split; [constructor; [intros []|constructor]|]. split; auto.
  - inversion N as [|? ? N1 N2]; subst.
    destruct (String.eqb_spec k k0) as [->|D]; simpl.
    + split; [exact N|]. split; auto.
    + destruct (IH N2) as (A & B & C). split.
      * constructor; [|exact A]. intros I.
        apply in_map_iff in I. destruct I as ([k1 v1] & E & I).
        simpl in E. subst k1.
        destruct (set_client_In _ _ _ _ _ I) as [(E & _)|I'];
          [congruence|].
        apply N1. apply in_map_iff. exists (k0, v1). auto.
      * split; [auto|]. intros k' [E|I]; auto.
Qed.

Lemma fold_set_client (rows : list ServiceNowCredential) :
  forall acc,
    NoDup (map fst acc) ->
    let l := fold_left (fun clients credential =>
                          set_client (ServiceNow.id credential)
                                     (new credential) clients)
                       rows acc in
    NoDup (map fst l)
    /\ (forall k api, In (k, api) l ->
         In (k, api) acc
         \/ exists row, In row rows /\ ServiceNow.id row = k
                        /\ api = new row)
    /\ (forall k, In k (map fst acc) -> In k (map fst l))
    /\ (forall row, In row rows -> In (ServiceNow.id row) (map fst l)).
Proof.
  induction rows as [|r rows IH]; intros acc N; cbn [fold_left].
  - cbv zeta. split; [exact N|]. split; [auto|]. split; [auto|].
    intros row [].
  - destruct (set_client_keys (ServiceNow.id r) (new r) acc N)
      as (N' & Has & Keeps).
    destruct (IH _ N') as (A & B & C & D). cbv zeta.
    split; [exact A|]. split; [|split].
    + intros k api I. destruct (B k api I) as [I'|(row & Hr & E1 & E2)].
      * destruct (set_client_In _ _ _ _ _ I') as [(-> & ->)|I''];
          [right; exists r; simpl; auto|auto].
      * right. exists row. simpl. auto.
    + intros k I. apply C, Keeps, I.
    + intros row [<-|I]; [apply C, Has|apply D, I].
Qed.

(** X23. [getAllServiceNowClients] never throws and returns an object
    with one entry per key; each entry is the client made of a stored row
    of the owner, under the id of that row; and in the session of the
    owner, when the store answers, every credential of the owner, each of
    which the policy of the table shows to this session, has its entry.
    (To another session the policy shows no row.) *)
Theorem all_clients_are_the_owners :
  forall (uid : string) (st : Store),
    exists l st',
      getAllServiceNowClients uid st = (Ret l, st')
      /\ servicenow_credentials st' = servicenow_credentials st
      /\ NoDup (map fst l)
      /\ (forall k api, In (k, api) l ->
           exists row, In row (servicenow_credentials st)
                       /\ user_id row = uid /\ ServiceNow.id row = k
                       /\ api = new row)
      /\ (auth_uid st = Some uid -> unfaulted 1 st ->
          forall row, In row (servicenow_credentials st) ->
                      user_id row = uid ->
                      visible_credential st row
                      /\ In (ServiceNow.id row) (map fst l)).
Proof.
  intros uid st.
  unfold getAllServiceNowClients, try_catch, bind, select_credentials_of, ret.
  match goal with
  | |- context [call ?run st] =>
      destruct (called run st) as [(c & m & rest & F & ->) | (st0 & H & ->)]
  end; cbn [fst snd].
  - exists [], (with_faults rest st). split; [reflexivity|].
    split; [reflexivity|]. split; [constructor|]. split.
    + intros k api [].
    + intros _ U. unfold unfaulted in U. rewrite F in U.
      inversion U; discriminate.
  - assert (C : servicenow_credentials st0 = servicenow_credentials st)
      by (destruct H as [->|(rest & ->)]; reflexivity).
    rewrite C.
    destruct (fold_set_client
                (filter (fun r => String.eqb (user_id r) uid)
                        (servicenow_credentials st)) [] (NoDup_nil _))
      as (A & B & _ & D). cbv zeta in A, B, D.
    do 2 eexists. split; [reflexivity|]. split; [exact C|].
    split; [exact A|]. split.
    + intros k api I. destruct (B k api I) as [[]|(row & Hr & E1 & E2)].
      apply filter_In in Hr. destruct Hr as (Hr & Q).
      apply String.eqb_eq in Q. exists row. auto.
    + intros Au _ row Hr Q. split.
      * unfold visible_credential. rewrite Q. exact Au.
      * apply D. apply filter_In. split; [exact Hr|].
        apply String.eqb_eq, Q.
Qed.

Lemma all_clients_are_the_owners_witness :
  exists l st',
    getAllServiceNowClients "user-1" (store []) = (Ret l, st')
    /\ In "6f1c" (map fst l).
Proof.
  destruct (all_clients_are_the_owners "user-1" (store []))
    as (l & st' & Q & _ & _ & _ & D).
  exists l, st'. split; [exact Q|].
  exact (proj2 (D eq_refl (Forall_nil _) stored_credential
                  (or_introl eq_refl) eq_refl)).
Defined.

Lemma client_is_made_of_owned_row_witness :
  exists v st',
    getServiceNowClient "6f1c" "user-1" (store []) = (Ret v, st')
    /\ forall api, v = Some api -> username api = "admin".
Proof.
  destruct (client_is_made_of_owned_row "6f1c" "user-1" (store []))
    as (v & st' & Q & _ & V).
  exists v, st'. split; [exact Q|].
  intros api E.
  destruct (V api E) as (row & [<-|[]] & _ & _ & _ & _ & U & _). exact U.
Defined.

Lemma filter_map_same {A} (p : A -> bool) (f : A -> A) (l : list A) :
  (forall a, p (f a) = p a) ->
  filter p (map f l) = map f (filter p l).
Proof.
  intros H. induction l as [|a l IH]; simpl; [reflexivity|].
  rewrite H. destruct (p a); simpl; rewrite IH; reflexivity.
Qed.

(** The two ends of [updateServiceNowCredential]. *)
Lemma updateServiceNowCredential_cases cid uid u st :
  (exists old st',
     filter (cred_is cid uid) (servicenow_credentials st) = [old]
     /\ updateServiceNowCredential cid uid u st
        = (Ret (apply_updates u old), st')
     /\ servicenow_credentials st'
        = map (fun o => if cred_is cid uid o then apply_updates u o else o)
              (servicenow_credentials st))
  \/ (exists c m st',
        updateServiceNowCredential cid uid u st
        = (Throw (Js.StoreError c m), st')
        /\ servicenow_credentials st' = servicenow_credentials st).
Proof.
  unfold updateServiceNowCredential, bind, update_credential.
  match goal with
  | |- context [call ?run st] =>
      destruct (called_credentials run st)
        as (st0 & C & [-> | (c & m & ->)])
  end; cbn [fst snd].
  2:{ right. exists c, m, st0. split; [reflexivity|exact C]. }
  cbv zeta. rewrite C.
  destruct (filter (cred_is cid uid) (servicenow_credentials st))
    as [|old [|old' l]] eqn:F; cbn [single fst snd].
  - right. do 3 eexists. split; [reflexivity|exact C].
  - destruct (existsb _ _); cbn [fst snd].
    + right. do 3 eexists. split; [reflexivity|exact C].
    + left. exists old. eexists. split; [reflexivity|].
      split; reflexivity.
  - right. do 3 eexists. split; [reflexivity|exact C].
Qed.

(** X24. When [updateServiceNowCredential] returns a row, the row has the
    id and owner asked for and, in every column the updates carry, their
    value; the rows of other ids or owners are in the table as they were;
    and on a store that answers, [getServiceNowClient] then returns the
    client made of the returned row. *)
Theorem updated_credential_is_found :
  forall (cid uid : string) (u : CredentialUpdates) (st st1 : Store)
         (row : ServiceNowCredential),
    updateServiceNowCredential cid uid u st = (Ret row, st1) ->
    ServiceNow.id row = cid /\ user_id row = uid
    /\ (forall v, upd_name u = Some v -> name row = v)
    /\ (forall v, upd_instance_url u = Some v -> instance_url row = v)
    /\ (forall v, upd_username u = Some v -> cred_username row = v)
    /\ (forall v, upd_password u = Some v -> cred_password row = v)
    /\ (forall r, In r (servicenow_credentials st) ->
         cred_is cid uid r = false -> In r (servicenow_credentials st1))
    /\ (unfaulted 1 st1 ->
        fst (getServiceNowClient cid uid st1) = Ret (Some (new row))).
Proof.
  intros cid uid u st st1 row H.
  destruct (updateServiceNowCredential_cases cid uid u st)
    as [(old & st' & F & Q & C) | (c & m & st' & Q & _)];
    rewrite Q in H; [|discriminate].
  injection H as <- <-.
  assert (I : In old (filter (cred_is cid uid) (servicenow_credentials st)))
    by (rewrite F; left; reflexivity).
  apply filter_In in I. destruct I as (I & Bo). pose proof Bo as B.
  unfold cred_is in B. apply andb_true_iff in B. destruct B as (B1 & B2).
  apply String.eqb_eq in B1, B2.
  split; [exact B1|]. split; [exact B2|].
  unfold apply_updates at 1 2 3 4;
    cbn [name instance_url cred_username cred_password].
  do 4 (split; [intros v ->; reflexivity|]).
  split.
  - intros r Hr N. rewrite C. apply in_map_iff. exists r.
    rewrite N. auto.
  - intros U. apply getServiceNowClient_found; [exact U|].
    rewrite C, filter_map_same, F; [cbn [map]; rewrite Bo; reflexivity|].
    intros a. destruct (cred_is cid uid a) eqn:E; [|exact E].
    unfold cred_is in *. exact E.
Qed.

Lemma updated_credential_is_found_witness :
  let u := mkUpdates (Some "prod") None None (Some "pw2") in
  let r := updateServiceNowCredential "6f1c" "user-1" u (store []) in
  fst (getServiceNowClient "6f1c" "user-1" (snd r))
  = Ret (Some (new (mkCredential "6f1c" "user-1" "prod"
                      "https://dev12345.service-now.com" "admin" "pw2" 100))).
Proof.
  pose proof (updated_credential_is_found "6f1c" "user-1"
    (mkUpdates (Some "prod") None None (Some "pw2")) (store [])
    (snd (updateServiceNowCredential "6f1c" "user-1"
            (mkUpdates (Some "prod") None None (Some "pw2")) (store [])))
    (mkCredential "6f1c" "user-1" "prod"
       "https://dev12345.service-now.com" "admin" "pw2" 100)
    eq_refl) as (_ & _ & _ & _ & _ & _ & _ & G).
  exact (G (Forall_nil _)).
Defined.

(** X25. Updating a credential that the owner does not have, one of
    another owner for instance, throws the error of the store and leaves
    every row as it was. *)
Theorem update_of_absent_throws :
  forall (cid uid : string) (u : CredentialUpdates) (st : Store),
    filter (cred_is cid uid) (servicenow_credentials st) = [] ->
    exists c m st',
      updateServiceNowCredential cid uid u st
      = (Throw (Js.StoreError c m), st')
      /\ servicenow_credentials st' = servicenow_credentials st.
Proof.
  intros cid uid u st F.
  destruct (updateServiceNowCredential_cases cid uid u st)
    as [(old & st' & F' & _) | H]; [congruence|exact H].
Qed.

Lemma update_of_absent_throws_witness :
  exists c m st',
    updateServiceNowCredential "6f1c" "user-2"
      (mkUpdates (Some "mine") None None None) (store [])
    = (Throw (Js.StoreError c m), st')
    /\ servicenow_credentials st' = [stored_credential].
Proof.
  exact (update_of_absent_throws "6f1c" "user-2"
           (mkUpdates (Some "mine") None None None) (store []) eq_refl).
Defined.

(** X26. The handlers of the settings component never throw: each ends
    with nothing returned, whatever the store answers; without a
    signed-in user they do not touch the store; and a save handler leaves
    the table as it was or with one row appended that carries the values
    of the form under the id of the user. *)
Theorem settings_handlers_never_throw :
  forall (user : option string) (cid : string) (form : CredentialForm)
         (st : Store),
    fst (handleSaveCredential user form st) = Ret tt
    /\ fst (handleDeleteCredential user cid st) = Ret tt
    /\ fst (handleUpdateCredential user cid form st) = Ret tt
    /\ handleSaveCredential None form st = (Ret tt, st)
    /\ handleDeleteCredential None cid st = (Ret tt, st)
    /\ handleUpdateCredential None cid form st = (Ret tt, st)
    /\ (servicenow_credentials (snd (handleSaveCredential user form st))
        = servicenow_credentials st
        \/ exists uid row,
             user = Some uid
             /\ carries uid (form_name form) (form_instanceUrl form)
                        (form_username form) (form_password form) row
             /\ servicenow_credentials
                  (snd (handleSaveCredential user form st))
                = List.app (servicenow_credentials st) [row]).
Proof.
  intros user cid form st.
  assert (Save : fst (handleSaveCredential user form st) = Ret tt
    /\ (servicenow_credentials (snd (handleSaveCredential user form st))
        = servicenow_credentials st
        \/ exists uid row,
             user = Some uid
             /\ carries uid (form_name form) (form_instanceUrl form)
                        (form_username form) (form_password form) row
             /\ servicenow_credentials
                  (snd (handleSaveCredential user form st))
                = List.app (servicenow_credentials st) [row])).
  { destruct user as [uid|]; [|simpl; auto].
    unfold handleSaveCredential, try_catch, bind, ret.
    pose proof (saveServiceNowCredential_trace uid (form_name form)
                  (form_instanceUrl form) (form_username form)
                  (form_password form) st) as T.
    unfold inserted_once in T.
    destruct (saveServiceNowCredential _ _ _ _ _ st) as [[row|e|] st1] eqn:E;
      cbn [fst snd] in *; [| |contradiction]; (split; [reflexivity|]).
    - right. exists uid, row.
      destruct T as (st0 & stI & C0 & Ins & C1).
      pose proof (insert_credential_data _ _ _ _ _ _ _ _ Ins)
        as (Car & App & _).
      split; [reflexivity|]. split; [exact Car|congruence].
    - destruct T as [C1 | (st0 & stI & row & C0 & Ins & C1)]; [left; exact C1|].
      right. exists uid, row.
      pose proof (insert_credential_data _ _ _ _ _ _ _ _ Ins)
        as (Car & App & _).
      split; [reflexivity|]. split; [exact Car|congruence]. }
  destruct Save as (S1 & S2).
  split; [exact S1|]. split; [|split].
  - destruct user as [uid|]; [|reflexivity].
    unfold handleDeleteCredential, try_catch, bind, ret.
    destruct (deleteServiceNowCredential_cases cid uid st)
      as [(st' & -> & _) | (c & m & st' & -> & _)]; reflexivity.
  - destruct user as [uid|]; [|reflexivity].
    unfold handleUpdateCredential, try_catch, bind, ret. cbv zeta.
    match goal with
    | |- context [updateServiceNowCredential cid uid ?u st] =>
        destruct (updateServiceNowCredential_cases cid uid u st)
          as [(old & st' & _ & -> & _) | (c & m & st' & -> & _)]
    end; reflexivity.
  - repeat split; auto.
Qed.

(** A row is inserted when the generated id and the pair of owner and
    name are new to the table. *)
Lemma insert_credential_fresh uid nm url un pw st0 :
  (forall r, In r (servicenow_credentials st0) ->
             ServiceNow.id r <> uuid_gen st0 (uuid_next st0)
             /\ ~ (user_id r = uid /\ name r = nm)) ->
  exists row stI,
    insert_credential uid nm url un pw st0 = (Data row, stI)
    /\ carries uid nm url un pw row
    /\ servicenow_credentials stI
       = List.app (servicenow_credentials st0) [row]
    /\ faults stI = faults st0.
Proof.
  intros N. unfold insert_credential.
  match goal with
  | |- context [existsb ?f ?l] => assert (E : existsb f l = false)
  end.
  { destruct (existsb _ _) eqn:E; [|reflexivity]. exfalso.
    apply existsb_exists in E. destruct E as (r & Hr & B).
    destruct (N r Hr) as (N1 & N2).
    apply orb_true_iff in B. destruct B as [B|B].
    - apply String.eqb_eq in B. apply N1. exact B.
    - unfold same_owner_name in B. simpl in B.
      apply andb_true_iff in B. destruct B as (B1 & B2).
      apply String.eqb_eq in B1, B2. auto. }
  rewrite E. do 2 eexists. split; [reflexivity|].
  split; [repeat split|]. split; reflexivity.
Qed.

(** X27. [saveServiceNowCredential] can throw although the credential is
    stored: when the insert through the RPC function goes through and the
    store fails to answer the query that fetches the new row, the direct
    insert that follows is refused or fails, the caller gets an error, and
    the table holds the new row. *)
Theorem failed_save_may_store_credential :
  forall (uid nm url un pw : string) (st : Store)
         (f : string * string) (rest : list (option (string * string))),
    faults st = None :: None :: Some f :: rest ->
    (forall r, In r (servicenow_credentials st) ->
               ServiceNow.id r <> uuid_gen st (uuid_next st)
               /\ ~ (user_id r = uid /\ name r = nm)) ->
    exists e st' row,
      saveServiceNowCredential uid nm url un pw st = (Throw e, st')
      /\ carries uid nm url un pw row
      /\ servicenow_credentials st'
         = List.app (servicenow_credentials st) [row].
Proof.
  intros uid nm url un pw st [c m] rest F N.
  unfold saveServiceNowCredential. rewrite rethrow_same.
  unfold bind at 1. unfold table_check, call at 1. rewrite F.
  cbn [fst snd]. unfold bind at 1. cbn [ret].
  unfold bind at 1. unfold try_catch at 1. unfold bind at 1.
  unfold rpc_insert_credential, call at 1. cbn [faults with_faults].
  destruct (insert_credential_fresh uid nm url un pw
              (with_faults (Some (c, m) :: rest)
                 (with_faults (None :: Some (c, m) :: rest) st)) N)
    as (row & stI & -> & Car & App & Fi).
  cbn [fst snd]. unfold bind at 1.
  unfold select_credential_by_id, call at 1. rewrite Fi.
  cbn [faults with_faults fst snd ret].
  assert (I : In row (servicenow_credentials (with_faults rest stI))).
  { change (In row (servicenow_credentials stI)). rewrite App.
    apply in_or_app. right. left. reflexivity. }
  destruct Car as (U & Nm & Car).
  destruct (direct_insert_duplicate uid nm url un pw (with_faults rest stI)
              row I U Nm) as (e & st' & -> & C').
  exists e, st', row. split; [reflexivity|].
  split; [repeat split; auto; apply Car|]. rewrite C'. exact App.
Qed.

Lemma failed_save_may_store_credential_witness :
  exists e st' row,
    saveServiceNowCredential "user-1" "prod" "https://prod.service-now.com"
      "ops" "pw" (store [None; None; unreachable]) = (Throw e, st')
    /\ carries "user-1" "prod" "https://prod.service-now.com" "ops" "pw" row
    /\ servicenow_credentials st' = [stored_credential; row].
Proof.
  apply (failed_save_may_store_credential "user-1" "prod"
           "https://prod.service-now.com" "ops" "pw"
           (store [None; None; unreachable]) ("08006", "connection failure")
           [] eq_refl).
  intros r [<-|[]]. split; [discriminate|].
  intros (_ & Q). discriminate Q.
Defined.

End CredentialExtras.

(** ** The mock authentication *)

Module MockAuthExtras.

Import Net MockAuth MockAuthProps.

Lemma getItem_setItem_same k v s : getItem k (setItem k v s) = Some v.
Proof.
  induction s as [|[k' v'] s IH]; simpl.
  - rewrite String.eqb_refl. reflexivity.
  - destruct (String.eqb k k') eqn:E; simpl; rewrite ?String.eqb_refl, ?E;
      auto.
Qed.

Lemma getItem_setItem_other k k' v s :
  k <> k' -> getItem k (setItem k' v s) = getItem k s.
Proof.
  intros N. induction s as [|[k0 v0] s IH]; simpl.
  - destruct (String.eqb_spec k k'); [contradiction|reflexivity].
  - destruct (String.eqb_spec k' k0) as [->|D]; simpl.
    + destruct (String.eqb_spec k k0); [contradiction|reflexivity].
    + rewrite IH. reflexivity.
Qed.

Lemma getItem_removeItem_same k s : getItem k (removeItem k s) = None.
Proof.
  induction s as [|[k' v'] s IH]; simpl; [reflexivity|].
  destruct (String.eqb k k') eqn:E; simpl; [exact IH|].
  rewrite E. exact IH.
Qed.

Lemma getItem_removeItem_other k k' s :
  k <> k' -> getItem k (removeItem k' s) = getItem k s.
Proof.
  intros N. induction s as [|[k0 v0] s IH]; simpl; [reflexivity|].
  destruct (String.eqb_spec k' k0) as [->|D]; simpl.
  - destruct (String.eqb_spec k k0); [contradiction|exact IH].
  - rewrite IH. reflexivity.
Qed.

Lemma find_app {A} (f : A -> bool) (l l' : list A) :
  find f (l ++ l')%list
  = match find f l with Some x => Some x | None => find f l' end.
Proof.
  induction l as [|a l IH]; simpl; [reflexivity|].
  destruct (f a); auto.
Qed.

Lemma not_registered_find email_ b :
  ~ registered email_ b ->
  find (fun user => String.eqb (email user) email_) (MOCK_USERS b) = None.
Proof.
  intros N. destruct (find _ _) as [u|] eqn:F; [|reflexivity].
  exfalso. apply find_some in F. destruct F as (I & E).
  apply String.eqb_eq in E. apply N. exists u. auto.
Qed.

Lemma registered_find email_ b :
  registered email_ b ->
  exists u, find (fun user => String.eqb (email user) email_) (MOCK_USERS b)
            = Some u.
Proof.
  intros (u & I & E).
  destruct (find _ _) as [u'|] eqn:F; [eauto|].
  pose proof (find_none _ _ F u I) as Q. simpl in Q.
  rewrite E, String.eqb_refl in Q. discriminate.
Qed.

(** What a page looks like after [resetMockAuth]. *)
Lemma reset_signed_out b :
  fst (resetMockAuth b) = Ret tt
  /\ signed_out (snd (resetMockAuth b))
  /\ same_other_items b (snd (resetMockAuth b))
  /\ MOCK_USERS (snd (resetMockAuth b)) = MOCK_USERS b
  /\ now (snd (resetMockAuth b)) = now b.
Proof.
  split; [reflexivity|]. split; [|split; [|split; reflexivity]].
  - unfold signed_out. simpl.
    rewrite !getItem_removeItem_same.
    rewrite !(getItem_removeItem_other MOCK_AUTH_KEY MOCK_AUTH_SESSION)
      by discriminate.
    rewrite !getItem_removeItem_same. auto.
  - intros k N1 N2. simpl.
    rewrite !getItem_removeItem_other by assumption. auto.
Qed.

(** On a page without the four items [mockGetCurrentUser] finds no user
    and writes to no storage. *)
Lemma current_user_of_signed_out b :
  signed_out b ->
  fst (mockGetCurrentUser b) = Ret (Some Js.JNull)
  /\ localStorage (snd (mockGetCurrentUser b)) = localStorage b
  /\ sessionStorage (snd (mockGetCurrentUser b)) = sessionStorage b.
Proof.
  intros (A & B & C & D).
  unfold mockGetCurrentUser, session_check, bind, local_getItem,
         session_getItem, gets, ret.
  cbn [fst snd]. rewrite B, D. cbn. rewrite A, C. cbn.
  destruct (Js.includes (document_cookie b) "mock_auth_active=true");
    cbn; auto.
Qed.

(** The session check on a stored session whose [expires_at] is a
    number. *)
Lemma current_user_of_session b sess members e :
  getItem MOCK_AUTH_SESSION (localStorage b) = Some sess ->
  Js.truthy (text_of sess) = true ->
  parsed sess = Some (Js.JObj members) ->
  Js.assoc "expires_at" members = Some (Js.JNum e) ->
  (e <> 0 -> now b < e ->
   mockGetCurrentUser b = (Ret (Js.assoc "user" members), b))
  /\ (e = 0 \/ e <= now b ->
      fst (mockGetCurrentUser b) = Ret (Some Js.JNull)
      /\ snd (mockGetCurrentUser b) = snd (resetMockAuth b)).
Proof.
  intros G T P E.
  assert (Q : forall valid,
            (negb (e =? 0) && (now b <? e)) = valid ->
            mockGetCurrentUser b
            = if valid then (Ret (Js.assoc "user" members), b)
              else (Ret (Some Js.JNull), snd (resetMockAuth b))).
  { intros valid V.
    unfold mockGetCurrentUser, session_check, bind, local_getItem,
           session_getItem, gets, ret, or_item, item_truthy.
    cbn [fst snd]. rewrite G, T. cbn [fst snd]. rewrite T.
    unfold try_catch, bind, lift, parse, Date_now, gets, ret.
    rewrite P. cbn [get_member fst snd]. rewrite E.
    cbn [value_truthy Js.json_truthy gt_now]. rewrite V.
    destruct valid; reflexivity. }
  split.
  - intros N L. rewrite (Q true); [reflexivity|].
    apply andb_true_iff. split.
    + apply negb_true_iff, Z.eqb_neq, N.
    + apply Z.ltb_lt, L.
  - intros H. rewrite (Q false); [split; reflexivity|].
    destruct H as [-> | H]; [reflexivity|].
    apply andb_false_iff. right. apply Z.ltb_ge, H.
Qed.

(** What [mockSignIn] has done when it returns. *)
Lemma mockSignIn_returned email_ password_ b u s b1 :
  mockSignIn email_ password_ b = (Ret (u, s), b1) ->
  (exists mu, In mu (MOCK_USERS b)
              /\ email mu = email_ /\ password mu = password_
              /\ u = mkAuthUser (id mu) (email mu) (name mu)
                       ("https://api.dicebear.com/7.x/avataaars/svg?seed="
                        ++ id mu))
  /\ s = mkSession u (now b + 500 + 86400000) (now b + 500)
  /\ now b1 = now b + 500
  /\ MOCK_USERS b1 = MOCK_USERS b
  /\ str_gt b1 = str_gt b
  /\ getItem MOCK_AUTH_KEY (localStorage b1) = Some (stringify (json_of_user u))
  /\ getItem MOCK_AUTH_KEY (sessionStorage b1)
     = Some (stringify (json_of_user u))
  /\ getItem MOCK_AUTH_SESSION (localStorage b1)
     = Some (stringify (json_of_session (json_of_user u)
                          (expires_at s) (created_at s)))
  /\ getItem MOCK_AUTH_SESSION (sessionStorage b1)
     = Some (stringify (json_of_session (json_of_user u)
                          (expires_at s) (created_at s)))
  /\ same_other_items b b1.
Proof.
  unfold mockSignIn, bind, sleep, modify, gets. cbn [fst snd].
  change (MOCK_USERS (with_now (now b + 500) b)) with (MOCK_USERS b).
  destruct (find _ (MOCK_USERS b)) as [mu|] eqn:F; [|discriminate].
  apply find_some in F. destruct F as (I & Q).
  apply andb_true_iff in Q. destruct Q as (Q1 & Q2).
  apply String.eqb_eq in Q1, Q2.
  unfold Date_now, gets, local_setItem, session_setItem, assign_cookie,
         modify, ret.
  cbn [fst snd]. intros H. injection H as <- <- <-.
  split; [exists mu; auto|].
  split; [reflexivity|]. split; [reflexivity|]. split; [reflexivity|].
  split; [reflexivity|].
  unfold same_other_items, with_cookies, with_session, with_local, with_now.
  cbn [localStorage sessionStorage expires_at created_at].
  rewrite !getItem_setItem_same.
  rewrite !(getItem_setItem_other MOCK_AUTH_KEY MOCK_AUTH_SESSION)
    by discriminate.
  rewrite !getItem_setItem_same.
  repeat (split; [reflexivity|]).
  intros k N1 N2. rewrite !getItem_setItem_other by assumption. auto.
Qed.

Lemma find_all_false {A} (f : A -> bool) (l : list A) :
  (forall x, In x l -> f x = false) -> find f l = None.
Proof.
  induction l as [|a l IH]; simpl; intros H; [reflexivity|].
  rewrite (H a) by auto. apply IH. auto.
Qed.

(** [mockSignIn] returns for a user it finds, and throws otherwise with
    nothing but the clock changed. *)
Lemma mockSignIn_cases email_ password_ b :
  match find (fun user => String.eqb (email user) email_
                          && String.eqb (password user) password_)
             (MOCK_USERS b) with
  | Some mu =>
      exists s b1,
        mockSignIn email_ password_ b
        = (Ret (mkAuthUser (id mu) (email mu) (name mu)
                  ("https://api.dicebear.com/7.x/avataaars/svg?seed="
                   ++ id mu), s), b1)
  | None =>
      mockSignIn email_ password_ b
      = (Throw (Js.Error "Invalid email or password"),
         with_now (now b + 500) b)
  end.
Proof.
  unfold mockSignIn, bind, sleep, modify, gets. cbn [fst snd].
  change (MOCK_USERS (with_now (now b + 500) b)) with (MOCK_USERS b).
  destruct (find _ (MOCK_USERS b)) as [mu|]; [|reflexivity].
  do 2 eexists. reflexivity.
Qed.

(** X28. After [mockSignIn] has returned a user, [mockGetCurrentUser]
    returns that user and writes nothing as long as the session has not
    expired, that is for 24 hours from the sign-in, which itself takes
    500 ms; from then on it returns [null] and removes the stored user and
    session from both storages.  The user is one of [MOCK_USERS] with the
    email and password given. *)
Theorem signed_in_user_is_current :
  forall (email_ password_ : string) (b b1 : Browser) (u : AuthUser)
         (s : Session) (t : Z),
    mockSignIn email_ password_ b = (Ret (u, s), b1) ->
    user s = u
    /\ created_at s = now b + 500
    /\ expires_at s = created_at s + 86400000
    /\ (exists mu, In mu (MOCK_USERS b)
                   /\ email mu = email_ /\ password mu = password_
                   /\ au_id u = id mu /\ au_email u = email_
                   /\ au_name u = name mu)
    /\ (expires_at s <> 0 -> t < expires_at s ->
        mockGetCurrentUser (with_now t b1)
        = (Ret (Some (json_of_user u)), with_now t b1))
    /\ (expires_at s <= t ->
        fst (mockGetCurrentUser (with_now t b1)) = Ret (Some Js.JNull)
        /\ signed_out (snd (mockGetCurrentUser (with_now t b1)))).
Proof.
  intros email_ password_ b b1 u s t H.
  destruct (mockSignIn_returned _ _ _ _ _ _ H)
    as ((mu & I & E & P & U) & S & _ & _ & _ & _ & _ & L & _).
  split; [rewrite S; reflexivity|]. split; [rewrite S; reflexivity|].
  split; [rewrite S; reflexivity|].
  split.
  { exists mu. rewrite U. cbn [au_id au_email au_name].
    repeat split; assumption. }
  destruct (current_user_of_session (with_now t b1)
              (stringify (json_of_session (json_of_user u)
                            (expires_at s) (created_at s)))
              [("user", json_of_user u);
               ("expires_at", Js.JNum (expires_at s));
               ("created_at", Js.JNum (created_at s))]
              (expires_at s) L eq_refl eq_refl eq_refl) as (V & X).
  split.
  - intros N T. apply V; [exact N|exact T].
  - intros T. destruct (X (or_intror T)) as (X1 & X2).
    split; [exact X1|]. rewrite X2. apply reset_signed_out.
Qed.

Lemma signed_in_user_is_current_witness :
  let b1 := snd (mockSignIn "test@example.com" "password" (page 1000)) in
  fst (mockGetCurrentUser (with_now 5000 b1))
  = Ret (Some (json_of_user
                 (mkAuthUser "mock-user-1" "test@example.com" "Test User"
                    "https://api.dicebear.com/7.x/avataaars/svg?seed=mock-user-1")))
  /\ fst (mockGetCurrentUser (with_now 86401500 b1)) = Ret (Some Js.JNull).
Proof.
  pose proof (signed_in_user_is_current "test@example.com" "password"
    (page 1000)
    (snd (mockSignIn "test@example.com" "password" (page 1000)))
    (mkAuthUser "mock-user-1" "test@example.com" "Test User"
       "https://api.dicebear.com/7.x/avataaars/svg?seed=mock-user-1")
    (mkSession
       (mkAuthUser "mock-user-1" "test@example.com" "Test User"
          "https://api.dicebear.com/7.x/avataaars/svg?seed=mock-user-1")
       86401500 1500)) as T.
  split.
  - destruct (T 5000 eq_refl) as (_ & _ & _ & _ & V & _).
    rewrite V; [reflexivity|discriminate|reflexivity].
  - destruct (T 86401500 eq_refl) as (_ & _ & _ & _ & _ & X).
    apply X. discriminate.
Defined.

(** X29. [mockSignOut], after its 300 ms, and [resetMockAuth] leave no
    stored user and no stored session in either storage and touch no item
    under another key; at whatever time [mockGetCurrentUser] is called
    afterwards, it returns [null].  The switch that [setMockAuthEnabled]
    sets is what [isMockAuthEnabled] reads, and signing out or resetting
    leaves it as it is. *)
Theorem signed_out_has_no_user :
  forall (b : Browser) (t : Z) (enabled : bool),
    fst (mockSignOut b) = Ret tt
    /\ now (snd (mockSignOut b)) = now b + 300
    /\ signed_out (snd (mockSignOut b))
    /\ same_other_items b (snd (mockSignOut b))
    /\ fst (mockGetCurrentUser (with_now t (snd (mockSignOut b))))
       = Ret (Some Js.JNull)
    /\ fst (resetMockAuth b) = Ret tt
    /\ signed_out (snd (resetMockAuth b))
    /\ same_other_items b (snd (resetMockAuth b))
    /\ fst (mockGetCurrentUser (with_now t (snd (resetMockAuth b))))
       = Ret (Some Js.JNull)
    /\ fst (isMockAuthEnabled (snd (setMockAuthEnabled enabled b)))
       = Ret enabled
    /\ fst (isMockAuthEnabled (snd (mockSignOut b)))
       = fst (isMockAuthEnabled b)
    /\ fst (isMockAuthEnabled (snd (resetMockAuth b)))
       = fst (isMockAuthEnabled b).
Proof.
  intros b t enabled.
  assert (E : mockSignOut b = resetMockAuth (with_now (now b + 300) b))
    by reflexivity.
  destruct (reset_signed_out (with_now (now b + 300) b))
    as (R1 & R2 & R3 & _ & R5).
  destruct (reset_signed_out b) as (S1 & S2 & S3 & _).
  rewrite E.
  split; [exact R1|]. split; [exact R5|]. split; [exact R2|].
  split; [exact R3|].
  split; [apply current_user_of_signed_out; exact R2|].
  split; [exact S1|]. split; [exact S2|]. split; [exact S3|].
  split; [apply current_user_of_signed_out; exact S2|].
  assert (Flag : forall b1 b2,
            same_other_items b1 b2 ->
            fst (isMockAuthEnabled b2) = fst (isMockAuthEnabled b1)).
  { intros b1 b2 O.
    unfold isMockAuthEnabled, bind, local_getItem, gets, ret. cbn [fst snd].
    destruct (O MOCK_AUTH_ENABLED) as (-> & _);
      [discriminate|discriminate|reflexivity]. }
  split; [|split].
  - unfold isMockAuthEnabled, setMockAuthEnabled, bind, local_getItem,
           local_setItem, gets, modify, ret, with_local.
    cbn [fst snd localStorage]. rewrite getItem_setItem_same.
    destruct enabled; reflexivity.
  - apply (Flag (with_now (now b + 300) b)). exact R3.
  - apply Flag. exact S3.
Qed.

(** X30. [mockSignUp] refuses an email that a user of [MOCK_USERS] has,
    with nothing but the clock changed; for a new email it adds the user
    to [MOCK_USERS] under the id [mock-user-] followed by the time, signs
    the user in and returns it, a second later in all, so that the email
    is taken from then on.  [mockSignIn] with an email and password that no
    user has throws, with nothing but the clock changed. *)
Theorem sign_up_registers_new_email :
  forall (email_ password_ name_ : string) (b : Browser),
    (registered email_ b ->
     mockSignUp email_ password_ name_ b
     = (Throw (Js.Error "User with this email already exists"),
        with_now (now b + 500) b))
    /\ (~ registered email_ b ->
        exists u s b1,
          mockSignUp email_ password_ name_ b = (Ret (u, s), b1)
          /\ au_id u = "mock-user-" ++ Js.show_int (now b + 500)
          /\ au_email u = email_ /\ au_name u = name_
          /\ MOCK_USERS b1
             = List.app (MOCK_USERS b)
                        [mkMockUser email_ password_ name_ (au_id u)]
          /\ now b1 = now b + 1000
          /\ created_at s = now b + 1000
          /\ registered email_ b1)
    /\ ((forall mu, In mu (MOCK_USERS b) ->
                    ~ (email mu = email_ /\ password mu = password_)) ->
        mockSignIn email_ password_ b
        = (Throw (Js.Error "Invalid email or password"),
           with_now (now b + 500) b)).
Proof.
  intros email_ password_ name_ b. split; [|split].
  - intros R. destruct (registered_find _ _ R) as (x & F).
    unfold mockSignUp, bind, sleep, modify, gets. cbn [fst snd].
    change (MOCK_USERS (with_now (now b + 500) b)) with (MOCK_USERS b).
    rewrite F. reflexivity.
  - intros N. pose proof (not_registered_find _ _ N) as F.
    unfold mockSignUp, bind, sleep, modify, gets, Date_now. cbn [fst snd].
    change (MOCK_USERS (with_now (now b + 500) b)) with (MOCK_USERS b).
    rewrite F. unfold gets. cbn [fst snd now MOCK_USERS with_now].
    match goal with
    | |- context [mockSignIn email_ password_ ?b'] => set (b0 := b')
    end.
    pose proof (mockSignIn_cases email_ password_ b0) as C.
    assert (Fi : find (fun user => String.eqb (email user) email_
                                   && String.eqb (password user) password_)
                      (MOCK_USERS b0)
                 = Some (mkMockUser email_ password_ name_
                           ("mock-user-" ++ Js.show_int (now b + 500)))).
    { subst b0. unfold with_users. cbn [MOCK_USERS].
      rewrite find_app, find_all_false.
      - cbn [find email password]. rewrite !String.eqb_refl. reflexivity.
      - intros x I. apply andb_false_iff. left.
        destruct (String.eqb_spec (email x) email_) as [E|]; [|reflexivity].
        exfalso. apply N. exists x. auto. }
    rewrite Fi in C. destruct C as (s & b1 & C).
    exists (mkAuthUser ("mock-user-" ++ Js.show_int (now b + 500))
              email_ name_
              ("https://api.dicebear.com/7.x/avataaars/svg?seed="
               ++ ("mock-user-" ++ Js.show_int (now b + 500)))), s, b1.
    cbn [id email name] in C.
    split; [exact C|].
    destruct (mockSignIn_returned _ _ _ _ _ _ C)
      as (_ & S & T & U & _).
    split; [reflexivity|]. split; [reflexivity|]. split; [reflexivity|].
    split; [rewrite U; reflexivity|].
    split; [rewrite T; subst b0; cbn; lia|].
    split; [rewrite S; subst b0; cbn; lia|].
    exists (mkMockUser email_ password_ name_
              ("mock-user-" ++ Js.show_int (now b + 500))).
    split; [|reflexivity]. rewrite U. subst b0. cbn [MOCK_USERS with_users].
    apply in_or_app. right. left. reflexivity.
  - intros N. pose proof (mockSignIn_cases email_ password_ b) as C.
    rewrite find_all_false in C; [exact C|].
    intros x I. apply andb_false_iff.
    destruct (String.eqb_spec (email x) email_) as [E|]; [|auto].
    destruct (String.eqb_spec (password x) password_) as [P|]; [|auto].
    exfalso. apply (N x I). auto.
Qed.

Lemma sign_up_registers_new_email_witness :
  mockSignUp "admin@example.com" "pw" "Other" (page 1000)
  = (Throw (Js.Error "User with this email already exists"),
     with_now 1500 (page 1000))
  /\ mockSignIn "test@example.com" "wrong" (page 1000)
     = (Throw (Js.Error "Invalid email or password"),
        with_now 1500 (page 1000))
  /\ exists u s b1,
       mockSignUp "new@example.com" "pw" "New User" (page 1000)
       = (Ret (u, s), b1)
       /\ au_id u = "mock-user-1500" /\ now b1 = 2000.
Proof.
  split; [|split].
  3:{ destruct (proj1 (proj2 (sign_up_registers_new_email "new@example.com"
                                "pw" "New User" (page 1000))))
        as (u & s & b1 & Q & I & _ & _ & _ & T & _).
      - intros (mu & [<-|[<-|[]]] & E); discriminate E.
      - exists u, s, b1. split; [exact Q|]. split; [exact I|exact T]. }
  - apply (proj1 (sign_up_registers_new_email "admin@example.com" "pw"
                    "Other" (page 1000))).
    exists (mkMockUser "admin@example.com" "admin" "Admin User"
              "mock-user-2").
    split; [right; left; reflexivity|reflexivity].
  - apply (proj2 (proj2 (sign_up_registers_new_email "test@example.com"
                           "wrong" "Nobody" (page 1000)))).
    intros mu [<-|[<-|[]]] (_ & Q); discriminate Q.
Defined.

End MockAuthExtras.
